(** * The notebook index facade ([zim/notebook/index/__init__.py])

    A shallow embedding of [Index] and [IndexUpdateIter]: the cache is a
    small relational store (tables of rows behind one connection), the
    methods are computations in a state-and-exception monad, and the two
    generators are resumable state machines that are pulled one marker at
    a time.  The indexers and the checker live in sibling modules; they
    enter as the interface [Pipeline].  What SQLite makes of a table
    name that is written without quotes, and the order in which it
    lists the tables, enter as the interface [Engine]. *)

From Stdlib Require Import ZArith String Ascii List Bool Lia.
From stdpp Require Import base option list gmap strings fin_maps pretty.

Open Scope string_scope.
Open Scope list_scope.

(** ** SQLite values, rows and tables *)

Inductive value :=
| VNull
| VInt (n : Z)
| VText (s : string)
| VBlob (bytes : string).

#[global] Instance value_eq_dec : EqDecision value.
Proof. solve_decision. Defined.

Abbreviation row := (list value).

(** A table: its column names in declaration order, its UNIQUE
    constraints (each a list of columns), whether its key is declared
    AUTOINCREMENT, and its rows in rowid order. *)
Record table := MkTable {
  cols : list string;
  uniq : list (list string);
  autoinc : bool;
  rows : list row
}.

(** A table without AUTOINCREMENT. *)
Abbreviation Table cs us rs := (MkTable cs us false rs).

#[global] Instance table_eq_dec : EqDecision table.
Proof. solve_decision. Defined.

Definition with_rows (tb : table) (rs : list row) : table :=
  MkTable (cols tb) (uniq tb) (autoinc tb) rs.

(** A database: what [sqlite_master] lists with [type="table"]. *)
Abbreviation db := (gmap string table).

(** [=] in a WHERE clause: NULL compares equal to nothing. *)
Definition sql_eq (a b : value) : bool :=
  match a, b with
  | VInt x, VInt y => Z.eqb x y
  | VText s, VText t => String.eqb s t
  | VBlob s, VBlob t => String.eqb s t
  | _, _ => false
  end.

Fixpoint col_index (c : string) (cs : list string) : option nat :=
  match cs with
  | [] => None
  | c' :: cs' => if String.eqb c c' then Some 0%nat
                 else S <$> col_index c cs'
  end.

Definition cell (i : nat) (r : row) : value := nth i r VNull.

(** ** Python exceptions that the module raises or catches *)

Inductive exn :=
| OperationalError      (* sqlite3.OperationalError, a DatabaseError *)
| IntegrityError        (* sqlite3.IntegrityError, a DatabaseError *)
| DatabaseError         (* sqlite3.DatabaseError proper *)
| InterfaceError        (* sqlite3.InterfaceError: a parameter of a type
                           that sqlite3 cannot bind (from Python 3.11 on
                           it raises sqlite3.ProgrammingError) *)
| OverflowError
| AssertionError
| AttributeError
| TypeError
| ValueError
| OSError.

#[global] Instance exn_eq_dec : EqDecision exn.
Proof. solve_decision. Defined.

(** [isinstance(e, sqlite3.DatabaseError)] *)
Definition is_DatabaseError (e : exn) : bool :=
  match e with
  | OperationalError | IntegrityError | DatabaseError => true
  | _ => false
  end.

Inductive result (A : Type) :=
| Ok (a : A)
| Raise (e : exn).
Arguments Ok {A} a.
Arguments Raise {A} e.

#[global] Instance result_eq_dec {A} `{EqDecision A} : EqDecision (result A).
Proof. solve_decision. Defined.

(** ** Python values as parameters of a statement *)

(** What a caller may pass as a value: [None], an integer, a float, a
    text, a buffer of bytes, or an object of any other type.  A float
    (not a NaN) is given by the text that SQLite makes of it when it
    converts it: [0.5] by ["0.5"]. *)
Inductive pyvalue :=
| PNone
| PInt (n : Z)
| PFloat (text : string)
| PText (s : string)
| PBuffer (bytes : string)
| PObject.

#[global] Instance pyvalue_eq_dec : EqDecision pyvalue.
Proof. solve_decision. Defined.


(** What a column declared TEXT stores for a parameter.  sqlite3 binds
    [None] as NULL, an integer that fits 64 bits as INTEGER, a float as
    REAL, a text as TEXT and a buffer as BLOB, and refuses other
    objects; under TEXT affinity SQLite then stores an INTEGER or a
    REAL as its decimal text and leaves the others as they are. *)
Definition stored_as_text (v : pyvalue) : result value :=
  match v with
  | PNone => Ok VNull
  | PInt n =>
      if ((- 2 ^ 63 <=? n) && (n <? 2 ^ 63))%Z then Ok (VText (pretty n))
      else Raise OverflowError
  | PFloat text => Ok (VText text)
  | PText s => Ok (VText s)
  | PBuffer b => Ok (VBlob b)
  | PObject => Raise InterfaceError
  end.

(** ** Statements, each on an open database *)

Module Sql.

(** [SELECT * FROM t WHERE c = v] *)
Definition select_where (t c : string) (v : value) (d : db)
  : result (list row) :=
  match d !! t with
  | None => Raise OperationalError
  | Some tb =>
      match col_index c (cols tb) with
      | None => Raise OperationalError
      | Some i => Ok (List.filter (fun r => sql_eq (cell i r) v) (rows tb))
      end
  end.

(** [SELECT p FROM t WHERE c = v] *)
Definition select_col_where (p t c : string) (v : value) (d : db)
  : result (list row) :=
  match d !! t with
  | None => Raise OperationalError
  | Some tb =>
      match col_index p (cols tb), col_index c (cols tb) with
      | Some j, Some i =>
          Ok (List.map (fun r => [cell j r])
                (List.filter (fun r => sql_eq (cell i r) v) (rows tb)))
      | _, _ => Raise OperationalError
      end
  end.

(** [DELETE FROM t WHERE c = v] *)
Definition delete_where (t c : string) (v : value) (d : db) : result db :=
  match d !! t with
  | None => Raise OperationalError
  | Some tb =>
      match col_index c (cols tb) with
      | None => Raise OperationalError
      | Some i =>
          Ok (<[t := with_rows tb
                 (List.filter (fun r => negb (sql_eq (cell i r) v)) (rows tb))]> d)
      end
  end.

(** Two rows collide on a UNIQUE constraint when they agree (by [=])
    on each of its columns. *)
Definition agree_on (cs : list string) (r r' : row) (c : string) : bool :=
  match col_index c cs with
  | Some i => sql_eq (cell i r) (cell i r')
  | None => false
  end.

Definition conflicts (tb : table) (r r' : row) : bool :=
  existsb (fun u => forallb (agree_on (cols tb) r r') u) (uniq tb).

(** [INSERT OR REPLACE INTO t VALUES (...)]: the rows that collide
    with the new one are deleted, then it is appended. *)
Definition insert_or_replace (t : string) (r : row) (d : db) : result db :=
  match d !! t with
  | None => Raise OperationalError
  | Some tb =>
      if Nat.eqb (length r) (length (cols tb)) then
        Ok (<[t := with_rows tb
               (List.filter (fun r' => negb (conflicts tb r r')) (rows tb)
                  ++ [r])]> d)
      else Raise OperationalError
  end.

(** [INSERT INTO t VALUES (...)] *)
Definition insert_values (t : string) (r : row) (d : db) : result db :=
  match d !! t with
  | None => Raise OperationalError
  | Some tb =>
      if Nat.eqb (length r) (length (cols tb)) then
        if existsb (conflicts tb r) (rows tb) then Raise IntegrityError
        else Ok (<[t := with_rows tb (rows tb ++ [r])]> d)
      else Raise OperationalError
  end.

(** The row that [INSERT INTO t(cs) VALUES (vs)] builds: named columns
    take their value, the others NULL. *)
Fixpoint named_value (c : string) (cs : list string) (vs : list value)
  : value :=
  match cs, vs with
  | c' :: cs', v :: vs' =>
      if String.eqb c c' then v else named_value c cs' vs'
  | _, _ => VNull
  end.

(** [INSERT INTO t(cs) VALUES (vs)] *)
Definition insert_named (t : string) (cs : list string) (vs : list value)
    (d : db) : result db :=
  match d !! t with
  | None => Raise OperationalError
  | Some tb =>
      if forallb (fun c => bool_decide (is_Some (col_index c (cols tb)))) cs
         && Nat.eqb (length cs) (length vs) then
        insert_values t (List.map (fun c => named_value c cs vs) (cols tb)) d
      else Raise OperationalError
  end.

(** [INSERT OR REPLACE INTO t VALUES (?, ...)] with parameters: the
    statement is compiled first (the table is there and has that many
    columns), then the parameters are bound. *)
Definition insert_or_replace_bound (t : string) (ps : list (result value))
    (d : db) : result db :=
  match d !! t with
  | None => Raise OperationalError
  | Some tb =>
      if Nat.eqb (length ps) (length (cols tb)) then
        match
          fold_right (fun p acc =>
                        match p, acc with
                        | Ok v, Ok r => Ok (v :: r)
                        | Raise e, _ => Raise e
                        | _, Raise e => Raise e
                        end) (Ok []) ps
        with
        | Ok r => insert_or_replace t r d
        | Raise e => Raise e
        end
      else Raise OperationalError
  end.

(** ASCII case folding, as LIKE and the names of tables have it. *)
Definition lower (a : ascii) : ascii :=
  let n := nat_of_ascii a in
  if (65 <=? n)%nat && (n <=? 90)%nat then ascii_of_nat (n + 32) else a.

Fixpoint lower_string (s : string) : string :=
  match s with
  | EmptyString => EmptyString
  | String a s' => String (lower a) (lower_string s')
  end.

(** [name LIKE "sqlite%"] *)
Definition like_sqlite (name : string) : bool :=
  String.prefix "sqlite" (lower_string name).

(** The tables in which SQLite keeps notes about the other tables:
    the column that holds the name of the table a row is about, and
    whether rows are kept about AUTOINCREMENT tables only.
    [sqlite_sequence] has the last key of each AUTOINCREMENT table,
    [sqlite_stat1] to [sqlite_stat4] what ANALYZE found. *)
Definition note_of (x : string) : option (string * bool) :=
  if String.eqb x "sqlite_sequence" then Some ("name", true)
  else if existsb (String.eqb x)
            ["sqlite_stat1"; "sqlite_stat2"; "sqlite_stat3"; "sqlite_stat4"]
  then Some ("tbl", false)
  else None.

(** The rows of table [x] that are left when SQLite deletes its notes
    about the tables that [gone] holds of: [gone only_autoinc v] says
    whether [v] names such a table. *)
Definition notes_left (gone : bool -> value -> bool) (x : string)
    (tb : table) : list row :=
  match note_of x with
  | Some (c, only_autoinc) =>
      match col_index c (cols tb) with
      | Some i =>
          List.filter (fun r => negb (gone only_autoinc (cell i r))) (rows tb)
      | None => rows tb
      end
  | None => rows tb
  end.

(** What DROP TABLE does besides dropping [t]: SQLite deletes the row
    of [t] from [sqlite_sequence] when [t] is AUTOINCREMENT, and the
    rows about [t] from the tables of ANALYZE. *)
Definition forget (t : string) (tb : table) (d : db) : db :=
  map_imap
    (fun x tbx =>
       Some (with_rows tbx
               (notes_left
                  (fun only_autoinc v =>
                     implb only_autoinc (autoinc tb) && sql_eq v (VText t))
                  x tbx)))
    d.

(** SQLite's own tables, which it refuses to drop (those of ANALYZE
    apart). *)
Definition internal (t : string) : bool :=
  String.prefix "sqlite_" (lower_string t)
  && negb (String.prefix "sqlite_stat" (lower_string t)).

(** [DROP TABLE t], where [t] is the table that SQLite has read. *)
Definition drop_table (t : string) (d : db) : result db :=
  match d !! t with
  | None => Raise OperationalError
  | Some tb =>
      if internal t then Raise OperationalError
      else Ok (delete t (forget t tb d))
  end.

(** [CREATE TABLE t (cs, UNIQUE ...)] *)
Definition create_table (t : string) (cs : list string)
    (us : list (list string)) (d : db) : result db :=
  match d !! t with
  | Some _ => Raise OperationalError
  | None => Ok (<[t := Table cs us []]> d)
  end.

End Sql.

(** ** The connection, the store behind it and what can be observed *)

(** What is at the path of a store: an SQLite database; bytes that
    SQLite refuses ([sqlite3.DatabaseError]: file is not a database);
    or nothing that can be opened, because the directory is missing or
    access is denied ([sqlite3.OperationalError]: unable to open
    database file). *)
Inductive image :=
| Garbage
| Sqlite (d : db)
| Unreachable.

#[global] Instance image_eq_dec : EqDecision image.
Proof. solve_decision. Defined.

Inductive emitter := TheIndex | TheUpdateIter | TheFilesIndexer.

Inductive level := LDebug | LInfo | LWarning | LException.

(** What the run of a method leaves behind, in order: commits, signals,
    log records, the lock, and the pulls on the sibling generators. *)
Inductive event :=
| Commit
| Emit (src : emitter) (signal : string)
| Log (lvl : level) (msg : string)
| Acquire
| Release
| CheckerPulled (out_of_date : option bool)   (* [None]: exhausted *)
| UpdateIterCalled                            (* [self.files.update_iter()] *)
| UpdatePulled (more : bool).                 (* [false]: exhausted *)

#[global] Instance emitter_eq_dec : EqDecision emitter.
Proof. solve_decision. Defined.
#[global] Instance level_eq_dec : EqDecision level.
Proof. solve_decision. Defined.
#[global] Instance event_eq_dec : EqDecision event.
Proof. solve_decision. Defined.

(** [view] is the database as [self._db] sees it, uncommitted writes
    included; [store] is what is durable behind it ([None]: no file
    yet, one can be created); [removable] says whether the file system
    lets the file be deleted. *)
Record state := State {
  view : image;
  store : option image;
  removable : bool;
  trace : list event
}.

Definition set_view (v : image) (s : state) : state :=
  State v (store s) (removable s) (trace s).

Definition record (e : event) (s : state) : state :=
  State (view s) (store s) (removable s) (trace s ++ [e]).

(** ** The monad of the methods: state and exceptions *)

Definition M (A : Type) : Type := state -> result A * state.

#[global] Instance M_ret : MRet M := fun A a s => (Ok a, s).

#[global] Instance M_bind : MBind M := fun A B f m s =>
  match m s with
  | (Ok a, s') => f a s'
  | (Raise e, s') => (Raise e, s')
  end.

Definition raise {A} (e : exn) : M A := fun s => (Raise e, s).

(** [try: m except <h matches>: ...]; [h e = None] lets [e] through. *)
Definition try_except {A} (m : M A) (h : exn -> option (M A)) : M A :=
  fun s =>
    match m s with
    | (Ok a, s') => (Ok a, s')
    | (Raise e, s') =>
        match h e with
        | Some k => k s'
        | None => (Raise e, s')
        end
    end.

(** [try: m finally: k] *)
Definition try_finally {A} (m : M A) (k : M unit) : M A :=
  fun s =>
    match m s with
    | (r, s') =>
        match k s' with
        | (Ok _, s'') => (r, s'')
        | (Raise e, s'') => (Raise e, s'')
        end
    end.

Definition assert (b : bool) : M unit :=
  if b then mret tt else raise AssertionError.

Definition note (e : event) : M unit :=
  fun s => (Ok tt, record e s).

Definition log (lvl : level) (msg : string) : M unit :=
  note (Log lvl msg).

Definition emit (src : emitter) (signal : string) : M unit :=
  note (Emit src signal).

(** A read on the connection. *)
Definition query {A} (f : db -> result A) : M A :=
  fun s =>
    match view s with
    | Sqlite d =>
        match f d with
        | Ok a => (Ok a, s)
        | Raise e => (Raise e, s)
        end
    | _ => (Raise DatabaseError, s)
    end.

(** [self._db.execute(...)] of an INSERT, UPDATE, DELETE or REPLACE:
    sqlite3 opens a transaction for it unless one is open, and the
    change waits there for the next commit. *)
Definition execute (f : db -> result db) : M unit :=
  fun s =>
    match view s with
    | Sqlite d =>
        match f d with
        | Ok d' => (Ok tt, set_view (Sqlite d') s)
        | Raise e => (Raise e, s)
        end
    | _ => (Raise DatabaseError, s)
    end.

(** The statements of a script, one after the other, until one fails. *)
Fixpoint script (l : list (db -> result db)) (d : db) : result unit * db :=
  match l with
  | [] => (Ok tt, d)
  | f :: l' =>
      match f d with
      | Ok d' => script l' d'
      | Raise e => (Raise e, d)
      end
  end.

(** [self._db.executescript(...)]: sqlite3 commits what is pending,
    then SQLite runs the statements outside of a transaction, each
    durable as it completes. *)
Definition executescript (l : list (db -> result db)) : M unit :=
  fun s =>
    match view s with
    | Sqlite d =>
        let '(r, d') := script l d in
        (r, State (Sqlite d') (Some (Sqlite d')) (removable s) (trace s))
    | _ => (Raise DatabaseError, s)
    end.

(** A call into a sibling module: it reads and writes through the same
    connection, inside the open transaction. *)
Definition call {A} (f : db -> A * db) : M A :=
  fun s =>
    match view s with
    | Sqlite d => let '(a, d') := f d in (Ok a, set_view (Sqlite d') s)
    | _ => (Raise DatabaseError, s)
    end.

(** [self._db.commit()] *)
Definition commit : M unit :=
  fun s =>
    (Ok tt,
     State (view s)
       (match view s with Sqlite d => Some (Sqlite d) | _ => store s end)
       (removable s) (trace s ++ [Commit])).

(** [with self.lock: m] *)
Definition with_lock {A} (m : M A) : M A :=
  note Acquire;;
  try_finally m (note Release).

Fixpoint for_each {A} (l : list A) (body : A -> M unit) : M unit :=
  match l with
  | [] => mret tt
  | x :: l' => body x;; for_each l' body
  end.

(** ** Storage nodes and page paths ([zim.newfs], [zim.notebook.page]) *)

(** [isinstance(file, File)], [isinstance(file, Folder)], or neither. *)
Inductive node_kind := IsFile | IsFolder | IsOther.

Record node := Node {
  kind : node_kind;
  relpath : string;      (* [file.relpath(self.layout.root)] *)
  exists_ : bool         (* [file.exists()] *)
}.

Record Path := MkPath { name : string }.

(** ** The sibling modules, as an interface

    [FilesIndexer], [PagesIndexer], [LinksIndexer], [TagsIndexer] and
    [FilesIndexChecker] are defined in [files.py], [pages.py], [links.py]
    and [tags.py].  Each receives the connection and works on the tables
    through it; committing is left to the callers in this module.  Only
    their constructors change the schema.  A generator of theirs is a
    state that is pulled: [None] is [StopIteration]. *)
Class Pipeline := {
  (** the page id of the root, and the relation of an absolute link *)
  ROOT_ID : Z;
  HREF_REL_ABSOLUTE : Z;
  (** the four constructors: every indexer creates its own tables *)
  create_schema : db -> db;
  (** what the listeners of a signal of the files indexer do *)
  files_listeners : string -> db -> db;
  files_update_file : value -> node -> db -> db;
  files_delete_file : value -> db -> db;
  files_update_folder : value -> node -> db -> db;
  files_delete_folder : value -> db -> db;
  files_interactive_add_file : node -> db -> db;
  (** [self.files.update_iter()] and its [next()] *)
  updater : Type;
  files_update_iter : updater;
  update_next : updater -> db -> option updater * db;
  (** [FilesIndexChecker]: [queue_check(file)], then [check_iter()]
      and its [next()] *)
  checker : Type;
  queue_check : option node -> db -> checker * db;
  check_next : checker -> db -> option (bool * checker) * db;
  (** [LinksIndexer.cleanup_placeholders(None)] *)
  cleanup_placeholders : db -> db;
  (** [PagesIndexer.insert_link_placeholder(path)], the new page id *)
  insert_link_placeholder : Path -> db -> Z * db
}.

(** ** SQLite, as far as it is left open

    How SQLite reads a table name that is spliced unquoted into a
    statement depends on its tokenizer and on its list of keywords,
    which grows from version to version; the order in which
    [sqlite_master] lists the tables is that of their creation, which a
    map from names to tables does not record.  Both enter as an
    interface, and with them the one point of sqlite3 at which the
    versions of Python differ. *)
Class Engine := {
  (** the table that SQLite reads in ['DROP TABLE %s' % name], or the
      error with which it refuses to compile the statement *)
  unquoted : string -> result string;
  (** the names of [sqlite_master] with [type="table"], in its order *)
  master_tables : db -> list string;
  (** whether sqlite3 commits the open transaction before a statement
      that changes the schema: the Python 2 of this module does, Python
      from 3.6 on does not *)
  commits_before_ddl : bool
}.

(** ** [class Index] and [class IndexUpdateIter] *)

Definition DB_VERSION : string := "0.7".

Record Index := MkIndex {
  dbpath : string
}.

(** What is connected to the ['commit'] signal of an update iterator. *)
Inductive handler := Index_on_commit.

Record IndexUpdateIter := MkIter {
  commit_handlers : list handler
}.

Section Facade.
Context {E : Engine} {P : Pipeline}.

(** [Index.on_commit] *)
Definition on_commit : M unit :=
  emit TheIndex "changed".

(** [IndexUpdateIter.emit('commit')]: the signal, then its handlers. *)
Definition emit_commit (it : IndexUpdateIter) : M unit :=
  emit TheUpdateIter "commit";;
  for_each (commit_handlers it) (fun h => match h with Index_on_commit => on_commit end).

(** [filesindexer.emit(signal)] *)
Definition files_emit (signal : string) : M unit :=
  emit TheFilesIndexer signal;;
  call (fun d => (tt, files_listeners signal d)).

(** [self._db.execute(...)] of a statement that changes the schema.
    The statement is compiled first; one that does not compile changes
    nothing.  SQLite runs it outside of a transaction, so that its
    effect is durable at once, unless a transaction is open: then
    sqlite3 either commits first, with the same outcome, or lets the
    statement join the transaction.  A transaction is taken to be open
    when the connection sees something else than the store holds. *)
Definition execute_ddl (f : db -> result db) : M unit :=
  fun s =>
    match view s with
    | Sqlite d =>
        match f d with
        | Ok d' =>
            if commits_before_ddl || bool_decide (store s = Some (Sqlite d))
            then (Ok tt, State (Sqlite d') (Some (Sqlite d')) (removable s) (trace s))
            else (Ok tt, set_view (Sqlite d') s)
        | Raise e => (Raise e, s)
        end
    | _ => (Raise DatabaseError, s)
    end.

(** [IndexUpdateIter.__init__]: the four constructors create their
    tables, with statements that change the schema. *)
Definition IndexUpdateIter_init : M IndexUpdateIter :=
  execute_ddl (fun d => Ok (create_schema d));;
  mret (MkIter []).

(** [Index.get_property] *)
Definition get_property (key : string) : M value :=
  c ← query (Sql.select_col_where "value" "zim_index" "key" (VText key));
  mret (match c with
        | r :: _ => cell 0 r
        | [] => VNull
        end).

(** [Index.set_property]; the key is a text, the value any Python
    value.  Both columns of the property table are declared TEXT. *)
Definition set_property (key : string) (value : pyvalue) : M unit :=
  with_lock
    match value with
    | PNone => execute (Sql.delete_where "zim_index" "key" (VText key))
    | _ =>
        execute (Sql.insert_or_replace_bound "zim_index"
                   [Ok (VText key); stored_as_text value])
    end.

(** [SELECT name FROM sqlite_master WHERE type="table" and
    name NOT LIKE "sqlite%"] *)
Definition user_tables (d : db) : list string :=
  List.filter (fun n => negb (Sql.like_sqlite n)) (master_tables d).

(** ['DROP TABLE %s' % table]: the name goes into the statement as it
    is, without quotes. *)
Definition drop_unquoted (table : string) (d : db) : result db :=
  match unquoted table with
  | Ok t => Sql.drop_table t d
  | Raise e => Raise e
  end.

(** [Index._db_init] *)
Definition _db_init : M unit :=
  tables ← query (fun d => Ok (user_tables d));
  for_each tables (fun t => execute_ddl (drop_unquoted t));;
  log LDebug "(Re-)Initializing database for index";;
  executescript
    [Sql.create_table "zim_index" ["key"; "value"] [["key"]];
     Sql.insert_values "zim_index" [VText "db_version"; VText DB_VERSION]];;
  IndexUpdateIter_init;;
  commit.

(** [Index.new_connection]; [has_db] is [hasattr(self, '_db')].  A new
    connection sees what the store holds; a missing file opens as an
    empty database, and a path that cannot be opened raises. *)
Definition new_connection (self : Index) (has_db : bool) : M image :=
  fun s =>
    if String.eqb (dbpath self) ":memory:" && has_db then (Ok (view s), s)
    else if String.eqb (dbpath self) ":memory:" then (Ok (Sqlite ∅), s)
    else
      match store s with
      | None => (Ok (Sqlite ∅), s)
      | Some Unreachable => (Raise OperationalError, s)
      | Some file => (Ok file, s)
      end.

(** [self._db = c] *)
Definition assign_db (c : image) : M unit :=
  fun s => (Ok tt, set_view c s).

(** [self.db]: an [Index] has the attributes [dbpath], [layout], [lock],
    [_db] and [update_iter]; looking up [db] fails. *)
Definition self_db : M image := raise AttributeError.

(** [LocalFile(self.dbpath).remove()] *)
Definition file_remove : M unit :=
  fun s =>
    if removable s then (Ok tt, State (view s) None (removable s) (trace s))
    else (Raise OSError, s).

(** [Index._db_check] *)
Definition _db_check (self : Index) : M unit :=
  try_except
    (v ← get_property "db_version";
     if bool_decide (v = VText DB_VERSION) then mret tt
     else
       log LDebug "Index db_version out of date";;
       _db_init)
    (fun e =>
       match e with
       | OperationalError =>
           Some (log LDebug "Operational error, init tabels";;
                 _db_init)
       | _ =>
           if is_DatabaseError e then
             Some (assert (negb (String.eqb (dbpath self) ":memory:"));;
                   log LWarning "Overwriting possibly corrupt database: %s";;
                   _ ← self_db;                      (* [self.db.close()] *)
                   try_finally
                     (try_except file_remove
                        (fun _ => Some (log LException "Could not delete: %s")))
                     (_ ← new_connection self true;  (* bound to a local [db] *)
                      _db_init))
           else None
       end).

(** [Index.__init__]; returns [self.update_iter]. *)
Definition Index_init (self : Index) : M IndexUpdateIter :=
  c ← new_connection self false;
  assign_db c;;
  _db_check self;;
  it ← IndexUpdateIter_init;
  mret (MkIter (commit_handlers it ++ [Index_on_commit])).



(** [Index.update_file] *)
Definition update_file (file : node) : M unit :=
  let path := relpath file in
  let filesindexer_emit := files_emit in
  c ← query (Sql.select_col_where "id" "files" "path" (VText path));
  let row := head c in
  if bool_decide (row = None) && negb (exists_ file) then mret tt
  else
    filesindexer_emit "start-update";;
    match row with
    | Some r =>
        let node_id := cell 0 r in
        match kind file with
        | IsFile =>
            if exists_ file
            then call (fun d => (tt, files_update_file node_id file d))
            else call (fun d => (tt, files_delete_file node_id d))
        | IsFolder =>
            if exists_ file
            then call (fun d => (tt, files_update_folder node_id file d))
            else call (fun d => (tt, files_delete_folder node_id d))
        | IsOther => raise TypeError
        end
    | None =>
        match kind file with
        | IsFile => call (fun d => (tt, files_interactive_add_file file d))
        | IsFolder => raise ValueError
        | IsOther => raise TypeError
        end
    end;;
    filesindexer_emit "finish-update";;
    commit;;
    on_commit.

(** [Index.touch_current_page_placeholder] *)
Definition touch_current_page_placeholder (path : Path) : M unit :=
  with_lock
    (execute (Sql.delete_where "links" "source" (VInt ROOT_ID));;
     call (fun d => (tt, cleanup_placeholders d));;
     c ← query (Sql.select_where "pages" "name" (VText (name path)));
     match head c with
     | None =>
         pid ← call (insert_link_placeholder path);
         execute (Sql.insert_named "links"
                    ["source"; "target"; "rel"; "names"]
                    [VInt ROOT_ID; VInt pid; VInt HREF_REL_ABSOLUTE;
                     VText (name path)])
     | Some _ => mret tt
     end;;
     commit;;
     emit TheIndex "changed").

End Facade.

(** ** The generator [IndexUpdateIter.check_and_update_iter] *)

Section UpdateIter.
Context {P : Pipeline}.

(** Where the generator is suspended between two pulls. *)
Inductive cau :=
| CauNew (file : option node)                    (* created, body not entered *)
| CauChecked (c : checker) (out_of_date : bool)  (* at the [yield] of the outer loop *)
| CauUpdating (c : checker) (u : updater)        (* at the [yield] of the inner loop *)
| CauDone.                                       (* returned *)

(** [next()] on [checker.check_iter()] *)
Definition pull_check (c : checker) : M (option (bool * checker)) :=
  r ← call (check_next c);
  note (CheckerPulled (fst <$> r));;
  mret r.

(** [next()] on [self.files.update_iter()] *)
Definition pull_update (u : updater) : M (option updater) :=
  r ← call (update_next u);
  note (UpdatePulled (bool_decide (is_Some r)));;
  mret r.

(** The outer [for] asks the checker for its next item; when there is
    none the loop is left and the generator commits, signals and
    returns. *)
Definition resume_check (it : IndexUpdateIter) (c : checker)
  : M (option cau) :=
  r ← pull_check c;
  match r with
  | Some (out_of_date, c') => mret (Some (CauChecked c' out_of_date))
  | None =>
      commit;;
      emit_commit it;;
      mret None
  end.

(** The inner [for] asks the files indexer for its next item; when there
    is none control is back in the outer loop. *)
Definition resume_update (it : IndexUpdateIter) (c : checker) (u : updater)
  : M (option cau) :=
  r ← pull_update u;
  match r with
  | Some u' => mret (Some (CauUpdating c u'))
  | None => resume_check it c
  end.

(** One [next()] on the generator: [Some g] is a marker with the
    generator suspended at [g], [None] is [StopIteration]. *)
Definition cau_next (it : IndexUpdateIter) (g : cau) : M (option cau) :=
  match g with
  | CauNew file =>
      c ← call (queue_check file);
      resume_check it c
  | CauChecked c out_of_date =>
      if out_of_date then
        note UpdateIterCalled;;
        resume_update it c files_update_iter
      else resume_check it c
  | CauUpdating c u => resume_update it c u
  | CauDone => mret None
  end.

(** A caller that pulls at most [n] times.  The result is the number of
    markers it got, and where the generator is suspended ([None] when a
    pull ended it). *)
Fixpoint pulls (n : nat) (it : IndexUpdateIter) (g : cau)
  : M (nat * option cau) :=
  match n with
  | O => mret (O, Some g)
  | S n' =>
      r ← cau_next it g;
      match r with
      | Some g' =>
          r' ← pulls n' it g';
          mret (S r'.1, r'.2)
      | None => mret (O, None)
      end
  end.

(** [IndexUpdateIter.check_and_update_iter(file)]: calling a generator
    function runs none of its body. *)
Definition check_and_update_iter (file : option node) : cau := CauNew file.

End UpdateIter.

(** ** The other methods of [Index] and [IndexUpdateIter]

    A [for] loop over a generator of the sibling modules is bounded by
    [fuel], the number of [next()] it may make; a method with such a
    loop returns whether the loop came to its end. *)

Section Remaining.
Context {P : Pipeline}.

(** [Index.is_uptodate]; [STATUS_NEED_UPDATE] is a constant of
    [files.py]. *)
Definition is_uptodate (STATUS_NEED_UPDATE : Z) : M bool :=
  c ← query (Sql.select_where "files" "index_status" (VInt STATUS_NEED_UPDATE));
  mret (bool_decide (head c = None)).

(** [Index.start_background_check], [Index.stop_background_check] *)
Definition start_background_check : M unit := mret tt.
Definition stop_background_check : M unit := mret tt.

(** [IndexUpdateIter.__call__] *)
Definition IndexUpdateIter_call (it : IndexUpdateIter) : IndexUpdateIter := it.

(** Where the generator [IndexUpdateIter.__iter__] is suspended. *)
Inductive iter_pc :=
| IterNew                     (* created, body not entered *)
| IterUpdating (u : updater)  (* at the [yield] *)
| IterDone.                   (* returned *)

(** The [for] of [__iter__] asks the files indexer for its next item;
    when there is none the generator commits, signals and returns. *)
Definition resume_iter (it : IndexUpdateIter) (u : updater)
  : M (option iter_pc) :=
  r ← pull_update u;
  match r with
  | Some u' => mret (Some (IterUpdating u'))
  | None =>
      commit;;
      emit_commit it;;
      mret None
  end.

(** One [next()] on [IndexUpdateIter.__iter__]. *)
Definition iter_next (it : IndexUpdateIter) (g : iter_pc) : M (option iter_pc) :=
  match g with
  | IterNew =>
      note UpdateIterCalled;;
      resume_iter it files_update_iter
  | IterUpdating u => resume_iter it u
  | IterDone => mret None
  end.

(** A caller that pulls [__iter__] at most [n] times: the markers it
    got and where the generator is suspended. *)
Fixpoint iter_pulls (n : nat) (it : IndexUpdateIter) (g : iter_pc)
  : M (nat * option iter_pc) :=
  match n with
  | O => mret (O, Some g)
  | S n' =>
      r ← iter_next it g;
      match r with
      | Some g' =>
          r' ← iter_pulls n' it g';
          mret (S r'.1, r'.2)
      | None => mret (O, None)
      end
  end.

(** The loop [for i in self.files.update_iter(): pass] of [update]. *)
Fixpoint update_loop (fuel : nat) (u : updater) : M bool :=
  match fuel with
  | O => mret false
  | S fuel' =>
      r ← pull_update u;
      match r with
      | Some u' => update_loop fuel' u'
      | None => mret true
      end
  end.

(** [IndexUpdateIter.update] *)
Definition IndexUpdateIter_update (fuel : nat) (it : IndexUpdateIter) : M bool :=
  note UpdateIterCalled;;
  done ← update_loop fuel files_update_iter;
  if done : bool then
    commit;;
    emit_commit it;;
    mret true
  else mret false.

(** [IndexUpdateIter.check_and_update]: the [for] loop drives
    [check_and_update_iter(file)] to its end. *)
Definition IndexUpdateIter_check_and_update (fuel : nat) (it : IndexUpdateIter)
    (file : option node) : M bool :=
  r ← pulls fuel it (check_and_update_iter file);
  mret (match r.2 with None => true | Some _ => false end).

(** [Index.check_and_update]; [it] is [self.update_iter]. *)
Definition Index_check_and_update (fuel : nat) (it : IndexUpdateIter) : M bool :=
  with_lock (IndexUpdateIter_check_and_update fuel it None).

(** [Index.check_and_update_iter] *)
Definition Index_check_and_update_iter : cau :=
  check_and_update_iter None.

(** [Index.file_moved]; [it] is [self.update_iter]. *)
Definition file_moved (fuel : nat) (it : IndexUpdateIter)
    (oldfile newfile : node) : M bool :=
  match kind oldfile with
  | IsFile =>
      update_file oldfile;;
      update_file newfile;;
      mret true
  | IsFolder =>
      update_file oldfile;;
      IndexUpdateIter_check_and_update fuel it (Some newfile)
  | IsOther => raise TypeError
  end.

End Remaining.

(** ** A reference pipeline

    [files.py], [pages.py], [links.py] and [tags.py] are not part of
    this file.  This instance of [Pipeline] follows what the
    specification says of them, reduced to the tables, and serves to run
    the facade on concrete caches. *)

Module Reference.

(** Modelled from the spec: the reserved page id of the root sentinel,
    which [pages.py] would define. *)
Definition ROOT_ID : Z := 0.

(** Modelled from the spec: the relation ABSOLUTE of a link, which
    [links.py] would define. *)
Definition HREF_REL_ABSOLUTE : Z := 0.

(** Modelled from the spec: the two values of [index_status], which
    [files.py] would define. *)
Definition STATUS_UPTODATE : Z := 0.
Definition STATUS_NEED_UPDATE : Z := 2.

(** Modelled from the spec: the schemas that the constructors of the
    indexers would create: files [(id, path, index_status)], pages
    [(id, name)] with a flag for content-less placeholders, links
    [(source, target, rel, names)] and a tags table. *)
Definition schemas : list (string * table) :=
  [ ("files", Table ["id"; "path"; "index_status"] [["path"]] []);
    ("pages", Table ["id"; "name"; "is_link_placeholder"] [["name"]] []);
    ("links", Table ["source"; "target"; "rel"; "names"] [] []);
    ("tags", Table ["id"; "name"] [["name"]] []) ].

(** Modelled from the spec: the constructors of [FilesIndexer],
    [PagesIndexer], [LinksIndexer] and [TagsIndexer], each of which
    creates its own table unless it is there already. *)
Definition create_schema (d : db) : db :=
  fold_right
    (fun '(n, tb) d' => match d' !! n with Some _ => d' | None => <[n := tb]> d' end)
    d schemas.

(** Helpers: a cell of a row, the rows of a table. *)
Definition set_cell (i : nat) (v : value) (r : row) : row := <[i := v]> r.

Definition on_table (t : string) (f : list row -> list row) (d : db) : db :=
  match d !! t with
  | Some tb => <[t := with_rows tb (f (rows tb))]> d
  | None => d
  end.

Definition rows_of (t : string) (d : db) : list row :=
  match d !! t with
  | Some tb => rows tb
  | None => []
  end.

(** [UPDATE files SET index_status = st WHERE <column i> = v] *)
Definition set_status (i : nat) (v : value) (st : Z) (d : db) : db :=
  on_table "files"
    (List.map (fun r => if sql_eq (cell i r) v then set_cell 2 (VInt st) r else r))
    d.

(** An id above all those of the rows. *)
Definition next_id (rs : list row) : Z :=
  1 + fold_right (fun r m => match cell 0 r with VInt n => Z.max n m | _ => m end) 0%Z rs.

(** Modelled from the spec: [FilesIndexer.update_file] and
    [FilesIndexer.update_folder], which [files.py] would give: the row
    is up to date afterwards. *)
Definition files_update (node_id : value) (d : db) : db :=
  set_status 0 node_id STATUS_UPTODATE d.

(** Modelled from the spec: [FilesIndexer.delete_file] and
    [FilesIndexer.delete_folder], which [files.py] would give: the row
    is gone afterwards. *)
Definition files_delete (node_id : value) (d : db) : db :=
  on_table "files" (List.filter (fun r => negb (sql_eq (cell 0 r) node_id))) d.

(** Modelled from the spec: [FilesIndexer.interactive_add_file], which
    [files.py] would give: a first row for the file. *)
Definition files_interactive_add_file (file : node) (d : db) : db :=
  on_table "files"
    (fun rs => (rs ++ [[VInt (next_id rs); VText (relpath file);
                         VInt STATUS_UPTODATE]])%list)
    d.

(** The first row flagged NEED_UPDATE, updated and its flag cleared. *)
Fixpoint update_first (rs : list row) : option (list row) :=
  match rs with
  | [] => None
  | r :: rs' =>
      if sql_eq (cell 2 r) (VInt STATUS_NEED_UPDATE)
      then Some (set_cell 2 (VInt STATUS_UPTODATE) r :: rs')
      else cons r <$> update_first rs'
  end.

(** Modelled from the spec: a pull on [FilesIndexer.update_iter()],
    which [files.py] would give.  The worklist is the rows flagged
    NEED_UPDATE at the time of the pull; one item is updated and its
    flag cleared, and the pass ends when no row is flagged. *)
Definition update_next (u : unit) (d : db) : option unit * db :=
  match d !! "files" with
  | Some tb =>
      match update_first (rows tb) with
      | Some rs => (Some tt, <["files" := with_rows tb rs]> d)
      | None => (None, d)
      end
  | None => (None, d)
  end.

(** Modelled from the spec: [FilesIndexChecker.queue_check], which
    [files.py] would give.  The queue holds the storage items to
    examine (all of [tree], or those under the node), each with the
    verdict of comparing it with its cache row. *)
Definition queue_check (tree : list (string * bool)) (file : option node)
    (d : db) : list (string * bool) * db :=
  (match file with
   | None => tree
   | Some n => List.filter (fun it => String.prefix (relpath n) (fst it)) tree
   end, d).

(** Modelled from the spec: a pull on [FilesIndexChecker.check_iter()],
    which [files.py] would give: one boolean for the item examined; a
    stale item is flagged NEED_UPDATE as it is examined. *)
Definition check_next (c : list (string * bool)) (d : db)
  : option (bool * list (string * bool)) * db :=
  match c with
  | [] => (None, d)
  | (p, stale) :: c' =>
      (Some (stale, c'),
       if stale then set_status 1 (VText p) STATUS_NEED_UPDATE d else d)
  end.

(** Whether a link targets the page id; whether a page row is a
    placeholder that no link targets. *)
Definition targeted (links : list row) (pid : value) : bool :=
  existsb (fun l => sql_eq (cell 1 l) pid) links.

Definition orphaned (links : list row) (p : row) : bool :=
  sql_eq (cell 2 p) (VInt 1) && negb (targeted links (cell 0 p)).

(** Modelled from the spec: [LinksIndexer.cleanup_placeholders(None)],
    which [links.py] would give: placeholder pages that no link targets
    are removed, and with them the links that start at them. *)
Definition cleanup_placeholders (d : db) : db :=
  let links := rows_of "links" d in
  let gone := List.filter (orphaned links) (rows_of "pages" d) in
  on_table "links"
    (List.filter (fun l => negb (existsb (fun p => sql_eq (cell 0 p) (cell 0 l)) gone)))
    (on_table "pages" (List.filter (fun p => negb (orphaned links p))) d).

(** Modelled from the spec: [PagesIndexer.insert_link_placeholder],
    which [pages.py] would give: one content-less page row under a new
    id, which is returned. *)
Definition insert_link_placeholder (path : Path) (d : db) : Z * db :=
  let pid := next_id (rows_of "pages" d) in
  (pid, on_table "pages" (fun rs => (rs ++ [[VInt pid; VText (name path); VInt 1]])%list) d).

(** The rows of the files table that are flagged NEED_UPDATE: what an
    update pass has still to do. *)
Definition flagged (d : db) : nat :=
  length (List.filter (fun r => sql_eq (cell 2 r) (VInt STATUS_NEED_UPDATE))
            (rows_of "files" d)).

(** Every page row of that name is a placeholder that no link targets. *)
Definition orphan (d : db) (n : string) : Prop :=
  forall rs p,
    Sql.select_where "pages" "name" (VText n) d = Ok rs ->
    In p rs -> orphaned (rows_of "links" d) p = true.

(** The reference pipeline over a storage tree [tree]: the items in
    storage, each with whether it disagrees with its cache row.  The
    signals of the files indexer have no listener that writes. *)
Definition pipeline (tree : list (string * bool)) : Pipeline :=
  Build_Pipeline
    ROOT_ID HREF_REL_ABSOLUTE
    create_schema
    (fun _ d => d)
    (fun node_id _ => files_update node_id)
    files_delete
    (fun node_id _ => files_update node_id)
    files_delete
    files_interactive_add_file
    unit tt update_next
    (list (string * bool)) (queue_check tree) check_next
    cleanup_placeholders
    insert_link_placeholder.

End Reference.

(** ** A sample notebook *)

Module Sample.

(** A notebook with two files; the first has changed on disk. *)
Definition tree : list (string * bool) := [("Home.txt", true); ("Notes.txt", false)].

Definition pipeline : Pipeline := Reference.pipeline tree.

(** An SQLite for the examples.  It knows words: letters, digits,
    underscores, dollar signs and bytes above 127, not beginning with a
    digit or a dollar sign.  A word other than a reserved word it reads
    back as the table of that name; every other name it takes for a
    syntax error, as SQLite does a name of two words.  It lists the
    tables in the order of the map, and its sqlite3 is one that does
    not commit before a statement that changes the schema. *)
Definition word_char (a : ascii) : bool :=
  let n := nat_of_ascii a in
  ((48 <=? n) && (n <=? 57) || (65 <=? n) && (n <=? 90)
   || (97 <=? n) && (n <=? 122) || (n =? 95) || (n =? 36) || (128 <=? n))%nat.

Definition not_first (a : ascii) : bool :=
  let n := nat_of_ascii a in ((48 <=? n) && (n <=? 57) || (n =? 36))%nat.

Definition reserved : list string :=
  ["add"; "all"; "alter"; "and"; "as"; "autoincrement"; "between"; "case";
   "check"; "collate"; "commit"; "constraint"; "create"; "default";
   "deferrable"; "delete"; "distinct"; "drop"; "else"; "escape"; "except";
   "exists"; "foreign"; "from"; "group"; "having"; "if"; "in"; "index";
   "insert"; "intersect"; "into"; "is"; "isnull"; "join"; "limit"; "not";
   "nothing"; "notnull"; "null"; "on"; "or"; "order"; "primary";
   "references"; "returning"; "select"; "set"; "table"; "then"; "to";
   "transaction"; "union"; "unique"; "update"; "using"; "values"; "when";
   "where"].

Definition word (t : string) : bool :=
  match t with
  | EmptyString => false
  | String a _ =>
      negb (not_first a) && forallb word_char (list_ascii_of_string t)
      && negb (existsb (String.eqb (Sql.lower_string t)) reserved)
  end.

Definition engine : Engine :=
  Build_Engine
    (fun t => if word t then Ok t else Raise OperationalError)
    (fun d => fst <$> map_to_list d)
    false.

Definition properties : table :=
  Table ["key"; "value"] [["key"]] [[VText "db_version"; VText "0.7"]].

(** An up-to-date cache of that notebook: page Home links to the page
    Ideas, which has no content yet. *)
Definition cache : db :=
  <["links" := Table ["source"; "target"; "rel"; "names"] []
                 [[VInt 1; VInt 2; VInt 0; VText "Ideas"]]]>
  (<["pages" := Table ["id"; "name"; "is_link_placeholder"] [["name"]]
                  [[VInt 1; VText "Home"; VInt 0]; [VInt 2; VText "Ideas"; VInt 1]]]>
  (<["files" := Table ["id"; "path"; "index_status"] [["path"]]
                  [[VInt 1; VText "Home.txt"; VInt 0];
                   [VInt 2; VText "Notes.txt"; VInt 0]]]>
  (<["zim_index" := properties]> ∅))).

Definition opened : state := State (Sqlite cache) (Some (Sqlite cache)) true [].

Definition iter : IndexUpdateIter := MkIter [Index_on_commit].

(** A cache written by an older version, whose files table was
    AUTOINCREMENT, in a file that also holds a table of notes whose
    name happens to begin like those of SQLite's own tables. *)
Definition old_cache : db :=
  <["sqlite_sequence" := Table ["name"; "seq"] [] [[VText "files"; VInt 2]]]>
  (<["SqliteNotes" := Table ["note"] [] [[VText "remember the milk"]]]>
  (<["files" := MkTable ["id"; "path"] [] true [[VInt 1; VText "Home.txt"]]]>
  (<["zim_index" := Table ["key"; "value"] [["key"]]
                      [[VText "db_version"; VText "0.6"]]]> ∅))).

(** The same file with one more table, which another program has made
    and given a name of two words. *)
Definition foreign_cache : db :=
  <["my notes" := Table ["note"] [] [[VText "call back"]]]> old_cache.

Definition on_disk : Index := MkIndex "/notebook/.zim/index.db".
Definition in_memory : Index := MkIndex ":memory:".

(** Before [__init__]: nothing connected, the file as it is on disk. *)
Definition unopened (file : image) : state := State (Sqlite ∅) (Some file) true [].

(** Driving [check_and_update_iter()] on the sample cache with four
    pulls. *)
Definition full_run : result (nat * option cau) * state :=
  @pulls pipeline 4 iter (check_and_update_iter None) opened.


(** Touching Draft, then Ideas, then (instead of Ideas) Plans. *)
Definition touched_draft : result unit * state :=
  @touch_current_page_placeholder pipeline (MkPath "Draft") opened.

Definition touched_ideas : result unit * state :=
  @touch_current_page_placeholder pipeline (MkPath "Ideas") touched_draft.2.

End Sample.

(** * Vocabulary of the statements *)

(** The database that the connection of a state sees. *)
Definition tables (s : state) : db :=
  match view s with
  | Sqlite d => d
  | _ => ∅
  end.

(** What [sqlite_master] lists are the tables of the database, each
    once. *)
Class Catalog (E : Engine) : Prop := {
  master_elem : forall d t, In t (master_tables d) <-> is_Some (d !! t);
  master_NoDup : forall d, List.NoDup (master_tables d)
}.

Section Vocabulary.
Context {E : Engine} {P : Pipeline}.

(** ** The property table and the rebuild *)

(** The schema that [_db_init] gives the property table. *)
Definition property_table (d : db) : Prop :=
  exists rs, d !! "zim_index" = Some (Table ["key"; "value"] [["key"]] rs).

(** The value that [get_property(key)] reads from [d]. *)
Definition lookup_property (key : string) (d : db) : result value :=
  match Sql.select_col_where "value" "zim_index" "key" (VText key) d with
  | Ok c => Ok (match c with r :: _ => cell 0 r | [] => VNull end)
  | Raise e => Raise e
  end.

(** Every name that the DROP loop of [_db_init] splices into its
    statement is read by SQLite as the table of that name. *)
Definition plain_names (d : db) : bool :=
  forallb (fun t => bool_decide (unquoted t = Ok t)) (user_tables d).

(** Whether [v] is the name of a table that the DROP loop drops: one of
    [d] whose name does not match [LIKE "sqlite%"] (and which is
    AUTOINCREMENT, where only those count). *)
Definition dropped (d : db) (only_autoinc : bool) (v : value) : bool :=
  match v with
  | VText n =>
      match d !! n with
      | Some tb => negb (Sql.like_sqlite n) && implb only_autoinc (autoinc tb)
      | None => false
      end
  | _ => false
  end.

(** The tables that [_db_init] leaves in place: those that
    [name NOT LIKE "sqlite%"] hides from its DROP loop.  Where SQLite
    keeps notes about tables, the rows about the dropped ones are
    gone. *)
Definition kept_tables (d : db) : db :=
  map_imap
    (fun x tb =>
       if Sql.like_sqlite x
       then Some (with_rows tb (Sql.notes_left (dropped d) x tb))
       else None)
    d.

(** The property table as [_db_init] writes it. *)
Definition fresh_properties : table :=
  Table ["key"; "value"] [["key"]] [[VText "db_version"; VText DB_VERSION]].

(** The cache after [_db_init]. *)
Definition rebuilt (d : db) : db :=
  create_schema (<["zim_index" := fresh_properties]> (kept_tables d)).

(** The DROP loop of [_db_init] on the tables [l], as long as no
    statement fails. *)
Definition drop_all (l : list string) (d : db) : db :=
  fold_left
    (fun d' t => match Sql.drop_table t d' with Ok d'' => d'' | Raise _ => d' end)
    l d.

(** What a DROP loop that has failed leaves of [d]: no table that was
    not there, every table whose name SQLite refuses to compile, and
    the property table either gone or as it was. *)
Definition left_over (d d' : db) : Prop :=
  (forall t, is_Some (d' !! t) -> is_Some (d !! t)) /\
  (forall t, unquoted t = Raise OperationalError ->
             is_Some (d !! t) -> is_Some (d' !! t)) /\
  (d' !! "zim_index" = None \/ d' !! "zim_index" = d !! "zim_index").


(** Whether [v] is the name of one of the tables [l] of [d]. *)
Definition gone (l : list string) (d : db) (only_autoinc : bool) (v : value)
  : bool :=
  existsb
    (fun t =>
       match d !! t with
       | Some tb => implb only_autoinc (autoinc tb) && sql_eq v (VText t)
       | None => false
       end)
    l.

(** ** Traces of the update iterator *)

(** What the generator does last. *)
Definition final_events (it : IndexUpdateIter) : list event :=
  Commit :: Emit TheUpdateIter "commit"
    :: List.map (fun _ => Emit TheIndex "changed") (commit_handlers it).

(** The events of the two loops: pulls on the checker and on the update
    pass. *)
Definition is_pull (e : event) : bool :=
  match e with
  | CheckerPulled _ | UpdateIterCalled | UpdatePulled _ => true
  | _ => false
  end.

(** The pulls of a run, item by item: [None] is an item found up to
    date, [Some k] an item found out of date together with the update
    pass of [k] items that follows it at once. *)
Definition pass (k : nat) : list event :=
  repeat (UpdatePulled true) k ++ [UpdatePulled false].

Definition block (o : option nat) : list event :=
  match o with
  | None => [CheckerPulled (Some false)]
  | Some k => CheckerPulled (Some true) :: UpdateIterCalled :: pass k
  end.

Definition blocks (bs : list (option nat)) : list event :=
  concat (List.map block bs).

Definition markers (bs : list (option nat)) : nat :=
  list_sum (List.map (fun o => match o with None => 1 | Some k => S k end) bs).

Definition closing (it : IndexUpdateIter) : list event :=
  CheckerPulled None :: final_events it.

(** The reading of the protocol in which checking comes first and
    updating second: once an update pass has been started the checker
    is not pulled for a further item. *)
Definition check_then_update (t : list event) : Prop :=
  forall t1 t2 b,
    t = t1 ++ UpdateIterCalled :: t2 -> ~ In (CheckerPulled (Some b)) t2.

(** What is still to come, and how many markers, when a run that is
    suspended at [g] is driven to its end. *)
Definition rest_of (it : IndexUpdateIter) (g : cau) (t : list event) (m : nat)
  : Prop :=
  match g with
  | CauNew _ | CauChecked _ false =>
      exists bs, t = blocks bs ++ closing it /\ m = markers bs
  | CauChecked _ true =>
      exists k bs, t = UpdateIterCalled :: pass k ++ blocks bs ++ closing it
                   /\ m = (k + markers bs)%nat
  | CauUpdating _ _ =>
      exists k bs, t = pass k ++ blocks bs ++ closing it
                   /\ m = (k + markers bs)%nat
  | CauDone => False
  end.

(** A computation that gives the next marker, and [n] pulls after it. *)
Definition then_pulls (n : nat) (it : IndexUpdateIter) (k : M (option cau))
  : M (nat * option cau) :=
  r ← k;
  match r with
  | Some g' => r' ← pulls n it g'; mret (S r'.1, r'.2)
  | None => mret (O, None)
  end.

Definition ends_well (s s' : state) (shape : list event -> Prop) : Prop :=
  exists t, trace s' = trace s ++ t /\ shape t /\
            store s' = Some (view s') /\ removable s' = removable s.

Definition run_shape (it : IndexUpdateIter) (n : nat) : Prop :=
  forall g s s' d m,
    view s = Sqlite d -> g <> CauDone ->
    pulls n it g s = (Ok (m, None), s') ->
    ends_well s s' (fun t => rest_of it g t m).

Definition halts (it : IndexUpdateIter) (k : M (option cau)) (s : state) : Prop :=
  exists n m s', then_pulls n it k s = (Ok (m, None), s').

(** The two sibling generators are finite: each pull that gives an item
    brings the generator closer to its end. *)
Class Finite := {
  chk_size : checker -> nat;
  upd_size : updater -> db -> nat;
  chk_decr : forall c d b c' d',
    check_next c d = (Some (b, c'), d') -> (chk_size c' < chk_size c)%nat;
  upd_decr : forall u d u' d',
    update_next u d = (Some u', d') -> (upd_size u' d' < upd_size u d)%nat
}.

(** ** Placeholders and their anchors *)

(** The links whose source is the root sentinel. *)
Definition anchors (d : db) : list row :=
  match Sql.select_where "links" "source" (VInt ROOT_ID) d with
  | Ok rs => rs
  | Raise _ => []
  end.

(** Whether the pages table has a row for the name. *)
Definition has_page (d : db) (n : string) : bool :=
  match Sql.select_where "pages" "name" (VText n) d with
  | Ok (_ :: _) => true
  | _ => false
  end.

(** The cache once the first statement of
    [touch_current_page_placeholder] has run. *)
Definition without_anchors (d : db) : db :=
  match Sql.delete_where "links" "source" (VInt ROOT_ID) d with
  | Ok d' => d'
  | Raise _ => d
  end.

(** The row that anchors the placeholder [pid] of [path]. *)
Definition anchor_to (path : Path) (pid : Z) : row :=
  [VInt ROOT_ID; VInt pid; VInt HREF_REL_ABSOLUTE; VText (name path)].

(** The links table: its four columns, and UNIQUE constraints (if any)
    that all involve the source. *)
Definition links_table (lt : table) : Prop :=
  cols lt = ["source"; "target"; "rel"; "names"] /\
  forallb (existsb (String.eqb "source")) (uniq lt) = true.

(** What the facade relies on from the two indexers that
    [touch_current_page_placeholder] calls: cleanup removes link rows
    and page rows and adds none, and leaves no orphaned placeholder;
    placeholder insertion adds page rows for the path only. *)
Class Placeholders := {
  (** a page name whose rows are placeholders that no link targets *)
  orphan_page : db -> string -> Prop;
  cleanup_links : forall d lt,
    d !! "links" = Some lt ->
    exists rs, cleanup_placeholders d !! "links" = Some (with_rows lt rs) /\
               forall r, In r rs -> In r (rows lt);
  cleanup_pages : forall d pt,
    d !! "pages" = Some pt ->
    exists rs, cleanup_placeholders d !! "pages" = Some (with_rows pt rs);
  cleanup_orphan : forall d n,
    orphan_page d n -> has_page (cleanup_placeholders d) n = false;
  insert_links : forall path d,
    (insert_link_placeholder path d).2 !! "links" = d !! "links";
  insert_pages : forall path d pt,
    d !! "pages" = Some pt ->
    (exists rs, (insert_link_placeholder path d).2 !! "pages"
                = Some (with_rows pt rs)) /\
    forall n, n <> name path ->
              has_page (insert_link_placeholder path d).2 n = has_page d n
}.

End Vocabulary.

Arguments Finite P : clear implicits.
Arguments Placeholders P : clear implicits.

(** ** More vocabulary *)

(** The keys of the property table are pairwise distinct. *)
Definition keys_distinct (d : db) : Prop :=
  forall tb, d !! "zim_index" = Some tb ->
             List.NoDup (List.map (cell 0) (rows tb)).


Section MoreVocabulary.
Context {P : Pipeline}.

(** The entry point of the files indexer that [update_file] calls for a
    node, given the rows that the lookup of its path returned; [None]
    where [update_file] has nothing to call. *)
Definition update_entry (file : node) (c : list row) : option (db -> db) :=
  match c, kind file with
  | r :: _, IsFile =>
      Some (if exists_ file then files_update_file (cell 0 r) file
            else files_delete_file (cell 0 r))
  | r :: _, IsFolder =>
      Some (if exists_ file then files_update_folder (cell 0 r) file
            else files_delete_folder (cell 0 r))
  | [], IsFile =>
      if exists_ file then Some (files_interactive_add_file file) else None
  | _, _ => None
  end.

(** The tables after a successful [update_file] that called [op]. *)
Definition updated (op : db -> db) (d : db) : db :=
  files_listeners "finish-update" (op (files_listeners "start-update" d)).

(** What a successful [update_file] adds to the trace. *)
Definition update_events : list event :=
  [Emit TheFilesIndexer "start-update"; Emit TheFilesIndexer "finish-update";
   Commit; Emit TheIndex "changed"].

(** The state in which a successful [update_file] that called [op]
    leaves [s], whose connection saw [d]. *)
Definition after_update (op : db -> db) (s : state) (d : db) : state :=
  State (Sqlite (updated op d)) (Some (Sqlite (updated op d))) (removable s)
    (trace s ++ update_events).

End MoreVocabulary.


Section IterVocabulary.
Context {P : Pipeline}.

(** What is still to come when [__iter__], suspended at [g], is driven
    to its end after [m] more markers. *)
Definition iter_rest (it : IndexUpdateIter) (g : iter_pc) (m : nat)
  : list event :=
  match g with
  | IterNew => UpdateIterCalled :: pass m ++ final_events it
  | IterUpdating _ => pass m ++ final_events it
  | IterDone => []
  end.

(** A contract of the files indexer: on caches that satisfy [inv]
    (which its pulls preserve) the update pass ends only when no row of
    the files table is flagged with [st]. *)
Definition pass_ends_clean (st : Z) (inv : db -> Prop) : Prop :=
  (forall u d, inv d -> inv (update_next u d).2) /\
  (forall u d d',
      inv d -> update_next u d = (None, d') ->
      Sql.select_where "files" "index_status" (VInt st) d' = Ok []).

(** The tables after [touch_current_page_placeholder(path)]. *)
Definition touched (path : Path) (d : db) : db :=
  let cleaned := cleanup_placeholders (without_anchors d) in
  if has_page cleaned (name path) then cleaned
  else
    let '(pid, d') := insert_link_placeholder path cleaned in
    match Sql.insert_named "links" ["source"; "target"; "rel"; "names"]
            (anchor_to path pid) d' with
    | Ok d'' => d''
    | Raise _ => d'
    end.

End IterVocabulary.


(** The files table has the columns that the reference pipeline gives
    it. *)
Definition reference_files (d : db) : Prop :=
  exists tb, d !! "files" = Some tb /\ cols tb = ["id"; "path"; "index_status"].

Module Cases.

(** Nodes of the sample notebook: a file that is indexed and exists, one
    that is indexed and is gone, one that is new, a new folder, and
    something that is neither file nor folder. *)
Definition home : node := Node IsFile "Home.txt" true.
Definition notes_gone : node := Node IsFile "Notes.txt" false.
Definition archive : node := Node IsFile "Archive.txt" true.
Definition projects : node := Node IsFolder "Projects" true.
Definition socket : node := Node IsOther "Archive.txt" true.

(** The older cache behind a connection. *)
Definition old_opened : state :=
  State (Sqlite Sample.old_cache) (Some (Sqlite Sample.old_cache)) true [].

(** [update()] on the sample cache with the first file flagged. *)
Definition flagged_cache : db :=
  Reference.set_status 1 (VText "Home.txt") Reference.STATUS_NEED_UPDATE Sample.cache.

Definition flagged_opened : state :=
  State (Sqlite flagged_cache) (Some (Sqlite Sample.cache)) true [].

Definition updated_run : result bool * state :=
  @IndexUpdateIter_update Sample.pipeline 3 Sample.iter flagged_opened.

(** The sample cache with a folder Journal indexed as well; the folder
    has been renamed to Diary. *)
Definition journal_cache : db :=
  <["files" := Table ["id"; "path"; "index_status"] [["path"]]
                 [[VInt 1; VText "Home.txt"; VInt 0];
                  [VInt 2; VText "Notes.txt"; VInt 0];
                  [VInt 3; VText "Journal"; VInt 0]]]> Sample.cache.

Definition journal_opened : state :=
  State (Sqlite journal_cache) (Some (Sqlite journal_cache)) true [].

(** Before [__init__], where no file exists yet. *)
Definition no_file : state := State (Sqlite ∅) None true [].

Definition journal_gone : node := Node IsFolder "Journal" false.
Definition diary : node := Node IsFolder "Diary" true.

End Cases.

(** * Properties *)

(** ** Running the monad *)

Lemma bind_ok {A B} (m : M A) (f : A -> M B) (s s1 : state) (a : A) :
  m s = (Ok a, s1) -> (m ≫= f) s = f a s1.
Proof. intros H. unfold mbind, M_bind. now rewrite H. Qed.

Lemma bind_raise {A B} (m : M A) (f : A -> M B) (s s1 : state) (e : exn) :
  m s = (Raise e, s1) -> (m ≫= f) s = (Raise e, s1).
Proof. intros H. unfold mbind, M_bind. now rewrite H. Qed.

Lemma call_run {A} (f : db -> A * db) (s : state) (d : db) :
  view s = Sqlite d ->
  call f s = (Ok (f d).1, set_view (Sqlite (f d).2) s).
Proof. intros H. unfold call. rewrite H. now destruct (f d). Qed.

Lemma query_run {A} (f : db -> result A) (s : state) (d : db) :
  view s = Sqlite d ->
  query f s = (f d, s).
Proof. intros H. unfold query. rewrite H. now destruct (f d). Qed.

Lemma run_eq {A} (p : result A * state) (r : result A) :
  p.1 = r -> p = (r, p.2).
Proof. destruct p as [r' s]. simpl. now intros ->. Qed.

Lemma state_eta (s : state) :
  State (view s) (store s) (removable s) (trace s) = s.
Proof. now destruct s. Qed.

(** ** The update iterator: one commit, at the end *)

Section UpdateIterFacts.
Context {P : Pipeline}.

Lemma handlers_run (hs : list handler) (s : state) :
  for_each hs (fun h => match h with Index_on_commit => on_commit end) s
  = (Ok tt, State (view s) (store s) (removable s)
              (trace s ++ List.map (fun _ => Emit TheIndex "changed") hs)).
Proof.
  revert s. induction hs as [|[] hs IH]; intros s; simpl.
  - unfold mret, M_ret. now rewrite app_nil_r, state_eta.
  - erewrite bind_ok by reflexivity. rewrite IH. simpl.
    now rewrite <- app_assoc.
Qed.

Lemma finish_run (it : IndexUpdateIter) (s : state) (d : db) :
  view s = Sqlite d ->
  (commit;; emit_commit it;; mret (@None cau)) s
  = (Ok None, State (Sqlite d) (Some (Sqlite d)) (removable s)
                (trace s ++ final_events it)).
Proof.
  intros Hv. erewrite bind_ok by reflexivity.
  unfold emit_commit. erewrite bind_ok.
  2:{ erewrite bind_ok by reflexivity. apply handlers_run. }
  simpl. rewrite Hv. unfold mret, M_ret, final_events.
  now rewrite <- !app_assoc.
Qed.

Lemma resume_check_run (it : IndexUpdateIter) (c : checker) (s : state) (d : db) :
  view s = Sqlite d ->
  resume_check it c s =
  match check_next c d with
  | (Some (b, c'), d') =>
      (Ok (Some (CauChecked c' b)),
       State (Sqlite d') (store s) (removable s)
         (trace s ++ [CheckerPulled (Some b)]))
  | (None, d') =>
      (Ok None,
       State (Sqlite d') (Some (Sqlite d')) (removable s)
         (trace s ++ CheckerPulled None :: final_events it))
  end.
Proof.
  intros Hv. unfold resume_check, pull_check.
  erewrite bind_ok.
  2:{ erewrite bind_ok by (apply call_run; exact Hv).
      erewrite bind_ok by reflexivity. reflexivity. }
  destruct (check_next c d) as [[[b c']|] d']; simpl.
  - reflexivity.
  - erewrite finish_run by reflexivity. simpl.
    now rewrite <- app_assoc.
Qed.

Lemma resume_update_run (it : IndexUpdateIter) (c : checker) (u : updater)
    (s : state) (d : db) :
  view s = Sqlite d ->
  resume_update it c u s =
  match update_next u d with
  | (Some u', d') =>
      (Ok (Some (CauUpdating c u')),
       State (Sqlite d') (store s) (removable s)
         (trace s ++ [UpdatePulled true]))
  | (None, d') =>
      resume_check it c
        (State (Sqlite d') (store s) (removable s)
           (trace s ++ [UpdatePulled false]))
  end.
Proof.
  intros Hv. unfold resume_update, pull_update.
  erewrite bind_ok.
  2:{ erewrite bind_ok by (apply call_run; exact Hv).
      erewrite bind_ok by reflexivity. reflexivity. }
  destruct (update_next u d) as [[u'|] d']; reflexivity.
Qed.

End UpdateIterFacts.

(** ** The property table *)

Lemma sql_eq_sym (a b : value) : sql_eq a b = sql_eq b a.
Proof.
  destruct a, b; simpl; auto using Z.eqb_sym, String.eqb_sym.
Qed.

Lemma filter_none {A} (f : A -> bool) (l : list A) :
  (forall x, In x l -> f x = false) -> List.filter f l = [].
Proof.
  induction l as [|x l IH]; intros H; simpl; [reflexivity|].
  rewrite (H x) by now left. apply IH. intros y Hy. apply H. now right.
Qed.

Lemma col_index_In (c : string) (cs : list string) :
  In c cs -> is_Some (col_index c cs).
Proof.
  induction cs as [|c' cs IH]; intros Hin; [contradiction|]. simpl.
  destruct (String.eqb_spec c c') as [|Hne]; [eauto|].
  destruct Hin as [->|Hin]; [contradiction|].
  destruct (IH Hin) as [j ->]. simpl. eauto.
Qed.

Lemma filter_filter_negb {A} (f g : A -> bool) (l : list A) :
  (forall x, f x = g x) ->
  List.filter f (List.filter (fun x => negb (g x)) l) = [].
Proof.
  intros Hfg. induction l as [|x l IH]; simpl; [reflexivity|].
  destruct (g x) eqn:Hg; simpl; [exact IH|].
  rewrite Hfg, Hg. exact IH.
Qed.

Lemma filter_filter_implied {A} (f g : A -> bool) (l : list A) :
  (forall x, f x = true -> g x = true) ->
  List.filter f (List.filter g l) = List.filter f l.
Proof.
  intros Hfg. induction l as [|x l IH]; simpl; [reflexivity|].
  destruct (g x) eqn:Hg; simpl.
  - destruct (f x); now rewrite IH.
  - destruct (f x) eqn:Hf; [|exact IH].
    apply Hfg in Hf. congruence.
Qed.

Lemma NoDup_map_filter {A B} (f : A -> B) (g : A -> bool) (l : list A) :
  List.NoDup (List.map f l) -> List.NoDup (List.map f (List.filter g l)).
Proof.
  induction l as [|x l IH]; simpl; intros Hnd; [constructor|].
  inversion Hnd as [|? ? Hx Hl]; subst.
  destruct (g x); simpl; [|now apply IH].
  constructor; [|now apply IH].
  intros Hin. apply Hx. apply in_map_iff in Hin as (y & Hy & Hin).
  apply filter_In in Hin as [Hin _]. apply in_map_iff. eauto.
Qed.

Lemma NoDup_snoc {A} (l : list A) (x : A) :
  List.NoDup l -> ~ In x l -> List.NoDup (l ++ [x]).
Proof.
  induction l as [|y l IH]; simpl; intros Hnd Hx.
  - constructor; [tauto|constructor].
  - inversion Hnd as [|? ? Hy Hl]; subst.
    constructor.
    + rewrite in_app_iff. simpl. intros [?|[?|[]]]; [tauto|subst; tauto].
    + apply IH; tauto.
Qed.

Lemma sql_eq_text (k : string) (v : value) :
  sql_eq (VText k) v = true <-> v = VText k.
Proof.
  destruct v; simpl; split; try discriminate.
  - intros H. apply String.eqb_eq in H. now subst.
  - intros [= ->]. apply String.eqb_refl.
Qed.

Section PropertyStore.

Lemma get_property_run (key : string) (s : state) (d : db) :
  view s = Sqlite d -> get_property key s = (lookup_property key d, s).
Proof.
  intros Hv. unfold get_property, lookup_property, mbind, M_bind.
  rewrite (query_run _ s d Hv).
  now destruct (Sql.select_col_where _ _ _ _ d).
Qed.

Lemma with_lock_run {A} (m : M A) (s s1 : state) (r : result A) :
  m (record Acquire s) = (r, s1) ->
  with_lock m s = (r, record Release s1).
Proof.
  intros Hm. unfold with_lock, try_finally, note, mbind, M_bind.
  now rewrite Hm.
Qed.

(** The statement that [set_property] executes. *)
Lemma set_property_statement (key : string) (v : pyvalue) :
  exists f,
    set_property key v = with_lock (execute f) /\
    forall d rs,
      d !! "zim_index" = Some (Table ["key"; "value"] [["key"]] rs) ->
      f d = match stored_as_text v with
            | Ok x =>
                Ok (<["zim_index" :=
                       Table ["key"; "value"] [["key"]]
                         (List.filter (fun r => negb (sql_eq (VText key) (cell 0 r))) rs
                          ++ match v with PNone => [] | _ => [[VText key; x]] end)]> d)
            | Raise e => Raise e
            end.
Proof.
  assert (Hdel : forall d rs,
             d !! "zim_index" = Some (Table ["key"; "value"] [["key"]] rs) ->
             Sql.delete_where "zim_index" "key" (VText key) d
             = Ok (<["zim_index" :=
                      Table ["key"; "value"] [["key"]]
                        (List.filter (fun r => negb (sql_eq (VText key) (cell 0 r))) rs
                         ++ [])]> d)).
  { intros d rs Hd. unfold Sql.delete_where. rewrite Hd. simpl.
    unfold with_rows. simpl. rewrite app_nil_r. do 3 f_equal.
    apply List.filter_ext. intros r. now rewrite sql_eq_sym. }
  assert (Hput : forall d rs x,
             d !! "zim_index" = Some (Table ["key"; "value"] [["key"]] rs) ->
             Sql.insert_or_replace "zim_index" [VText key; x] d
             = Ok (<["zim_index" :=
                      Table ["key"; "value"] [["key"]]
                        (List.filter (fun r => negb (sql_eq (VText key) (cell 0 r))) rs
                         ++ [[VText key; x]])]> d)).
  { intros d rs x Hd. unfold Sql.insert_or_replace. rewrite Hd. simpl.
    unfold with_rows. simpl. do 4 f_equal.
    apply List.filter_ext. intros r.
    unfold Sql.conflicts, Sql.agree_on. simpl.
    now rewrite andb_true_r, orb_false_r. }
  destruct v; (eexists; split; [reflexivity|]); intros d rs Hd;
    try (apply (Hdel d rs Hd));
    unfold Sql.insert_or_replace_bound; rewrite Hd; simpl;
    try (apply (Hput d rs _ Hd)); try reflexivity.
  destruct (_ && _)%bool; [apply (Hput d rs _ Hd)|reflexivity].
Qed.

Lemma set_property_run (key : string) (v : pyvalue) (s : state) (d : db)
    (rs : list row) (x : value) :
  view s = Sqlite d ->
  d !! "zim_index" = Some (Table ["key"; "value"] [["key"]] rs) ->
  stored_as_text v = Ok x ->
  set_property key v s
  = (Ok tt,
     State
       (Sqlite (<["zim_index" :=
                    Table ["key"; "value"] [["key"]]
                      (List.filter (fun r => negb (sql_eq (VText key) (cell 0 r))) rs
                       ++ match v with PNone => [] | _ => [[VText key; x]] end)]> d))
       (store s) (removable s) (trace s ++ [Acquire; Release])).
Proof.
  intros Hv Hd Hx.
  destruct (set_property_statement key v) as (f & -> & Hf).
  specialize (Hf d rs Hd). rewrite Hx in Hf.
  erewrite with_lock_run.
  2:{ unfold execute. simpl. rewrite Hv, Hf. reflexivity. }
  unfold record, set_view. simpl. now rewrite <- app_assoc.
Qed.

Lemma set_property_refused (key : string) (v : pyvalue) (s : state) (d : db)
    (e : exn) :
  view s = Sqlite d -> property_table d ->
  stored_as_text v = Raise e ->
  set_property key v s
  = (Raise e, State (view s) (store s) (removable s)
                (trace s ++ [Acquire; Release])).
Proof.
  intros Hv [rs Hd] Hx.
  destruct (set_property_statement key v) as (f & -> & Hf).
  specialize (Hf d rs Hd). rewrite Hx in Hf.
  erewrite with_lock_run.
  2:{ unfold execute. simpl. rewrite Hv, Hf. reflexivity. }
  unfold record. simpl. now rewrite <- app_assoc.
Qed.

Lemma rows_of_key (k : string) (rs new : list row) :
  List.filter (fun r => sql_eq (cell 0 r) (VText k))
    (List.filter (fun r => negb (sql_eq (VText k) (cell 0 r))) rs ++ new)
  = List.filter (fun r => sql_eq (cell 0 r) (VText k)) new.
Proof.
  rewrite List.filter_app, filter_filter_negb by (intros r; apply sql_eq_sym).
  reflexivity.
Qed.


End PropertyStore.

(** ** The shape of a run of the update iterator *)

Section UpdateIterShape.
Context {P : Pipeline}.

Lemma then_pulls_some (n : nat) (it : IndexUpdateIter) (k : M (option cau))
    (s s1 s' : state) (g : cau) (m : nat) :
  k s = (Ok (Some g), s1) ->
  then_pulls n it k s = (Ok (m, None), s') ->
  exists m', m = S m' /\ pulls n it g s1 = (Ok (m', None), s').
Proof.
  intros Hk. unfold then_pulls. erewrite bind_ok by exact Hk.
  unfold mbind, M_bind, mret, M_ret.
  destruct (pulls n it g s1) as [[[m' e]|e] s2]; simpl; [|discriminate].
  intros [= <- -> <-]. eauto.
Qed.

Lemma then_pulls_none (n : nat) (it : IndexUpdateIter) (k : M (option cau))
    (s s1 s' : state) (m : nat) :
  k s = (Ok None, s1) ->
  then_pulls n it k s = (Ok (m, None), s') ->
  m = O /\ s' = s1.
Proof.
  intros Hk. unfold then_pulls. erewrite bind_ok by exact Hk.
  unfold mret, M_ret. now intros [= <- <-].
Qed.

Lemma then_pulls_eq (n : nat) (it : IndexUpdateIter) (k k' : M (option cau))
    (s s1 : state) :
  k s = k' s1 -> then_pulls n it k s = then_pulls n it k' s1.
Proof. intros H. unfold then_pulls, mbind, M_bind. now rewrite H. Qed.

Lemma check_shape (it : IndexUpdateIter) (n : nat) (c : checker)
    (s s' : state) (d : db) (m : nat) :
  run_shape it n ->
  view s = Sqlite d ->
  then_pulls n it (resume_check it c) s = (Ok (m, None), s') ->
  ends_well s s'
    (fun t => exists bs, t = blocks bs ++ closing it /\ m = markers bs).
Proof.
  intros IH Hv Hrun.
  pose proof (resume_check_run it c s d Hv) as Hc.
  destruct (check_next c d) as [[[b c']|] d'].
  - destruct (then_pulls_some _ _ _ _ _ _ _ _ Hc Hrun) as (m' & -> & Hp).
    eapply IH in Hp; [|reflexivity|discriminate].
    destruct Hp as (t & Ht & Hshape & Hst & Hrm). simpl in *.
    exists (CheckerPulled (Some b) :: t). rewrite Ht, <- app_assoc.
    repeat split; auto.
    destruct b.
    + destruct Hshape as (k & bs & -> & ->). exists (Some k :: bs).
      unfold blocks. simpl. rewrite <- !app_assoc. split; reflexivity.
    + destruct Hshape as (bs & -> & ->). exists (None :: bs).
      split; reflexivity.
  - destruct (then_pulls_none _ _ _ _ _ _ _ Hc Hrun) as (-> & ->). simpl.
    exists (closing it). repeat split; auto. exists []. split; reflexivity.
Qed.

Lemma update_shape (it : IndexUpdateIter) (n : nat) (c : checker) (u : updater)
    (s s' : state) (d : db) (m : nat) :
  run_shape it n ->
  view s = Sqlite d ->
  then_pulls n it (resume_update it c u) s = (Ok (m, None), s') ->
  ends_well s s'
    (fun t => exists k bs, t = pass k ++ blocks bs ++ closing it
                           /\ m = (k + markers bs)%nat).
Proof.
  intros IH Hv Hrun.
  pose proof (resume_update_run it c u s d Hv) as Hu.
  destruct (update_next u d) as [[u'|] d'].
  - destruct (then_pulls_some _ _ _ _ _ _ _ _ Hu Hrun) as (m' & -> & Hp).
    eapply IH in Hp; [|reflexivity|discriminate].
    destruct Hp as (t & Ht & (k & bs & -> & ->) & Hst & Hrm). simpl in *.
    eexists. rewrite Ht, <- app_assoc. repeat split; auto.
    exists (S k), bs. split; reflexivity.
  - rewrite (then_pulls_eq _ _ _ _ _ _ Hu) in Hrun.
    eapply check_shape in Hrun; [|exact IH|reflexivity].
    destruct Hrun as (t & Ht & (bs & -> & ->) & Hst & Hrm). simpl in *.
    eexists. rewrite Ht, <- app_assoc. repeat split; auto.
    exists O, bs. split; reflexivity.
Qed.

Lemma pulls_shape (it : IndexUpdateIter) (n : nat) : run_shape it n.
Proof.
  induction n as [|n IH]; intros g s s' d m Hv Hg Hrun.
  - discriminate.
  - change (pulls (S n) it g s) with (then_pulls n it (cau_next it g) s) in Hrun.
    destruct g as [file|c [|]|c u|]; simpl in Hrun |- *.
    + rewrite (then_pulls_eq n it _ (resume_check it (queue_check file d).1) s
                 (set_view (Sqlite (queue_check file d).2) s)) in Hrun
        by (apply bind_ok, call_run, Hv).
      eapply check_shape in Hrun; [|exact IH|reflexivity].
      destruct Hrun as (t & Ht & Hs & Hst & Hrm). exists t. auto.
    + rewrite (then_pulls_eq n it _ (resume_update it c files_update_iter) s
                 (record UpdateIterCalled s)) in Hrun
        by (apply (bind_ok (note UpdateIterCalled)
                     (fun _ => resume_update it c files_update_iter)
                     s (record UpdateIterCalled s) tt); reflexivity).
      eapply update_shape in Hrun; [|exact IH|exact Hv].
      destruct Hrun as (t & Ht & (k & bs & -> & ->) & Hst & Hrm). simpl in *.
      eexists. rewrite Ht, <- app_assoc. repeat split; auto.
      exists k, bs. split; reflexivity.
    + eapply check_shape in Hrun; [|exact IH|exact Hv]. exact Hrun.
    + eapply update_shape in Hrun; [|exact IH|exact Hv]. exact Hrun.
    + contradiction.
Qed.

(** As long as the pulls give markers nothing but pulls on the two
    sibling generators has happened: the store is as it was. *)
Lemma cau_next_marker (it : IndexUpdateIter) (g g' : cau) (s s' : state) (d : db) :
  view s = Sqlite d ->
  cau_next it g s = (Ok (Some g'), s') ->
  (exists d', view s' = Sqlite d') /\ store s' = store s /\
  removable s' = removable s /\
  exists t, trace s' = trace s ++ t /\ forallb is_pull t = true.
Proof.
  intros Hv Hn.
  assert (Hchk : forall c s0 d0, view s0 = Sqlite d0 ->
            resume_check it c s0 = (Ok (Some g'), s') ->
            (exists d', view s' = Sqlite d') /\ store s' = store s0 /\
            removable s' = removable s0 /\
            exists t, trace s' = trace s0 ++ t /\ forallb is_pull t = true).
  { intros c s0 d0 Hv0 Hc. rewrite (resume_check_run it c s0 d0 Hv0) in Hc.
    destruct (check_next c d0) as [[[b c']|] d']; [|discriminate].
    injection Hc as <- <-. simpl. eauto 10. }
  assert (Hupd : forall c u s0 d0, view s0 = Sqlite d0 ->
            resume_update it c u s0 = (Ok (Some g'), s') ->
            (exists d', view s' = Sqlite d') /\ store s' = store s0 /\
            removable s' = removable s0 /\
            exists t, trace s' = trace s0 ++ t /\ forallb is_pull t = true).
  { intros c u s0 d0 Hv0 Hu. rewrite (resume_update_run it c u s0 d0 Hv0) in Hu.
    destruct (update_next u d0) as [[u'|] d'].
    - injection Hu as <- <-. simpl. eauto 10.
    - eapply Hchk in Hu; [|reflexivity]. simpl in Hu.
      destruct Hu as (Hd & Hst & Hrm & t & Ht & Hq).
      repeat split; auto. eexists. rewrite Ht, <- app_assoc. split; [reflexivity|].
      exact Hq. }
  destruct g as [file|c [|]|c u|]; simpl in Hn.
  - rewrite (bind_ok _ _ _ _ _ (call_run (queue_check file) s d Hv)) in Hn.
    eapply Hchk in Hn; [|reflexivity]. exact Hn.
  - erewrite (bind_ok (note UpdateIterCalled)) in Hn by reflexivity.
    eapply Hupd in Hn; [|exact Hv]. simpl in Hn.
    destruct Hn as (Hd & Hst & Hrm & t & Ht & Hq).
    repeat split; auto. eexists. rewrite Ht, <- app_assoc. split; [reflexivity|].
    exact Hq.
  - eapply Hchk in Hn; [|exact Hv]. exact Hn.
  - eapply Hupd in Hn; [|exact Hv]. exact Hn.
  - discriminate.
Qed.

Lemma pulls_markers (it : IndexUpdateIter) (n : nat) :
  forall g g' s s' d m,
    view s = Sqlite d ->
    pulls n it g s = (Ok (m, Some g'), s') ->
    m = n /\ store s' = store s /\ removable s' = removable s /\
    (exists d', view s' = Sqlite d') /\
    exists t, trace s' = trace s ++ t /\ forallb is_pull t = true.
Proof.
  induction n as [|n IH]; intros g g' s s' d m Hv Hrun.
  - injection Hrun as <- <- <-. repeat split; eauto.
    exists []. now rewrite app_nil_r.
  - simpl in Hrun. unfold mbind, M_bind in Hrun.
    destruct (cau_next it g s) as [[[g1|]|e] s1] eqn:Hn; try discriminate.
    destruct (cau_next_marker it g g1 s s1 d Hv Hn)
      as ((d1 & Hv1) & Hst1 & Hrm1 & t1 & Ht1 & Hq1).
    destruct (pulls n it g1 s1) as [[[m' o]|e] s2] eqn:Hp; try discriminate.
    simpl in Hrun. injection Hrun as <- -> <-.
    destruct (IH _ _ _ _ _ _ Hv1 Hp) as (-> & Hst & Hrm & Hd & t & Ht & Hq).
    repeat split; try congruence.
    exists (t1 ++ t). rewrite Ht, Ht1, <- app_assoc. split; [reflexivity|].
    rewrite forallb_app, Hq1, Hq. reflexivity.
Qed.

Lemma halts_marker (it : IndexUpdateIter) (k : M (option cau)) (s s1 : state)
    (g : cau) :
  k s = (Ok (Some g), s1) ->
  halts it (cau_next it g) s1 ->
  halts it k s.
Proof.
  intros Hk (n & m & s' & Hn). exists (S n), (S m), s'.
  assert (Hp : pulls (S n) it g s1 = (Ok (m, None), s')) by exact Hn.
  unfold then_pulls. erewrite bind_ok by exact Hk. cbv beta iota.
  now erewrite bind_ok by exact Hp.
Qed.

Lemma halts_stop (it : IndexUpdateIter) (k : M (option cau)) (s s1 : state) :
  k s = (Ok None, s1) -> halts it k s.
Proof.
  intros Hk. exists O, O, s1. unfold then_pulls. now erewrite bind_ok by exact Hk.
Qed.

Lemma halts_eq (it : IndexUpdateIter) (k k' : M (option cau)) (s s1 : state) :
  k s = k' s1 -> halts it k' s1 -> halts it k s.
Proof.
  intros Hk (n & m & s' & Hn). exists n, m, s'.
  now rewrite (then_pulls_eq n it k k' s s1 Hk).
Qed.

Section Termination.
Context {F : Finite P}.
Variable it : IndexUpdateIter.

Lemma update_halts (c : checker) :
  (forall s d, view s = Sqlite d -> halts it (resume_check it c) s) ->
  forall N u s d, (upd_size u d < N)%nat -> view s = Sqlite d ->
                  halts it (resume_update it c u) s.
Proof.
  intros Hc N. induction N as [|N IH]; intros u s d HN Hv; [lia|].
  pose proof (resume_update_run it c u s d Hv) as Hu.
  destruct (update_next u d) as [[u'|] d'] eqn:Hnext.
  - eapply halts_marker; [exact Hu|]. simpl.
    apply (IH u' _ d'); [|reflexivity].
    apply upd_decr in Hnext. lia.
  - eapply halts_eq; [exact Hu|]. eapply Hc. reflexivity.
Qed.

Lemma check_halts :
  forall N c s d, (chk_size c < N)%nat -> view s = Sqlite d ->
                  halts it (resume_check it c) s.
Proof.
  induction N as [|N IH]; intros c s d HN Hv; [lia|].
  pose proof (resume_check_run it c s d Hv) as Hc.
  destruct (check_next c d) as [[[b c']|] d'] eqn:Hnext.
  - apply chk_decr in Hnext.
    eapply halts_marker; [exact Hc|]. destruct b; simpl.
    + eapply (halts_eq it _ (resume_update it c' files_update_iter) _
                (record UpdateIterCalled _)).
      { apply (bind_ok (note UpdateIterCalled)
                 (fun _ => resume_update it c' files_update_iter)
                 _ (record UpdateIterCalled _) tt). reflexivity. }
      eapply update_halts; [|apply Nat.lt_succ_diag_r|reflexivity].
      intros s0 d0 Hv0. apply (IH c' s0 d0); [lia|exact Hv0].
    + apply (IH c' _ d'); [lia|reflexivity].
  - eapply halts_stop. exact Hc.
Qed.

Lemma pulls_halt (g : cau) (s : state) (d : db) :
  view s = Sqlite d ->
  exists n m s', pulls n it g s = (Ok (m, None), s').
Proof.
  intros Hv.
  assert (Hc : forall c s0 d0, view s0 = Sqlite d0 ->
                 halts it (resume_check it c) s0).
  { intros c s0 d0. apply (check_halts (S (chk_size c))). lia. }
  assert (Hu : forall c u s0 d0, view s0 = Sqlite d0 ->
                 halts it (resume_update it c u) s0).
  { intros c u s0 d0. apply (update_halts c (Hc c) (S (upd_size u d0))). lia. }
  assert (H : halts it (cau_next it g) s).
  { destruct g as [file|c [|]|c u|]; simpl.
    - eapply halts_eq; [apply bind_ok, call_run, Hv|]. eapply Hc. reflexivity.
    - eapply (halts_eq it _ (resume_update it c files_update_iter) _
                (record UpdateIterCalled _)).
      { apply (bind_ok (note UpdateIterCalled)
                 (fun _ => resume_update it c files_update_iter)
                 _ (record UpdateIterCalled _) tt). reflexivity. }
      eapply Hu. exact Hv.
    - eapply Hc. exact Hv.
    - eapply Hu. exact Hv.
    - eapply halts_stop. reflexivity. }
  destruct H as (n & m & s' & Hn). exists (S n), m, s'. exact Hn.
Qed.

End Termination.

End UpdateIterShape.

Section UpdateIterClaims.
Context {P : Pipeline}.

Lemma pass_pulls (k : nat) : forallb is_pull (pass k) = true.
Proof.
  unfold pass. rewrite forallb_app. simpl.
  induction k as [|k IH]; simpl; auto.
Qed.

Lemma blocks_pulls (bs : list (option nat)) : forallb is_pull (blocks bs) = true.
Proof.
  unfold blocks. induction bs as [|[k|] bs IH]; simpl; auto.
  rewrite forallb_app, pass_pulls. exact IH.
Qed.

Lemma no_such_pull (t : list event) (e : event) :
  forallb is_pull t = true -> is_pull e = false ->
  count_occ event_eq_dec t e = O.
Proof.
  intros Ht He. induction t as [|x t IH]; simpl in *; [reflexivity|].
  apply andb_true_iff in Ht as [Hx Ht].
  destruct (event_eq_dec x e) as [->|_]; [congruence|]. now apply IH.
Qed.

Lemma final_events_once (it : IndexUpdateIter) :
  count_occ event_eq_dec (final_events it) Commit = 1%nat /\
  count_occ event_eq_dec (final_events it) (Emit TheUpdateIter "commit") = 1%nat.
Proof.
  assert (Hh : forall e, e <> Emit TheIndex "changed" ->
            count_occ event_eq_dec
              (List.map (fun _ => Emit TheIndex "changed") (commit_handlers it)) e
            = O).
  { intros e He. apply count_occ_not_In. intros Hin.
    apply in_map_iff in Hin as (h & Hh & _). congruence. }
  unfold final_events. split.
  - rewrite count_occ_cons_eq by reflexivity.
    rewrite count_occ_cons_neq by discriminate.
    now rewrite Hh by discriminate.
  - rewrite count_occ_cons_neq by discriminate.
    rewrite count_occ_cons_eq by reflexivity.
    now rewrite Hh by discriminate.
Qed.

(** C1: in every run of [check_and_update_iter] on a readable cache, as
    long as the caller has only received markers the trace holds
    nothing but pulls on the checker and on the update pass and the
    store is what it was before the call; when a pull ends the
    generator, exactly one commit and one ["commit"] signal have
    happened, they are the last thing the generator did (followed only
    by the handlers of the signal), whatever the checker reported, and
    the store then holds what the connection sees; and with finite
    sibling generators that end is reached. *)
Theorem commit_once_at_the_end {F : Finite P} (it : IndexUpdateIter)
    (file : option node) (s : state) (d : db) :
  view s = Sqlite d ->
  (forall n m g s',
      pulls n it (check_and_update_iter file) s = (Ok (m, Some g), s') ->
      m = n /\ store s' = store s /\
      exists t, trace s' = trace s ++ t /\ forallb is_pull t = true) /\
  (forall n m s',
      pulls n it (check_and_update_iter file) s = (Ok (m, None), s') ->
      store s' = Some (view s') /\
      exists t, trace s' = trace s ++ t ++ final_events it /\
                forallb is_pull t = true /\
                count_occ event_eq_dec (t ++ final_events it) Commit = 1%nat /\
                count_occ event_eq_dec (t ++ final_events it)
                  (Emit TheUpdateIter "commit") = 1%nat) /\
  (exists n m s',
      pulls n it (check_and_update_iter file) s = (Ok (m, None), s')).
Proof.
  intros Hv. split; [|split].
  - intros n m g s' Hrun.
    destruct (pulls_markers it n _ _ _ _ _ _ Hv Hrun) as (Hm & Hst & _ & _ & Ht).
    auto.
  - intros n m s' Hrun.
    assert (Hne : check_and_update_iter file <> CauDone) by discriminate.
    destruct (pulls_shape it n _ _ _ _ _ Hv Hne Hrun)
      as (t & Ht & (bs & -> & _) & Hst & _).
    split; [exact Hst|].
    exists (blocks bs ++ [CheckerPulled None]).
    assert (Hq : forallb is_pull (blocks bs ++ [CheckerPulled None]) = true).
    { rewrite forallb_app, blocks_pulls. reflexivity. }
    destruct (final_events_once it) as [Hc He].
    repeat split.
    + rewrite Ht. unfold closing. now rewrite <- !app_assoc.
    + exact Hq.
    + rewrite count_occ_app, Hc, (no_such_pull _ _ Hq); reflexivity.
    + rewrite count_occ_app, He, (no_such_pull _ _ Hq); reflexivity.
  - apply (pulls_halt it _ s d Hv).
Qed.

(** C2 (amended): a run of [check_and_update_iter] that is driven to its
    end is a sequence of items of the checker, one marker each; an item
    reported up to date is followed by the next item, an item reported
    out of date is followed at once by one whole update pass of the
    files indexer, one marker for each item it updates, and only then
    by the next item; the run closes with the exhausted checker, the
    commit and the signal.  No update pass starts but right after an
    out-of-date item. *)
Theorem check_and_update_interleaved (it : IndexUpdateIter)
    (file : option node) (s s' : state) (d : db) (n m : nat) :
  view s = Sqlite d ->
  pulls n it (check_and_update_iter file) s = (Ok (m, None), s') ->
  exists bs, trace s' = trace s ++ blocks bs ++ closing it /\ m = markers bs.
Proof.
  intros Hv Hrun.
  assert (Hne : check_and_update_iter file <> CauDone) by discriminate.
  destruct (pulls_shape it n _ _ _ _ _ Hv Hne Hrun)
    as (t & Ht & (bs & -> & ->) & _).
  eauto.
Qed.

End UpdateIterClaims.

(** ** Rebuilding the cache *)

Lemma with_rows_rows (tb : table) : with_rows tb (rows tb) = tb.
Proof. now destruct tb. Qed.

Lemma filter_both {A} (f g : A -> bool) (l : list A) :
  List.filter f (List.filter g l) = List.filter (fun x => g x && f x) l.
Proof.
  induction l as [|x l IH]; simpl; [reflexivity|].
  destruct (g x); simpl; [destruct (f x)|]; now rewrite IH.
Qed.

Lemma notes_left_ext (g g' : bool -> value -> bool) (x : string) (tb : table) :
  (forall b v, g b v = g' b v) ->
  Sql.notes_left g x tb = Sql.notes_left g' x tb.
Proof.
  intros H. unfold Sql.notes_left.
  destruct (Sql.note_of x) as [[c b]|]; [|reflexivity].
  destruct (col_index c (cols tb)); [|reflexivity].
  apply List.filter_ext. intros r. now rewrite H.
Qed.

Lemma notes_left_none (g : bool -> value -> bool) (x : string) (tb : table) :
  (forall b v, g b v = false) -> Sql.notes_left g x tb = rows tb.
Proof.
  intros H. unfold Sql.notes_left.
  destruct (Sql.note_of x) as [[c b]|]; [|reflexivity].
  destruct (col_index c (cols tb)); [|reflexivity].
  induction (rows tb) as [|r l IH]; simpl; [reflexivity|].
  now rewrite H, IH.
Qed.

Lemma notes_left_twice (g1 g2 : bool -> value -> bool) (x : string) (tb : table) :
  Sql.notes_left g2 x (with_rows tb (Sql.notes_left g1 x tb))
  = Sql.notes_left (fun b v => g1 b v || g2 b v) x tb.
Proof.
  unfold Sql.notes_left. simpl.
  destruct (Sql.note_of x) as [[c b]|]; [|reflexivity].
  destruct (col_index c (cols tb)); [|reflexivity].
  rewrite filter_both. apply List.filter_ext. intros r.
  now rewrite negb_orb.
Qed.

Lemma note_of_like (x : string) :
  Sql.like_sqlite x = false -> Sql.note_of x = None.
Proof.
  intros H. unfold Sql.note_of. simpl.
  repeat match goal with
         | |- context [String.eqb x ?n] =>
             destruct (String.eqb_spec x n) as [->|_]; [discriminate H|]
         end.
  reflexivity.
Qed.

Lemma prefix_app (p q n : string) :
  String.prefix (String.append p q) n = true -> String.prefix p n = true.
Proof.
  revert n. induction p as [|a p IH]; intros n H; [now destruct n|].
  destruct n as [|b n]; [discriminate H|].
  change (String.append (String a p) q) with (String a (String.append p q)) in H.
  cbn -[ascii_dec] in H |- *.
  destruct (ascii_dec a b); [now apply IH|discriminate H].
Qed.

Lemma prefix_sqlite (n : string) :
  String.prefix "sqlite_" n = true -> String.prefix "sqlite" n = true.
Proof. apply (prefix_app "sqlite" "_"). Qed.

Lemma internal_like (t : string) :
  Sql.like_sqlite t = false -> Sql.internal t = false.
Proof.
  intros H. unfold Sql.internal.
  destruct (String.prefix "sqlite_" (Sql.lower_string t)) eqn:Hp; [|reflexivity].
  apply prefix_sqlite in Hp. unfold Sql.like_sqlite in H. congruence.
Qed.

Lemma forget_lookup (t : string) (tb : table) (d : db) (x : string) :
  Sql.forget t tb d !! x
  = (fun tbx =>
       with_rows tbx
         (Sql.notes_left
            (fun b v => implb b (autoinc tb) && sql_eq v (VText t)) x tbx))
      <$> d !! x.
Proof.
  unfold Sql.forget. rewrite map_lookup_imap. now destruct (d !! x).
Qed.

Lemma drop_table_run (t : string) (tb : table) (d : db) :
  d !! t = Some tb -> Sql.like_sqlite t = false ->
  Sql.drop_table t d = Ok (delete t (Sql.forget t tb d)).
Proof.
  intros Hd Hl. unfold Sql.drop_table. now rewrite Hd, (internal_like t Hl).
Qed.

Lemma gone_cons (t : string) (l : list string) (d : db) (tb : table)
    (b : bool) (v : value) :
  d !! t = Some tb ->
  gone (t :: l) d b v
  = implb b (autoinc tb) && sql_eq v (VText t) || gone l d b v.
Proof. intros Hd. unfold gone. simpl. now rewrite Hd. Qed.

Lemma gone_ext (l : list string) (d d' : db) (b : bool) (v : value) :
  (forall t, In t l -> autoinc <$> d' !! t = autoinc <$> d !! t) ->
  gone l d' b v = gone l d b v.
Proof.
  intros H. unfold gone. induction l as [|t l IH]; simpl; [reflexivity|].
  rewrite IH by (intros t' Ht'; apply H; now right).
  specialize (H t (or_introl eq_refl)).
  destruct (d' !! t) as [tb'|], (d !! t) as [tb|]; simpl in H; try discriminate H;
    [|reflexivity].
  injection H as ->. reflexivity.
Qed.

Lemma drop_all_lookup (l : list string) (d : db) (x : string) :
  List.NoDup l ->
  (forall t, In t l -> is_Some (d !! t) /\ Sql.like_sqlite t = false) ->
  (In x l -> drop_all l d !! x = None) /\
  (~ In x l ->
   drop_all l d !! x
   = (fun tb => with_rows tb (Sql.notes_left (gone l d) x tb)) <$> d !! x).
Proof.
  revert d. induction l as [|t l IH]; intros d Hnd Hin.
  - split; [intros []|]. intros _. simpl.
    destruct (d !! x) as [tb|]; [|reflexivity]. simpl.
    rewrite notes_left_none by reflexivity. now rewrite with_rows_rows.
  - inversion Hnd as [|? ? Ht Hnd']; subst.
    destruct (Hin t (or_introl eq_refl)) as [[tb Htb] Hlike].
    change (drop_all (t :: l) d)
      with (drop_all l match Sql.drop_table t d with Ok d'' => d'' | Raise _ => d end).
    rewrite (drop_table_run t tb d Htb Hlike).
    set (d1 := delete t (Sql.forget t tb d)).
    assert (Hd1 : forall y, y <> t ->
              d1 !! y
              = (fun tby =>
                   with_rows tby
                     (Sql.notes_left
                        (fun b v => implb b (autoinc tb) && sql_eq v (VText t))
                        y tby)) <$> d !! y).
    { intros y Hy. unfold d1. rewrite lookup_delete_ne by congruence.
      apply forget_lookup. }
    assert (Hin1 : forall t', In t' l ->
              is_Some (d1 !! t') /\ Sql.like_sqlite t' = false).
    { intros t' Ht'. destruct (Hin t' (or_intror Ht')) as [[tb' Htb'] Hl'].
      split; [|exact Hl'].
      rewrite Hd1 by (intros ->; contradiction). rewrite Htb'. simpl. eauto. }
    destruct (IH d1 Hnd' Hin1) as [IHin IHout].
    split.
    + intros [<-|Hx]; [|now apply IHin].
      rewrite (IHout Ht). unfold d1. now rewrite lookup_delete_eq.
    + intros Hx. assert (Hxt : x <> t) by (intros ->; apply Hx; now left).
      assert (Hxl : ~ In x l) by (intros H; apply Hx; now right).
      rewrite (IHout Hxl), (Hd1 x Hxt).
      destruct (d !! x) as [tbx|]; [|reflexivity]. simpl. f_equal.
      rewrite notes_left_twice. unfold with_rows. simpl. f_equal.
      apply notes_left_ext. intros b v.
      rewrite (gone_cons t l d tb b v Htb). f_equal.
      apply gone_ext. intros t' Ht'.
      rewrite Hd1 by (intros ->; contradiction).
      now destruct (d !! t').
Qed.

Lemma new_connection_run (self : Index) (has_db : bool) (s : state) :
  new_connection self has_db s = ((new_connection self has_db s).1, s).
Proof.
  unfold new_connection.
  repeat match goal with
         | |- context [if ?b then _ else _] => destruct b
         | |- context [match ?o with Some _ => _ | None => _ end] => destruct o
         | |- context [match ?i with Garbage => _ | Sqlite _ => _ | Unreachable => _ end] =>
             destruct i
         end;
    reflexivity.
Qed.

Section Rebuild.
Context {E : Engine} {C : Catalog E} {P : Pipeline}.

Lemma user_tables_elem (d : db) (t : string) :
  In t (user_tables d) <-> is_Some (d !! t) /\ Sql.like_sqlite t = false.
Proof.
  unfold user_tables. rewrite List.filter_In, negb_true_iff, master_elem. tauto.
Qed.

Lemma user_tables_NoDup (d : db) : List.NoDup (user_tables d).
Proof. apply List.NoDup_filter, master_NoDup. Qed.

Lemma plain_names_elem (d : db) (t : string) :
  plain_names d = true -> In t (user_tables d) -> unquoted t = Ok t.
Proof.
  unfold plain_names. rewrite List.forallb_forall. intros H Ht.
  specialize (H t Ht). now apply bool_decide_eq_true in H.
Qed.

Lemma gone_user_tables (d : db) (b : bool) (v : value) :
  gone (user_tables d) d b v = dropped d b v.
Proof.
  apply eq_iff_eq_true. unfold gone. rewrite existsb_exists. split.
  - intros (t & Ht & H). apply user_tables_elem in Ht as [_ Hl].
    destruct (d !! t) as [tb|] eqn:Htb; [|discriminate H].
    apply andb_true_iff in H as [Ha Hv].
    rewrite sql_eq_sym in Hv. apply sql_eq_text in Hv as ->.
    simpl. now rewrite Htb, Hl, Ha.
  - intros H. destruct v as [| |n|]; try discriminate H. simpl in H.
    destruct (d !! n) as [tb|] eqn:Htb; [|discriminate H].
    apply andb_true_iff in H as [Hl Ha]. apply negb_true_iff in Hl.
    exists n. split; [apply user_tables_elem; eauto|].
    rewrite Htb, Ha. simpl. apply String.eqb_refl.
Qed.

Lemma kept_tables_lookup (d : db) (t : string) :
  kept_tables d !! t
  = if Sql.like_sqlite t
    then (fun tb => with_rows tb (Sql.notes_left (dropped d) t tb)) <$> d !! t
    else None.
Proof.
  unfold kept_tables. rewrite map_lookup_imap.
  destruct (d !! t); simpl; now destruct (Sql.like_sqlite t).
Qed.

Lemma drop_user_tables (d : db) :
  drop_all (user_tables d) d = kept_tables d.
Proof.
  apply map_eq. intros x. rewrite kept_tables_lookup.
  destruct (drop_all_lookup (user_tables d) d x (user_tables_NoDup d))
    as [Hin Hout].
  { intros t Ht. now apply user_tables_elem. }
  destruct (Sql.like_sqlite x) eqn:Hl.
  - rewrite Hout by (rewrite user_tables_elem; intros [_ ?]; congruence).
    destruct (d !! x) as [tb|]; [|reflexivity]. simpl. do 2 f_equal.
    apply notes_left_ext, gone_user_tables.
  - destruct (d !! x) as [tb|] eqn:Hx.
    + apply Hin, user_tables_elem. eauto.
    + rewrite Hout by (rewrite user_tables_elem, Hx; intros [[? ?] _]; discriminate).
      reflexivity.
Qed.

Lemma execute_ddl_run (f : db -> result db) (s : state) (d d' : db) :
  view s = Sqlite d -> f d = Ok d' ->
  exists st,
    execute_ddl f s = (Ok tt, State (Sqlite d') st (removable s) (trace s)) /\
    (store s = Some (Sqlite d) -> st = Some (Sqlite d')).
Proof.
  intros Hv Hf. unfold execute_ddl. rewrite Hv, Hf.
  destruct (commits_before_ddl || bool_decide (store s = Some (Sqlite d))) eqn:Hb.
  - eexists. split; [reflexivity|]. reflexivity.
  - eexists. split; [reflexivity|]. simpl. intros Hst.
    rewrite (bool_decide_eq_true_2 _ Hst), orb_true_r in Hb. discriminate Hb.
Qed.

Lemma execute_ddl_clean (f : db -> result db) (s : state) (d d' : db) :
  view s = Sqlite d -> store s = Some (Sqlite d) -> f d = Ok d' ->
  execute_ddl f s
  = (Ok tt, State (Sqlite d') (Some (Sqlite d')) (removable s) (trace s)).
Proof.
  intros Hv Hst Hf.
  destruct (execute_ddl_run f s d d' Hv Hf) as (st & Hrun & Hdur).
  now rewrite Hrun, (Hdur Hst).
Qed.

Lemma drop_loop_run (l : list string) (s : state) (d : db) :
  view s = Sqlite d -> List.NoDup l ->
  (forall t, In t l ->
             is_Some (d !! t) /\ Sql.like_sqlite t = false /\ unquoted t = Ok t) ->
  exists st,
    for_each l (fun t => execute_ddl (drop_unquoted t)) s
    = (Ok tt, State (Sqlite (drop_all l d)) st (removable s) (trace s)).
Proof.
  revert s d. induction l as [|t l IH]; intros s d Hv Hnd Hin.
  - exists (store s). simpl. unfold mret, M_ret. rewrite <- Hv. now rewrite state_eta.
  - inversion Hnd as [|? ? Ht Hnd']; subst.
    destruct (Hin t (or_introl eq_refl)) as ([tb Htb] & Hlike & Hplain).
    assert (Hdrop : drop_unquoted t d = Ok (delete t (Sql.forget t tb d))).
    { unfold drop_unquoted. rewrite Hplain. now apply drop_table_run. }
    destruct (execute_ddl_run _ s d _ Hv Hdrop) as (st1 & Hrun1 & _).
    destruct (IH (State (Sqlite (delete t (Sql.forget t tb d))) st1
                    (removable s) (trace s))
                (delete t (Sql.forget t tb d)) eq_refl Hnd') as (st & Hrun).
    { intros t' Ht'. destruct (Hin t' (or_intror Ht')) as ([tb' Htb'] & Hl' & Hp').
      split; [|auto].
      rewrite lookup_delete_ne by (intros ->; contradiction).
      rewrite forget_lookup, Htb'. simpl. eauto. }
    exists st. cbn [for_each].
    erewrite bind_ok by exact Hrun1.
    change (drop_all (t :: l) d)
      with (drop_all l match Sql.drop_table t d with Ok d'' => d'' | Raise _ => d end).
    rewrite (drop_table_run t tb d Htb Hlike). exact Hrun.
Qed.

Lemma script_run (s : state) (d d' : db) (l : list (db -> result db)) :
  view s = Sqlite d -> script l d = (Ok tt, d') ->
  executescript l s
  = (Ok tt, State (Sqlite d') (Some (Sqlite d')) (removable s) (trace s)).
Proof. intros Hv Hl. unfold executescript. now rewrite Hv, Hl. Qed.

Lemma construct_run (s : state) (d : db) :
  view s = Sqlite d -> store s = Some (Sqlite d) ->
  IndexUpdateIter_init s
  = (Ok (MkIter []),
     State (Sqlite (create_schema d)) (Some (Sqlite (create_schema d)))
       (removable s) (trace s)).
Proof.
  intros Hv Hst. unfold IndexUpdateIter_init.
  destruct (execute_ddl_run (fun d => Ok (create_schema d)) s d _ Hv eq_refl)
    as (st & Hrun & Hdur).
  erewrite bind_ok by exact Hrun. now rewrite (Hdur Hst).
Qed.

Lemma db_init_run (s : state) (d : db) :
  view s = Sqlite d -> plain_names d = true ->
  _db_init s
  = (Ok tt,
     State (Sqlite (rebuilt d)) (Some (Sqlite (rebuilt d))) (removable s)
       (trace s ++ [Log LDebug "(Re-)Initializing database for index"; Commit])).
Proof.
  intros Hv Hplain. unfold _db_init.
  pose proof (query_run (fun d => Ok (user_tables d)) s d Hv) as Hq.
  simpl in Hq. erewrite bind_ok by exact Hq. clear Hq.
  destruct (drop_loop_run (user_tables d) s d Hv (user_tables_NoDup d))
    as (st & Hloop).
  { intros t Ht. pose proof (plain_names_elem d t Hplain Ht).
    apply user_tables_elem in Ht. tauto. }
  erewrite bind_ok by exact Hloop.
  rewrite drop_user_tables.
  erewrite bind_ok by reflexivity.
  erewrite bind_ok.
  2:{ apply (script_run _ (kept_tables d)); [reflexivity|].
      simpl. unfold Sql.create_table. rewrite kept_tables_lookup. simpl.
      unfold Sql.insert_values. rewrite lookup_insert_eq. simpl.
      rewrite insert_insert_eq. reflexivity. }
  erewrite bind_ok by (apply construct_run; reflexivity).
  unfold commit. simpl. unfold rebuilt, fresh_properties, with_rows. simpl.
  now rewrite <- app_assoc.
Qed.

Lemma lookup_property_raises (key : string) (d : db) (e : exn) :
  lookup_property key d = Raise e -> e = OperationalError.
Proof.
  unfold lookup_property, Sql.select_col_where.
  destruct (d !! "zim_index") as [tb|]; [|congruence].
  destruct (col_index "value" (cols tb)), (col_index "key" (cols tb)); congruence.
Qed.






(** C8: when the version check fails with a [DatabaseError] on an
    in-memory cache, [_db_check] fails its assertion at once: nothing
    is logged, removed, reopened or rebuilt.  So a run of [_db_check]
    on an unreadable cache that leaves any event behind is a run on an
    on-disk cache. *)
Theorem in_memory_corruption_asserts (self : Index) (s : state) :
  view s = Garbage ->
  (dbpath self = ":memory:" -> _db_check self s = (Raise AssertionError, s)) /\
  (trace (_db_check self s).2 <> trace s -> dbpath self <> ":memory:").
Proof.
  intros Hv.
  assert (Hmem : dbpath self = ":memory:" ->
                 _db_check self s = (Raise AssertionError, s)).
  { intros Hp. unfold _db_check, try_except.
    erewrite bind_raise.
    2:{ unfold get_property. erewrite bind_raise; [reflexivity|].
        unfold query. rewrite Hv. reflexivity. }
    simpl. rewrite Hp. reflexivity. }
  split; [exact Hmem|].
  intros Htr Hp. apply Htr. now rewrite (Hmem Hp).
Qed.

End Rebuild.

Section UpdateFile.
Context {P : Pipeline}.

(** C6: for a node without a row in the files table that does not exist
    in storage, [update_file] returns with the state as it was: the
    tables, the store and the trace (no commit, no signal) are
    unchanged. *)
Theorem update_file_noop (file : node) (s : state) (d : db) :
  view s = Sqlite d ->
  Sql.select_col_where "id" "files" "path" (VText (relpath file)) d = Ok [] ->
  exists_ file = false ->
  update_file file s = (Ok tt, s).
Proof.
  intros Hv Hrow Hex. unfold update_file.
  erewrite bind_ok by (rewrite (query_run _ s d Hv), Hrow; reflexivity).
  simpl. rewrite Hex. reflexivity.
Qed.

(** C10: for an argument that is neither a File nor a Folder, with a
    row in the files table or existing in storage, [update_file] raises
    [TypeError] after the ["start-update"] signal of the files indexer
    and before anything else: the trace gains that one event (no
    ["finish-update"], no commit, no ["changed"]) and the store is as it
    was. *)
Theorem update_file_other_kind (file : node) (s : state) (d : db) (c : list row) :
  kind file = IsOther ->
  view s = Sqlite d ->
  Sql.select_col_where "id" "files" "path" (VText (relpath file)) d = Ok c ->
  c <> [] \/ exists_ file = true ->
  update_file file s
  = (Raise TypeError,
     State (Sqlite (files_listeners "start-update" d)) (store s) (removable s)
       (trace s ++ [Emit TheFilesIndexer "start-update"])).
Proof.
  intros Hk Hv Hrow Hsome. unfold update_file.
  erewrite bind_ok by (rewrite (query_run _ s d Hv), Hrow; reflexivity).
  assert (Hguard : bool_decide (head c = None) && negb (exists_ file) = false).
  { destruct Hsome as [Hc|Hex].
    - destruct c; [contradiction|]. reflexivity.
    - rewrite Hex. apply andb_false_r. }
  rewrite Hguard.
  erewrite bind_ok.
  2:{ unfold files_emit. erewrite bind_ok by reflexivity.
      apply call_run. exact Hv. }
  rewrite Hk. simpl. destruct (head c); reflexivity.
Qed.

End UpdateFile.

(** ** Placeholders *)

Section Placeholder.
Context {P : Pipeline}.

Context {C : Placeholders P}.



Lemma no_conflict_with_anchor (lt : table) (rs : list row) (r : row) :
  links_table lt ->
  (forall r', In r' rs -> sql_eq (cell 0 r') (cell 0 r) = false) ->
  existsb (Sql.conflicts (with_rows lt rs) r) rs = false.
Proof.
  intros [Hcols Huniq] Hrs.
  apply not_true_is_false. intros Hex.
  apply existsb_exists in Hex as (r' & Hin & Hconf).
  unfold Sql.conflicts in Hconf. simpl in Hconf.
  apply existsb_exists in Hconf as (u & Hu & Hall).
  rewrite forallb_forall in Huniq. specialize (Huniq u Hu).
  apply existsb_exists in Huniq as (c & Hc & Heq).
  apply String.eqb_eq in Heq. subst c.
  rewrite forallb_forall in Hall. specialize (Hall "source" Hc).
  unfold Sql.agree_on in Hall. rewrite Hcols in Hall. simpl in Hall.
  rewrite sql_eq_sym, (Hrs r' Hin) in Hall. discriminate.
Qed.

Lemma has_page_other_table (d : db) (t : string) (tb : table) (n : string) :
  t <> "pages" -> has_page (<[t := tb]> d) n = has_page d n.
Proof.
  intros Ht. unfold has_page, Sql.select_where.
  now rewrite lookup_insert_ne.
Qed.

(** One call, step by step. *)
Lemma touch_run (path : Path) (s : state) (d : db) (lt pt : table) :
  view s = Sqlite d ->
  d !! "links" = Some lt -> links_table lt ->
  d !! "pages" = Some pt -> In "name" (cols pt) ->
  let cleaned := cleanup_placeholders (without_anchors d) in
  exists s' d',
    touch_current_page_placeholder path s = (Ok tt, s') /\
    view s' = Sqlite d' /\ store s' = Some (Sqlite d') /\
    trace s' = trace s ++ [Acquire; Commit; Emit TheIndex "changed"; Release] /\
    (exists rs, d' !! "links" = Some (with_rows lt rs)) /\
    (exists rs, d' !! "pages" = Some (with_rows pt rs)) /\
    anchors d' = (if has_page cleaned (name path) then []
                  else [anchor_to path (insert_link_placeholder path cleaned).1]) /\
    (forall n, n <> name path -> has_page d' n = has_page cleaned n).
Proof.
  intros Hv Hl Hlt Hp Hname cleaned.
  pose proof Hlt as [Hcols Huniq].
  (* the DELETE *)
  set (rs1 := List.filter (fun r => negb (sql_eq (cell 0 r) (VInt ROOT_ID))) (rows lt)).
  assert (Hdel : Sql.delete_where "links" "source" (VInt ROOT_ID) d
                 = Ok (<["links" := with_rows lt rs1]> d)).
  { unfold Sql.delete_where. rewrite Hl, Hcols. reflexivity. }
  assert (Hwa : without_anchors d = <["links" := with_rows lt rs1]> d).
  { unfold without_anchors. now rewrite Hdel. }
  (* the cleanup *)
  destruct (cleanup_links (without_anchors d) (with_rows lt rs1))
    as (rs2 & Hl2 & Hsub).
  { rewrite Hwa. apply lookup_insert_eq. }
  destruct (cleanup_pages (without_anchors d) pt) as (ps2 & Hp2).
  { rewrite Hwa. now rewrite lookup_insert_ne. }
  fold cleaned in Hl2, Hp2. simpl in Hl2, Hsub.
  change (with_rows (with_rows lt rs1) rs2) with (with_rows lt rs2) in Hl2.
  assert (Hnoroot : forall r, In r rs2 -> sql_eq (cell 0 r) (VInt ROOT_ID) = false).
  { intros r Hr. apply Hsub in Hr. unfold rs1 in Hr.
    apply filter_In in Hr as [_ Hr]. now apply negb_true_iff in Hr. }
  assert (Hanch : anchors cleaned = []).
  { unfold anchors, Sql.select_where. rewrite Hl2. simpl. rewrite Hcols. simpl.
    now apply filter_none. }
  destruct (col_index "name" (cols pt)) as [i|] eqn:Hi.
  2:{ apply col_index_In in Hname as [j Hj]. congruence. }
  set (c := List.filter (fun r => sql_eq (cell i r) (VText (name path))) ps2).
  assert (Hsel : Sql.select_where "pages" "name" (VText (name path)) cleaned = Ok c).
  { unfold Sql.select_where. rewrite Hp2. simpl. now rewrite Hi. }
  assert (Hhas : has_page cleaned (name path) = bool_decide (head c <> None)).
  { unfold has_page. rewrite Hsel. now destruct c. }
  (* the run *)
  unfold touch_current_page_placeholder, with_lock.
  erewrite bind_ok by reflexivity. unfold try_finally.
  erewrite bind_ok.
  2:{ unfold execute. simpl. rewrite Hv, Hdel. reflexivity. }
  erewrite bind_ok.
  2:{ apply call_run. reflexivity. }
  simpl. rewrite <- Hwa. fold cleaned.
  erewrite bind_ok.
  2:{ erewrite query_run by reflexivity. rewrite Hsel. reflexivity. }
  rewrite Hhas. destruct (head c) as [r0|] eqn:Hhead.
  - (* the page is there: no anchor *)
    rewrite bool_decide_eq_true_2 by discriminate.
    erewrite bind_ok by reflexivity.
    erewrite bind_ok by reflexivity. simpl.
    do 2 eexists. split; [reflexivity|]. simpl.
    repeat split; eauto.
    now rewrite <- !app_assoc.
  - (* no such page: placeholder and anchor *)
    rewrite bool_decide_eq_false_2 by (intros H; now apply H).
    destruct (insert_link_placeholder path cleaned) as [pid d3] eqn:Hins.
    pose proof (insert_links path cleaned) as Hl3.
    destruct (insert_pages path cleaned _ Hp2) as ((ps3 & Hp3) & Hpages).
    rewrite Hins in Hl3, Hp3, Hpages. simpl in Hl3, Hp3, Hpages.
    rewrite Hl2 in Hl3.
    assert (Hinsr : Sql.insert_named "links" ["source"; "target"; "rel"; "names"]
                      [VInt ROOT_ID; VInt pid; VInt HREF_REL_ABSOLUTE;
                       VText (name path)] d3
                    = Ok (<["links" := with_rows lt (rs2 ++ [anchor_to path pid])]> d3)).
    { unfold Sql.insert_named, Sql.insert_values. rewrite Hl3. simpl.
      rewrite Hcols. simpl.
      rewrite (no_conflict_with_anchor lt rs2); [reflexivity|exact Hlt|].
      intros r' Hr'. simpl. now apply Hnoroot. }
    erewrite bind_ok.
    2:{ erewrite bind_ok.
        2:{ erewrite call_run by reflexivity. rewrite Hins. reflexivity. }
        unfold execute. simpl. rewrite Hinsr. reflexivity. }
    erewrite bind_ok by reflexivity. simpl.
    do 2 eexists. split; [reflexivity|]. simpl.
    split; [reflexivity|]. split; [reflexivity|].
    split; [now rewrite <- !app_assoc|].
    split; [eexists; apply lookup_insert_eq|].
    split; [exists ps3; now rewrite lookup_insert_ne|].
    split.
    + unfold anchors, Sql.select_where. rewrite lookup_insert_eq. simpl.
      rewrite Hcols. simpl. rewrite List.filter_app, (filter_none _ rs2) by exact Hnoroot.
      simpl. now rewrite Z.eqb_refl.
    + intros n Hn. rewrite has_page_other_table by discriminate. now apply Hpages.
Qed.

Lemma at_most_one {A} (b : bool) (x : A) :
  (length (if b then [] else [x]) <= 1)%nat.
Proof. destruct b; simpl; repeat constructor. Qed.

(** C5 (amended): [touch_current_page_placeholder(P)] followed by
    [touch_current_page_placeholder(Q)] leaves at most one link whose
    source is the root sentinel, after each of the two calls.  After the
    second call there is exactly one, from the root to the placeholder
    just inserted for [Q], when the pages table has no row named [Q]
    once the old anchor is deleted and the placeholders are cleaned up;
    when it has such a row no anchor is made.  And [P], if distinct from
    [Q] and an orphaned placeholder once its anchor is deleted, has no
    page row any more. *)
Theorem placeholder_exclusive (p q : Path) (s : state) (d : db) (lt pt : table) :
  view s = Sqlite d ->
  d !! "links" = Some lt -> links_table lt ->
  d !! "pages" = Some pt -> In "name" (cols pt) ->
  exists s1 d1 s2 d2,
    touch_current_page_placeholder p s = (Ok tt, s1) /\ view s1 = Sqlite d1 /\
    touch_current_page_placeholder q s1 = (Ok tt, s2) /\ view s2 = Sqlite d2 /\
    store s2 = Some (Sqlite d2) /\
    let cleaned := cleanup_placeholders (without_anchors d1) in
    anchors d2
    = (if has_page cleaned (name q) then []
       else [anchor_to q (insert_link_placeholder q cleaned).1]) /\
    (length (anchors d1) <= 1)%nat /\ (length (anchors d2) <= 1)%nat /\
    (name p <> name q -> orphan_page (without_anchors d1) (name p) ->
     has_page d2 (name p) = false).
Proof.
  intros Hv Hl Hlt Hp Hname.
  destruct (touch_run p s d lt pt Hv Hl Hlt Hp Hname)
    as (s1 & d1 & Hrun1 & Hv1 & _ & _ & (ls1 & Hl1) & (ps1 & Hp1) & Ha1 & _).
  destruct (touch_run q s1 d1 (with_rows lt ls1) (with_rows pt ps1) Hv1 Hl1 Hlt Hp1 Hname)
    as (s2 & d2 & Hrun2 & Hv2 & Hst2 & _ & _ & _ & Ha2 & Hpages2).
  exists s1, d1, s2, d2. repeat split; auto.
  - rewrite Ha1. apply at_most_one.
  - rewrite Ha2. apply at_most_one.
  - intros Hne Horph. rewrite Hpages2 by exact Hne.
    now apply cleanup_orphan.
Qed.

End Placeholder.

(** ** The reference pipeline meets the contracts *)

Lemma cell_set_cell (i : nat) (v : value) (r : row) :
  cell i r <> VNull -> cell i (Reference.set_cell i v r) = v.
Proof.
  unfold cell, Reference.set_cell. rewrite !nth_lookup.
  intros Hr. destruct (r !! i) as [x|] eqn:Hi.
  - apply lookup_lt_Some in Hi. now rewrite list_lookup_insert_eq.
  - simpl in Hr. congruence.
Qed.

Lemma update_first_fewer (rs rs' : list row) :
  Reference.update_first rs = Some rs' ->
  (length (List.filter (fun r => sql_eq (cell 2 r) (VInt Reference.STATUS_NEED_UPDATE)) rs')
   < length (List.filter (fun r => sql_eq (cell 2 r) (VInt Reference.STATUS_NEED_UPDATE)) rs))%nat.
Proof.
  revert rs'. induction rs as [|r rs IH]; intros rs' H; simpl in H; [discriminate|].
  destruct (sql_eq (cell 2 r) (VInt Reference.STATUS_NEED_UPDATE)) eqn:Hr.
  - injection H as <-. simpl. rewrite Hr.
    rewrite cell_set_cell by (intros E; rewrite E in Hr; discriminate).
    simpl. lia.
  - destruct (Reference.update_first rs) as [rs1|]; [|discriminate].
    injection H as <-. simpl. rewrite Hr. now apply IH.
Qed.

Lemma reference_finite (tree : list (string * bool)) : Finite (Reference.pipeline tree).
Proof.
  refine {| chk_size := fun c : @checker (Reference.pipeline tree) => length c;
            upd_size := fun _ d => Reference.flagged d |}.
  - intros c d b c' d'. simpl. unfold Reference.check_next.
    destruct c as [|[p stale] c0]; [discriminate|].
    intros [= _ <- _]. simpl. lia.
  - intros u d u' d'. simpl. unfold Reference.update_next, Reference.flagged, Reference.rows_of.
    destruct (d !! "files") as [tb|]; [|discriminate].
    destruct (Reference.update_first (rows tb)) as [rs|] eqn:Hu; [|discriminate].
    intros [= _ <-]. rewrite lookup_insert_eq. simpl.
    now apply update_first_fewer.
Defined.

Lemma on_table_lookup_ne (t t' : string) (f : list row -> list row) (d : db) :
  t <> t' -> Reference.on_table t f d !! t' = d !! t'.
Proof.
  intros Hne. unfold Reference.on_table. destruct (d !! t); [|reflexivity].
  now rewrite lookup_insert_ne.
Qed.

Lemma on_table_lookup (t : string) (f : list row -> list row) (d : db) (tb : table) :
  d !! t = Some tb -> Reference.on_table t f d !! t = Some (with_rows tb (f (rows tb))).
Proof. intros H. unfold Reference.on_table. rewrite H. apply lookup_insert_eq. Qed.

Lemma placeholder_row_name (i : nat) (pid : Z) (n n' : string) :
  n' <> n -> sql_eq (cell i [VInt pid; VText n; VInt 1]) (VText n') = false.
Proof.
  intros Hne. destruct i as [|[|[|i]]]; try reflexivity.
  - simpl. apply String.eqb_neq. congruence.
  - unfold cell. simpl. now destruct i.
Qed.

Lemma reference_placeholders (tree : list (string * bool)) :
  Placeholders (Reference.pipeline tree).
Proof.
  refine {| orphan_page := Reference.orphan |}; simpl.
  - intros d lt Hl. unfold Reference.cleanup_placeholders.
    eexists. split.
    + apply on_table_lookup. now rewrite on_table_lookup_ne.
    + intros r Hr. now apply filter_In in Hr as [Hr _].
  - intros d pt Hp. unfold Reference.cleanup_placeholders.
    eexists. rewrite on_table_lookup_ne by discriminate.
    now apply on_table_lookup.
  - intros d n Horph. unfold has_page, Sql.select_where, Reference.cleanup_placeholders.
    rewrite on_table_lookup_ne by discriminate.
    destruct (d !! "pages") as [pt|] eqn:Hp.
    2:{ unfold Reference.on_table. now rewrite Hp, Hp. }
    rewrite (on_table_lookup _ _ _ _ Hp). simpl.
    destruct (col_index "name" (cols pt)) as [i|] eqn:Hi; [|reflexivity].
    rewrite filter_none; [reflexivity|].
    intros p Hin. apply filter_In in Hin as [Hin Hkeep].
    apply not_true_is_false. intros Hname.
    rewrite (Horph (List.filter (fun r => sql_eq (cell i r) (VText n)) (rows pt)) p)
      in Hkeep; [discriminate| |].
    + unfold Sql.select_where. rewrite Hp, Hi. reflexivity.
    + apply filter_In. now split.
  - intros path d. unfold Reference.insert_link_placeholder. simpl.
    now apply on_table_lookup_ne.
  - intros path d pt Hp. unfold Reference.insert_link_placeholder. simpl.
    rewrite (on_table_lookup _ _ _ _ Hp). split; [eauto|].
    intros n Hn. unfold has_page, Sql.select_where.
    rewrite (on_table_lookup _ _ _ _ Hp), Hp. simpl.
    destruct (col_index "name" (cols pt)) as [i|]; [|reflexivity].
    rewrite List.filter_app. simpl.
    rewrite placeholder_row_name by exact Hn.
    now rewrite app_nil_r.
Defined.

(** ** The claims on the sample notebook *)

Lemma commit_once_at_the_end_witness :
  view Sample.opened = Sqlite Sample.cache /\
  exists n m s',
    @pulls Sample.pipeline n Sample.iter (check_and_update_iter None) Sample.opened
    = (Ok (m, None), s').
Proof.
  split; [reflexivity|].
  apply (@commit_once_at_the_end Sample.pipeline (reference_finite Sample.tree)
           Sample.iter None Sample.opened Sample.cache).
  reflexivity.
Defined.

Lemma check_and_update_interleaved_witness :
  view Sample.opened = Sqlite Sample.cache /\
  Sample.full_run.1 = Ok (3%nat, None) /\
  exists bs,
    trace Sample.full_run.2
    = trace Sample.opened ++ blocks bs ++ closing Sample.iter /\ 3%nat = markers bs.
Proof.
  assert (Hrun : Sample.full_run.1 = Ok (3%nat, None)) by reflexivity.
  split; [reflexivity|]. split; [exact Hrun|].
  apply (@check_and_update_interleaved Sample.pipeline Sample.iter None
           Sample.opened Sample.full_run.2 Sample.cache 4 3 eq_refl).
  exact (run_eq Sample.full_run _ Hrun).
Defined.

(** C2, as stated, fails: the first file of the sample notebook is out
    of date, and the update pass runs before the checker is asked for
    the second file. *)
Lemma update_starts_before_check_ends :
  Sample.full_run.1 = Ok (3%nat, None) /\
  trace Sample.full_run.2
  = [CheckerPulled (Some true); UpdateIterCalled; UpdatePulled true;
     UpdatePulled false; CheckerPulled (Some false); CheckerPulled None;
     Commit; Emit TheUpdateIter "commit"; Emit TheIndex "changed"] /\
  ~ check_then_update (trace Sample.full_run.2).
Proof.
  assert (Ht : trace Sample.full_run.2
               = [CheckerPulled (Some true); UpdateIterCalled; UpdatePulled true;
                  UpdatePulled false; CheckerPulled (Some false);
                  CheckerPulled None; Commit; Emit TheUpdateIter "commit";
                  Emit TheIndex "changed"]) by reflexivity.
  split; [reflexivity|]. split; [exact Ht|].
  rewrite Ht. intros H.
  apply (H [CheckerPulled (Some true)]
           [UpdatePulled true; UpdatePulled false; CheckerPulled (Some false);
            CheckerPulled None; Commit; Emit TheUpdateIter "commit";
            Emit TheIndex "changed"] false eq_refl).
  simpl. auto.
Qed.



Lemma sample_catalog : Catalog Sample.engine.
Proof.
  split.
  - intros d t. simpl. rewrite <- list_elem_of_In, list_elem_of_fmap. split.
    + intros [[k v] [-> Hkv]]. apply elem_of_map_to_list in Hkv. simpl. eauto.
    + intros [v Hv]. exists (t, v). split; [reflexivity|].
      now apply elem_of_map_to_list.
  - intros d. simpl. apply NoDup_ListNoDup, NoDup_fst_map_to_list.
Qed.





(** C3: opening the facade on a file that is not an SQLite database
    raises [AttributeError] to the caller, right after the warning: the
    handler reads [self.db], which an [Index] does not have.  The file
    is still there and still unreadable. *)
Lemma corrupt_store_open_raises (E : Engine) (P : Pipeline) :
  Index_init Sample.on_disk (Sample.unopened Garbage)
  = (Raise AttributeError,
     State Garbage (Some Garbage) true
       [Log LWarning "Overwriting possibly corrupt database: %s"]).
Proof. reflexivity. Qed.

Lemma in_memory_corruption_asserts_witness :
  view (State Garbage None true []) = Garbage /\
  dbpath Sample.in_memory = ":memory:" /\
  @_db_check Sample.engine Sample.pipeline Sample.in_memory
    (State Garbage None true [])
  = (Raise AssertionError, State Garbage None true []).
Proof.
  split; [reflexivity|]. split; [reflexivity|].
  apply (@in_memory_corruption_asserts Sample.engine Sample.pipeline Sample.in_memory
           (State Garbage None true []) eq_refl).
  reflexivity.
Defined.

Lemma update_file_noop_witness :
  view Sample.opened = Sqlite Sample.cache /\
  Sql.select_col_where "id" "files" "path" (VText "Gone.txt") Sample.cache = Ok [] /\
  @update_file Sample.pipeline (Node IsFile "Gone.txt" false) Sample.opened
  = (Ok tt, Sample.opened).
Proof.
  split; [reflexivity|]. split; [reflexivity|].
  apply (@update_file_noop Sample.pipeline (Node IsFile "Gone.txt" false)
           Sample.opened Sample.cache); reflexivity.
Defined.

Lemma update_file_other_kind_witness :
  view Sample.opened = Sqlite Sample.cache /\
  Sql.select_col_where "id" "files" "path" (VText "Home.txt") Sample.cache
  = Ok [[VInt 1]] /\
  @update_file Sample.pipeline (Node IsOther "Home.txt" true) Sample.opened
  = (Raise TypeError,
     State (Sqlite Sample.cache) (Some (Sqlite Sample.cache)) true
       [Emit TheFilesIndexer "start-update"]).
Proof.
  split; [reflexivity|]. split; [reflexivity|].
  apply (@update_file_other_kind Sample.pipeline (Node IsOther "Home.txt" true)
           Sample.opened Sample.cache [[VInt 1]]); try reflexivity.
  left. discriminate.
Defined.

Lemma placeholder_exclusive_witness :
  view Sample.opened = Sqlite Sample.cache /\
  (exists lt pt,
      Sample.cache !! "links" = Some lt /\ links_table lt /\
      Sample.cache !! "pages" = Some pt /\ In "name" (cols pt)) /\
  exists s1 d1 s2 d2,
    @touch_current_page_placeholder Sample.pipeline (MkPath "Draft") Sample.opened
    = (Ok tt, s1) /\ view s1 = Sqlite d1 /\
    @touch_current_page_placeholder Sample.pipeline (MkPath "Plans") s1
    = (Ok tt, s2) /\ view s2 = Sqlite d2 /\
    (length (@anchors Sample.pipeline d2) <= 1)%nat.
Proof.
  assert (Hlt : links_table (Table ["source"; "target"; "rel"; "names"] []
                               [[VInt 1; VInt 2; VInt 0; VText "Ideas"]]))
    by (split; reflexivity).
  assert (Hname : In "name" ["id"; "name"; "is_link_placeholder"])
    by (right; left; reflexivity).
  split; [reflexivity|]. split.
  { do 2 eexists. split; [reflexivity|]. split; [exact Hlt|].
    split; [reflexivity|exact Hname]. }
  destruct (@placeholder_exclusive Sample.pipeline
              (reference_placeholders Sample.tree)
              (MkPath "Draft") (MkPath "Plans") Sample.opened Sample.cache
              _ _ eq_refl eq_refl Hlt eq_refl Hname)
    as (s1 & d1 & s2 & d2 & H1 & Hv1 & H2 & Hv2 & _ & _ & _ & Hle & _).
  exists s1, d1, s2, d2. auto.
Defined.

(** C5, as stated, fails: Ideas is a page without content that Home
    links to; touching Draft and then Ideas leaves no anchor at all,
    because the row of Ideas is there already. *)
Lemma second_touch_without_anchor :
  has_page Sample.cache "Draft" = false /\
  Sql.select_where "pages" "name" (VText "Ideas") Sample.cache
  = Ok [[VInt 2; VText "Ideas"; VInt 1]] /\
  Sample.touched_draft.1 = Ok tt /\
  @anchors Sample.pipeline (tables Sample.touched_draft.2)
  = [[VInt 0; VInt 3; VInt 0; VText "Draft"]] /\
  Sample.touched_ideas.1 = Ok tt /\
  @anchors Sample.pipeline (tables Sample.touched_ideas.2) = [] /\
  tables Sample.touched_ideas.2 !! "links"
  = Some (Table ["source"; "target"; "rel"; "names"] []
            [[VInt 1; VInt 2; VInt 0; VText "Ideas"]]) /\
  length (@anchors Sample.pipeline (tables Sample.touched_ideas.2)) <> 1%nat.
Proof.
  assert (Hnone : @anchors Sample.pipeline (tables Sample.touched_ideas.2) = [])
    by reflexivity.
  split; [reflexivity|]. split; [reflexivity|]. split; [reflexivity|].
  split; [reflexivity|]. split; [reflexivity|]. split; [exact Hnone|].
  split; [reflexivity|]. rewrite Hnone. discriminate.
Qed.

(** * Further properties *)

(** ** The property store *)

Lemma lookup_property_absent (key : string) (d : db) (rs : list row) :
  d !! "zim_index" = Some (Table ["key"; "value"] [["key"]] rs) ->
  (forall r, In r rs -> cell 0 r <> VText key) ->
  lookup_property key d = Ok VNull.
Proof.
  intros Hd Hrs.
  unfold lookup_property, Sql.select_col_where. rewrite Hd. simpl.
  rewrite filter_none; [reflexivity|].
  intros r Hr. apply not_true_is_false. intros Hk.
  rewrite sql_eq_sym in Hk. apply sql_eq_text in Hk. now apply (Hrs r).
Qed.

(** X1: [get_property] reads and never writes.  On a database without
    the property table it raises [sqlite3.OperationalError] (the case
    that [_db_check] turns into a rebuild); on the property table of
    [_db_init], a key that no row holds reads as [None]; the state is
    as it was in both cases. *)
Theorem get_property_absent (key : string) (s : state) (d : db) :
  view s = Sqlite d ->
  (d !! "zim_index" = None ->
   get_property key s = (Raise OperationalError, s)) /\
  (forall rs,
      d !! "zim_index" = Some (Table ["key"; "value"] [["key"]] rs) ->
      (forall r, In r rs -> cell 0 r <> VText key) ->
      get_property key s = (Ok VNull, s)).
Proof.
  intros Hv. split.
  - intros Hd. unfold get_property.
    erewrite bind_raise; [reflexivity|].
    rewrite (query_run _ s d Hv). unfold Sql.select_col_where. now rewrite Hd.
  - intros rs Hd Hrs. rewrite (get_property_run key s d Hv).
    now rewrite (lookup_property_absent key d rs Hd Hrs).
Qed.

(** X2: [set_property] never commits and never keeps the lock: whatever
    the state, the key and the value, and whether the statement succeeds
    or raises, the store is as before and the trace gains exactly the
    acquisition and the release of the lock. *)
Theorem set_property_uncommitted (key : string) (v : pyvalue) (s : state) :
  store (set_property key v s).2 = store s /\
  trace (set_property key v s).2 = trace s ++ [Acquire; Release].
Proof.
  destruct (set_property_statement key v) as (f & -> & _).
  unfold with_lock, try_finally, execute, note, mbind, M_bind. simpl.
  destruct (view s) as [|d|]; simpl; try (rewrite <- app_assoc; auto).
  destruct (f d); simpl; rewrite <- app_assoc; auto.
Qed.

(** X3: [set_property(k, v)] leaves every other key as it was: on a
    cache with the property table of [_db_init], a following
    [get_property(k')] with [k' <> k] returns what it returned before,
    whatever [v] is; and the call succeeds for every value that sqlite3
    can bind, [None] included. *)
Theorem set_property_other_key (k k' : string) (v : pyvalue)
    (s : state) (d : db) :
  view s = Sqlite d -> property_table d -> k' <> k ->
  (forall x, stored_as_text v = Ok x -> (set_property k v s).1 = Ok tt) /\
  (get_property k' (set_property k v s).2).1 = (get_property k' s).1.
Proof.
  intros Hv [rs Hd] Hne.
  destruct (stored_as_text v) as [x|e] eqn:Hx.
  - rewrite (set_property_run k v s d rs x Hv Hd Hx).
    split; [reflexivity|].
    erewrite !get_property_run by (reflexivity || exact Hv). simpl.
    unfold lookup_property, Sql.select_col_where.
    rewrite lookup_insert_eq, Hd. simpl.
    rewrite List.filter_app, filter_filter_implied.
    + assert (Hnew : List.filter (fun r => sql_eq (cell 0 r) (VText k'))
                       match v with PNone => [] | _ => [[VText k; x]] end
                     = []).
      { destruct v; simpl; try reflexivity;
          now destruct (String.eqb_spec k k'); [congruence|]. }
      rewrite Hnew, app_nil_r. reflexivity.
    + intros r Hr. apply negb_true_iff, not_true_is_false. intros Hk.
      rewrite sql_eq_sym in Hr.
      apply sql_eq_text in Hr. apply sql_eq_text in Hk. congruence.
  - rewrite (set_property_refused k v s d e Hv (ex_intro _ rs Hd) Hx).
    split; [discriminate|].
    erewrite !get_property_run by (reflexivity || exact Hv). reflexivity.
Qed.

(** X4: the upsert keeps the keys of the property table distinct: on a
    cache with the property table of [_db_init] whose keys are pairwise
    distinct, they still are after [set_property], whatever the value;
    and when sqlite3 can bind the value the call succeeds and the key
    has exactly one row (none after [None]). *)
Theorem set_property_keys_distinct (k : string) (v : pyvalue)
    (s : state) (d : db) :
  view s = Sqlite d -> property_table d -> keys_distinct d ->
  exists d1,
    view (set_property k v s).2 = Sqlite d1 /\
    property_table d1 /\ keys_distinct d1 /\
    forall x,
      stored_as_text v = Ok x ->
      (set_property k v s).1 = Ok tt /\
      Sql.select_where "zim_index" "key" (VText k) d1
      = Ok (match v with PNone => [] | _ => [[VText k; x]] end).
Proof.
  intros Hv [rs Hd] Hnd.
  destruct (stored_as_text v) as [x|e] eqn:Hx.
  - rewrite (set_property_run k v s d rs x Hv Hd Hx).
    eexists. split; [reflexivity|].
    split; [eexists; apply lookup_insert_eq|]. split.
    + intros tb Htb. rewrite lookup_insert_eq in Htb. injection Htb as <-. simpl.
      rewrite List.map_app.
      specialize (Hnd _ Hd). simpl in Hnd.
      assert (Hfree : ~ In (VText k)
                        (List.map (cell 0)
                           (List.filter (fun r => negb (sql_eq (VText k) (cell 0 r))) rs))).
      { intros Hin. apply in_map_iff in Hin as (r & Hr & Hin).
        apply filter_In in Hin as [_ Hin]. apply negb_true_iff in Hin.
        rewrite Hr in Hin. simpl in Hin. now rewrite String.eqb_refl in Hin. }
      destruct v; simpl;
        try (rewrite app_nil_r; now apply NoDup_map_filter);
        (apply NoDup_snoc; [now apply NoDup_map_filter|exact Hfree]).
    + intros x' [= <-]. split; [reflexivity|].
      unfold Sql.select_where. rewrite lookup_insert_eq. simpl. f_equal.
      rewrite rows_of_key.
      destruct v; simpl; try reflexivity; now rewrite String.eqb_refl.
  - rewrite (set_property_refused k v s d e Hv (ex_intro _ rs Hd) Hx).
    exists d. split; [exact Hv|]. split; [now exists rs|].
    split; [exact Hnd|]. discriminate.
Qed.

(** ** Opening and flushing *)

Lemma lookup_property_same (key : string) (d d' : db) :
  d' !! "zim_index" = d !! "zim_index" ->
  lookup_property key d' = lookup_property key d.
Proof.
  intros H. unfold lookup_property, Sql.select_col_where. now rewrite H.
Qed.



Section Opening.
Context {E : Engine} {C : Catalog E} {P : Pipeline}.

Lemma db_check_valid (self : Index) (s : state) (d : db) :
  view s = Sqlite d ->
  lookup_property "db_version" d = Ok (VText DB_VERSION) ->
  _db_check self s = (Ok tt, s).
Proof.
  intros Hv Hl. unfold _db_check, try_except.
  erewrite bind_ok by (rewrite (get_property_run _ s d Hv), Hl; reflexivity).
  reflexivity.
Qed.

Lemma connection_on_store (self : Index) (s : state) (d : db) :
  (new_connection self false s).1 = Ok (Sqlite d) ->
  d = ∅ \/ store s = Some (Sqlite d).
Proof.
  unfold new_connection. rewrite andb_false_r.
  destruct (String.eqb (dbpath self) ":memory:").
  - simpl. intros [= <-]. now left.
  - destruct (store s) as [[| d0 |]|]; simpl; intros [= <-]; auto.
Qed.

Lemma index_init_valid (self : Index) (s : state) (d : db) :
  (new_connection self false s).1 = Ok (Sqlite d) ->
  lookup_property "db_version" d = Ok (VText DB_VERSION) ->
  Index_init self s
  = (Ok (MkIter [Index_on_commit]),
     State (Sqlite (create_schema d)) (Some (Sqlite (create_schema d)))
       (removable s) (trace s)).
Proof.
  intros Hc Hl.
  assert (Hst : store s = Some (Sqlite d)).
  { destruct (connection_on_store self s d Hc) as [-> | Hst]; [|exact Hst].
    discriminate Hl. }
  unfold Index_init.
  erewrite bind_ok by (rewrite new_connection_run, Hc; reflexivity).
  erewrite bind_ok by reflexivity.
  erewrite bind_ok by (apply (db_check_valid self (set_view (Sqlite d) s) d eq_refl Hl)).
  erewrite bind_ok by (apply (construct_run (set_view (Sqlite d) s) d eq_refl Hst)).
  reflexivity.
Qed.

(** X5: opening the facade on a cache whose [db_version] is ["0.7"]
    rebuilds nothing, logs nothing and does not call [commit()]: the
    trace is as before.  The constructors of the indexers create the
    tables that are missing, and what they create is durable at once;
    the update iterator has [on_commit] connected. *)
Theorem open_valid_cache (self : Index) (s : state) (d : db) :
  (new_connection self false s).1 = Ok (Sqlite d) ->
  lookup_property "db_version" d = Ok (VText DB_VERSION) ->
  Index_init self s
  = (Ok (MkIter [Index_on_commit]),
     State (Sqlite (create_schema d)) (Some (Sqlite (create_schema d)))
       (removable s) (trace s)) /\
  (create_schema d = d -> store (Index_init self s).2 = Some (Sqlite d)).
Proof.
  intros Hc Hl. rewrite (index_init_valid self s d Hc Hl).
  split; [reflexivity|]. simpl. now intros ->.
Qed.

Lemma empty_has_no_version : lookup_property "db_version" ∅ = Raise OperationalError.
Proof. reflexivity. Qed.

Lemma kept_tables_empty : kept_tables ∅ = ∅.
Proof. apply map_eq. intros t. rewrite kept_tables_lookup. now destruct (Sql.like_sqlite t). Qed.

Lemma plain_names_empty : plain_names ∅ = true.
Proof.
  unfold plain_names. apply List.forallb_forall. intros t Ht.
  apply user_tables_elem in Ht as [[tb Htb] _]. discriminate Htb.
Qed.

(** X6: opening the facade in memory, or on disk where no file exists
    yet and one can be created, always succeeds and builds a fresh
    cache: the version check fails for want of the property table,
    [_db_init] creates it with [db_version = "0.7"], the indexers create
    their tables, and all of it is durable; in memory, what the store
    held plays no part. *)
Theorem open_fresh_cache (self : Index) (s : state) :
  dbpath self = ":memory:" \/ store s = None ->
  let fresh := create_schema (<["zim_index" := fresh_properties]> ∅) in
  Index_init self s
  = (Ok (MkIter [Index_on_commit]),
     State (Sqlite (create_schema fresh)) (Some (Sqlite (create_schema fresh)))
       (removable s)
       (trace s ++ [Log LDebug "Operational error, init tabels";
                    Log LDebug "(Re-)Initializing database for index";
                    Commit])).
Proof.
  intros Hfresh fresh.
  assert (Hc : new_connection self false s = (Ok (Sqlite ∅), s)).
  { unfold new_connection. rewrite andb_false_r.
    destruct Hfresh as [-> | ->]; [reflexivity|].
    now destruct (String.eqb (dbpath self) ":memory:"). }
  unfold Index_init.
  erewrite bind_ok by exact Hc.
  erewrite bind_ok by reflexivity.
  erewrite bind_ok.
  2:{ unfold _db_check, try_except.
      erewrite bind_raise
        by (rewrite (get_property_run _ (set_view (Sqlite ∅) s) ∅ eq_refl),
              empty_has_no_version; reflexivity).
      cbv beta iota.
      erewrite bind_ok by reflexivity.
      apply (db_init_run (record _ (set_view (Sqlite ∅) s)) ∅ eq_refl
               plain_names_empty). }
  erewrite bind_ok by (apply construct_run; reflexivity).
  simpl. unfold rebuilt, fresh. rewrite kept_tables_empty, <- app_assoc. reflexivity.
Qed.

(** X7: opening the facade on any on-disk file that SQLite refuses
    raises [AttributeError], for every path and state: the handler logs
    its warning and fails on [self.db]; the file is neither removed nor
    replaced, so opening it again fails the same way. *)
Theorem open_unreadable_file (self : Index) (s : state) :
  dbpath self <> ":memory:" -> store s = Some Garbage ->
  exists s',
    Index_init self s = (Raise AttributeError, s') /\
    view s' = Garbage /\ store s' = Some Garbage /\
    trace s' = trace s ++ [Log LWarning "Overwriting possibly corrupt database: %s"] /\
    (Index_init self s').1 = Raise AttributeError.
Proof.
  intros Hp Hst.
  assert (Hne : String.eqb (dbpath self) ":memory:" = false)
    by now apply String.eqb_neq.
  assert (Hrun : forall s0, store s0 = Some Garbage ->
            Index_init self s0
            = (Raise AttributeError,
               State Garbage (Some Garbage) (removable s0)
                 (trace s0 ++ [Log LWarning "Overwriting possibly corrupt database: %s"]))).
  { intros s0 Hs0. unfold Index_init, new_connection, assign_db, _db_check,
      try_except, get_property, query, log, note, record, set_view, self_db,
      raise, assert, mbind, M_bind, mret, M_ret.
    repeat (progress (rewrite ?Hne, ?Hs0; simpl)). reflexivity. }
  eexists. split; [apply (Hrun s Hst)|]. simpl.
  repeat split. now rewrite Hrun.
Qed.




Lemma open_on_disk (self : Index) (s : state) (d : db) :
  dbpath self <> ":memory:" -> store s = Some (Sqlite d) ->
  (new_connection self false s).1 = Ok (Sqlite d).
Proof.
  intros Hp Hst. unfold new_connection.
  apply String.eqb_neq in Hp. rewrite Hp. simpl. now rewrite Hst.
Qed.



(** X23: opening the facade on a path that cannot be opened raises
    [sqlite3.OperationalError] out of [new_connection], which
    [__init__] calls before the version check and outside of its
    [try]: nothing is logged, no recovery is attempted and the state is
    as it was. *)
Theorem open_unreachable_path (self : Index) (s : state) :
  dbpath self <> ":memory:" -> store s = Some Unreachable ->
  Index_init self s = (Raise OperationalError, s).
Proof.
  intros Hp Hst. apply String.eqb_neq in Hp.
  unfold Index_init. erewrite bind_raise; [reflexivity|].
  unfold new_connection. now rewrite Hp, Hst.
Qed.

Lemma left_over_refl (d : db) : left_over d d.
Proof. repeat split; auto. Qed.

Lemma left_over_trans (d d1 d2 : db) :
  left_over d d1 -> left_over d1 d2 -> left_over d d2.
Proof.
  intros (H1 & H2 & H3) (K1 & K2 & K3). repeat split.
  - auto.
  - auto.
  - destruct K3 as [K3|K3]; [now left|]. rewrite K3. exact H3.
Qed.

Lemma left_over_drop (d : db) (t : string) (tb : table) :
  d !! t = Some tb -> unquoted t = Ok t ->
  left_over d (delete t (Sql.forget t tb d)).
Proof.
  intros Hd Hplain.
  assert (Hne : forall x, x <> t ->
            delete t (Sql.forget t tb d) !! x
            = (fun tbx =>
                 with_rows tbx
                   (Sql.notes_left
                      (fun b v => implb b (autoinc tb) && sql_eq v (VText t))
                      x tbx)) <$> d !! x).
  { intros x Hx. rewrite lookup_delete_ne by congruence. apply forget_lookup. }
  repeat split.
  - intros x [tbx Hx]. destruct (decide (x = t)) as [->|Hxt]; [eauto|].
    rewrite (Hne x Hxt) in Hx. destruct (d !! x); [eauto|discriminate Hx].
  - intros x Hbad [tbx Hx].
    assert (Hxt : x <> t) by (intros ->; congruence).
    rewrite (Hne x Hxt), Hx. simpl. eauto.
  - destruct (decide ("zim_index" = t)) as [<-|Hzt].
    + left. apply lookup_delete_eq.
    + right. rewrite (Hne _ Hzt).
      destruct (d !! "zim_index") as [tbz|]; [|reflexivity]. simpl. f_equal.
      apply with_rows_rows.
Qed.

Lemma drop_loop_fails (l : list string) (s : state) (d : db) :
  view s = Sqlite d -> store s = Some (Sqlite d) -> List.NoDup l ->
  (forall t, In t l ->
             is_Some (d !! t) /\ Sql.like_sqlite t = false /\
             (unquoted t = Ok t \/ unquoted t = Raise OperationalError)) ->
  (exists t, In t l /\ unquoted t = Raise OperationalError) ->
  exists d',
    for_each l (fun t => execute_ddl (drop_unquoted t)) s
    = (Raise OperationalError,
       State (Sqlite d') (Some (Sqlite d')) (removable s) (trace s)) /\
    left_over d d'.
Proof.
  revert s d. induction l as [|t l IH]; intros s d Hv Hst Hnd Hin (b & Hb & Hbad).
  - destruct Hb.
  - inversion Hnd as [|? ? Ht Hnd']; subst.
    destruct (Hin t (or_introl eq_refl)) as ([tb Htb] & Hlike & [Hplain|Hraise]).
    + assert (Hbl : In b l) by (destruct Hb as [<-|Hb]; [congruence|exact Hb]).
      set (d1 := delete t (Sql.forget t tb d)).
      destruct (IH (State (Sqlite d1) (Some (Sqlite d1)) (removable s) (trace s))
                  d1 eq_refl eq_refl Hnd') as (d' & Hrun & Hleft).
      * intros t' Ht'.
        destruct (Hin t' (or_intror Ht')) as ([tb' Htb'] & Hl' & Hp').
        split; [|auto]. unfold d1.
        rewrite lookup_delete_ne by (intros ->; contradiction).
        rewrite forget_lookup, Htb'. simpl. eauto.
      * eauto.
      * exists d'. split; [|exact (left_over_trans _ _ _ (left_over_drop d t tb Htb Hplain) Hleft)].
        cbn [for_each]. erewrite bind_ok; [exact Hrun|].
        apply (execute_ddl_clean _ s d d1 Hv Hst).
        unfold drop_unquoted. now rewrite Hplain, (drop_table_run t tb d Htb Hlike).
    + exists d. split; [|apply left_over_refl].
      cbn [for_each]. erewrite bind_raise.
      2:{ unfold execute_ddl, drop_unquoted. rewrite Hv, Hraise. reflexivity. }
      f_equal. destruct s as [v st rm tr]. simpl in *. now subst.
Qed.

(** The names that SQLite does not read back as themselves are those
    that it refuses to compile. *)
Lemma db_init_fails (s : state) (d : db) (t : string) :
  view s = Sqlite d -> store s = Some (Sqlite d) ->
  is_Some (d !! t) -> Sql.like_sqlite t = false ->
  unquoted t = Raise OperationalError ->
  (forall t', In t' (user_tables d) ->
              unquoted t' = Ok t' \/ unquoted t' = Raise OperationalError) ->
  exists d',
    _db_init s
    = (Raise OperationalError,
       State (Sqlite d') (Some (Sqlite d')) (removable s) (trace s)) /\
    left_over d d'.
Proof.
  intros Hv Hst Ht Hlike Hbad Hall.
  destruct (drop_loop_fails (user_tables d) s d Hv Hst (user_tables_NoDup d))
    as (d' & Hrun & Hleft).
  - intros t' Ht'. pose proof (Hall t' Ht').
    apply user_tables_elem in Ht'. tauto.
  - exists t. split; [now apply user_tables_elem|exact Hbad].
  - exists d'. split; [|exact Hleft].
    unfold _db_init.
    pose proof (query_run (fun d => Ok (user_tables d)) s d Hv) as Hq.
    simpl in Hq. erewrite bind_ok by exact Hq.
    erewrite bind_raise by exact Hrun. reflexivity.
Qed.

Lemma left_over_names (d d' : db) :
  left_over d d' ->
  (forall t', In t' (user_tables d) ->
              unquoted t' = Ok t' \/ unquoted t' = Raise OperationalError) ->
  forall t', In t' (user_tables d') ->
             unquoted t' = Ok t' \/ unquoted t' = Raise OperationalError.
Proof.
  intros (H1 & _ & _) Hall t' Ht'. apply Hall.
  apply user_tables_elem in Ht' as [Hs Hl]. apply user_tables_elem. auto.
Qed.

Lemma left_over_stale (d d' : db) :
  left_over d d' ->
  lookup_property "db_version" d <> Ok (VText DB_VERSION) ->
  lookup_property "db_version" d' <> Ok (VText DB_VERSION).
Proof.
  intros (_ & _ & [H|H]) Hstale.
  - unfold lookup_property, Sql.select_col_where. rewrite H. discriminate.
  - now rewrite (lookup_property_same _ d d' H).
Qed.

Lemma index_init_fails (self : Index) (s : state) (d : db) (t : string) :
  dbpath self <> ":memory:" -> store s = Some (Sqlite d) ->
  lookup_property "db_version" d <> Ok (VText DB_VERSION) ->
  is_Some (d !! t) -> Sql.like_sqlite t = false ->
  unquoted t = Raise OperationalError ->
  (forall t', In t' (user_tables d) ->
              unquoted t' = Ok t' \/ unquoted t' = Raise OperationalError) ->
  exists d' logs,
    Index_init self s
    = (Raise OperationalError,
       State (Sqlite d') (Some (Sqlite d')) (removable s) (trace s ++ logs)) /\
    left_over d d' /\
    (logs = [Log LDebug "Operational error, init tabels"] \/
     logs = [Log LDebug "Index db_version out of date";
             Log LDebug "Operational error, init tabels"]).
Proof.
  intros Hp Hst Hstale Ht Hlike Hbad Hall.
  assert (Hn : new_connection self false s = (Ok (Sqlite d), s)).
  { now rewrite new_connection_run, (open_on_disk self s d Hp Hst). }
  set (s0 := State (Sqlite d) (Some (Sqlite d)) (removable s) (trace s)).
  assert (Hs0 : set_view (Sqlite d) s = s0).
  { unfold set_view, s0. now rewrite Hst. }
  assert (Hchk : exists d' logs,
             _db_check self s0
             = (Raise OperationalError,
                State (Sqlite d') (Some (Sqlite d')) (removable s) (trace s ++ logs)) /\
             left_over d d' /\
             (logs = [Log LDebug "Operational error, init tabels"] \/
              logs = [Log LDebug "Index db_version out of date";
                      Log LDebug "Operational error, init tabels"])).
  { unfold _db_check, try_except.
    destruct (lookup_property "db_version" d) as [v|e] eqn:Hl.
    - destruct (db_init_fails (record (Log LDebug "Index db_version out of date") s0)
                  d t eq_refl eq_refl Ht Hlike Hbad Hall) as (d1 & Hrun1 & Hleft1).
      assert (Ht1 : is_Some (d1 !! t)) by (destruct Hleft1 as (_ & H & _); auto).
      destruct (db_init_fails
                  (record (Log LDebug "Operational error, init tabels")
                     (State (Sqlite d1) (Some (Sqlite d1))
                        (removable (record (Log LDebug "Index db_version out of date") s0))
                        (trace (record (Log LDebug "Index db_version out of date") s0))))
                  d1 t eq_refl eq_refl Ht1 Hlike Hbad
                  (left_over_names d d1 Hleft1 Hall)) as (d2 & Hrun2 & Hleft2).
      exists d2. eexists. split; [|split; [exact (left_over_trans _ _ _ Hleft1 Hleft2)|right; reflexivity]].
      erewrite bind_ok by (rewrite (get_property_run _ s0 d eq_refl), Hl; reflexivity).
      rewrite bool_decide_eq_false_2 by congruence.
      erewrite bind_ok by reflexivity.
      rewrite Hrun1. cbv beta iota.
      erewrite bind_ok by reflexivity.
      rewrite Hrun2. simpl. now rewrite <- app_assoc.
    - destruct (db_init_fails (record (Log LDebug "Operational error, init tabels") s0)
                  d t eq_refl eq_refl Ht Hlike Hbad Hall) as (d1 & Hrun1 & Hleft1).
      exists d1. eexists. split; [|split; [exact Hleft1|left; reflexivity]].
      erewrite bind_raise by (rewrite (get_property_run _ s0 d eq_refl), Hl; reflexivity).
      apply lookup_property_raises in Hl as ->.
      erewrite bind_ok by reflexivity.
      rewrite Hrun1. reflexivity. }
  destruct Hchk as (d' & logs & Hrun & Hleft & Hlogs).
  exists d', logs. split; [|auto].
  unfold Index_init.
  erewrite bind_ok by exact Hn.
  erewrite bind_ok by (unfold assign_db; rewrite Hs0; reflexivity).
  erewrite bind_raise by exact Hrun. reflexivity.
Qed.

(** X24: a table of another program whose name SQLite cannot compile
    unquoted (a name of two words, a reserved word) makes a stale
    on-disk cache impossible to open.  [Index.__init__] raises
    [sqlite3.OperationalError]: the DROP loop fails at that table,
    inside the [try] or inside its handler, which then fails the same
    way.  Nothing is initialized, commit() is not called; what the loop
    dropped before it failed is gone for good, the table is still
    there and the cache is still stale, so that opening it again
    raises again. *)
Theorem open_foreign_table (self : Index) (s : state) (d : db) (t : string) :
  dbpath self <> ":memory:" -> store s = Some (Sqlite d) ->
  lookup_property "db_version" d <> Ok (VText DB_VERSION) ->
  is_Some (d !! t) -> Sql.like_sqlite t = false ->
  unquoted t = Raise OperationalError ->
  (forall t', In t' (user_tables d) ->
              unquoted t' = Ok t' \/ unquoted t' = Raise OperationalError) ->
  exists s' d',
    Index_init self s = (Raise OperationalError, s') /\
    view s' = Sqlite d' /\ store s' = Some (Sqlite d') /\
    is_Some (d' !! t) /\
    (forall x, is_Some (d' !! x) -> is_Some (d !! x)) /\
    lookup_property "db_version" d' <> Ok (VText DB_VERSION) /\
    (trace s' = trace s ++ [Log LDebug "Operational error, init tabels"] \/
     trace s' = trace s ++ [Log LDebug "Index db_version out of date";
                            Log LDebug "Operational error, init tabels"]) /\
    (Index_init self s').1 = Raise OperationalError.
Proof.
  intros Hp Hst Hstale Ht Hlike Hbad Hall.
  destruct (index_init_fails self s d t Hp Hst Hstale Ht Hlike Hbad Hall)
    as (d' & logs & Hrun & Hleft & Hlogs).
  assert (Ht' : is_Some (d' !! t)) by (destruct Hleft as (_ & H & _); auto).
  destruct (index_init_fails self
              (State (Sqlite d') (Some (Sqlite d')) (removable s) (trace s ++ logs))
              d' t Hp eq_refl (left_over_stale d d' Hleft Hstale) Ht' Hlike Hbad
              (left_over_names d d' Hleft Hall))
    as (d'' & logs' & Hrun' & _).
  do 2 eexists. split; [exact Hrun|]. simpl.
  split; [reflexivity|]. split; [reflexivity|]. split; [exact Ht'|].
  split; [destruct Hleft as (H & _); exact H|].
  split; [exact (left_over_stale d d' Hleft Hstale)|].
  split; [destruct Hlogs as [-> | ->]; auto|].
  now rewrite Hrun'.
Qed.

End Opening.

(** ** Updating single files *)

Section UpdateFileMore.
Context {P : Pipeline}.

Lemma update_file_run (file : node) (s : state) (d : db) (c : list row)
    (op : db -> db) :
  view s = Sqlite d ->
  Sql.select_col_where "id" "files" "path" (VText (relpath file)) d = Ok c ->
  update_entry file c = Some op ->
  update_file file s
  = (Ok tt,
     State (Sqlite (updated op d)) (Some (Sqlite (updated op d))) (removable s)
       (trace s ++ update_events)).
Proof.
  intros Hv Hrow Hop. unfold update_file.
  erewrite bind_ok by (rewrite (query_run _ s d Hv), Hrow; reflexivity).
  assert (Hguard : bool_decide (head c = None) && negb (exists_ file) = false).
  { unfold update_entry in Hop. destruct c as [|r c]; [|reflexivity].
    destruct (kind file); try discriminate.
    destruct (exists_ file); [reflexivity|discriminate]. }
  rewrite Hguard.
  erewrite bind_ok.
  2:{ unfold files_emit. erewrite bind_ok by reflexivity.
      apply call_run. exact Hv. }
  assert (Hcall : forall s0 d0, view s0 = Sqlite d0 ->
            match head c with
            | Some r =>
                match kind file with
                | IsFile =>
                    if exists_ file
                    then call (fun d => (tt, files_update_file (cell 0 r) file d))
                    else call (fun d => (tt, files_delete_file (cell 0 r) d))
                | IsFolder =>
                    if exists_ file
                    then call (fun d => (tt, files_update_folder (cell 0 r) file d))
                    else call (fun d => (tt, files_delete_folder (cell 0 r) d))
                | IsOther => raise TypeError
                end
            | None =>
                match kind file with
                | IsFile => call (fun d => (tt, files_interactive_add_file file d))
                | IsFolder => raise ValueError
                | IsOther => raise TypeError
                end
            end s0 = (Ok tt, set_view (Sqlite (op d0)) s0)).
  { intros s0 d0 Hv0. unfold update_entry in Hop.
    destruct c as [|r c]; simpl; destruct (kind file); try discriminate;
      destruct (exists_ file); try discriminate;
      injection Hop as <-; rewrite (call_run _ s0 d0 Hv0); reflexivity. }
  erewrite bind_ok by (apply Hcall; reflexivity).
  erewrite bind_ok.
  2:{ unfold files_emit. erewrite bind_ok by reflexivity.
      apply call_run. reflexivity. }
  erewrite bind_ok by reflexivity.
  unfold on_commit, emit, note, record, updated, update_events. simpl.
  now rewrite <- !app_assoc.
Qed.

(** X9: whenever [update_file] finds something to do for a File or a
    Folder (a row to update or delete, or a new existing File to add),
    it calls that one entry point of the files indexer between the
    ["start-update"] and ["finish-update"] signals, commits once and
    then signals ["changed"], in this order; the store then holds what
    the connection sees. *)
Theorem update_file_commits_once (file : node) (s : state) (d : db)
    (c : list row) (op : db -> db) :
  view s = Sqlite d ->
  Sql.select_col_where "id" "files" "path" (VText (relpath file)) d = Ok c ->
  update_entry file c = Some op ->
  exists s',
    update_file file s = (Ok tt, s') /\
    view s' = Sqlite (updated op d) /\
    store s' = Some (view s') /\
    trace s' = trace s ++ update_events /\
    count_occ event_eq_dec update_events Commit = 1%nat.
Proof.
  intros Hv Hrow Hop. eexists. split.
  - apply (update_file_run file s d c op Hv Hrow Hop).
  - simpl. repeat split.
Qed.

(** X10: [update_file] for a Folder that exists in storage and has no
    row raises [ValueError] after the ["start-update"] signal and before
    any commit: the trace gains that one event and the store is as it
    was. *)
Theorem update_file_new_folder (file : node) (s : state) (d : db) :
  kind file = IsFolder -> exists_ file = true ->
  view s = Sqlite d ->
  Sql.select_col_where "id" "files" "path" (VText (relpath file)) d = Ok [] ->
  update_file file s
  = (Raise ValueError,
     State (Sqlite (files_listeners "start-update" d)) (store s) (removable s)
       (trace s ++ [Emit TheFilesIndexer "start-update"])).
Proof.
  intros Hk Hex Hv Hrow. unfold update_file.
  erewrite bind_ok by (rewrite (query_run _ s d Hv), Hrow; reflexivity).
  simpl. rewrite Hex. simpl.
  erewrite bind_ok.
  2:{ unfold files_emit. erewrite bind_ok by reflexivity.
      apply call_run. exact Hv. }
  rewrite Hk. reflexivity.
Qed.

(** X11: [file_moved] of a File is two updates with a commit each: when
    both find something to do, the trace gains the events of a
    successful [update_file] twice, and the second update starts from
    the tables that the first has committed. *)
Theorem file_moved_commits_twice (fuel : nat) (it : IndexUpdateIter)
    (oldfile newfile : node) (s : state) (d : db) (c c' : list row)
    (op op' : db -> db) :
  kind oldfile = IsFile ->
  view s = Sqlite d ->
  Sql.select_col_where "id" "files" "path" (VText (relpath oldfile)) d = Ok c ->
  update_entry oldfile c = Some op ->
  Sql.select_col_where "id" "files" "path" (VText (relpath newfile))
    (updated op d) = Ok c' ->
  update_entry newfile c' = Some op' ->
  file_moved fuel it oldfile newfile s
  = (Ok true,
     State (Sqlite (updated op' (updated op d)))
       (Some (Sqlite (updated op' (updated op d)))) (removable s)
       (trace s ++ update_events ++ update_events)).
Proof.
  intros Hk Hv Hrow Hop Hrow' Hop'. unfold file_moved. rewrite Hk.
  erewrite bind_ok by (apply (update_file_run oldfile s d c op Hv Hrow Hop)).
  erewrite bind_ok
    by (apply (update_file_run newfile
                 (State (Sqlite (updated op d)) (Some (Sqlite (updated op d)))
                    (removable s) (trace s ++ update_events))
                 (updated op d) c' op' eq_refl Hrow' Hop')).
  simpl. now rewrite <- app_assoc.
Qed.

(** X12: [file_moved] is not atomic, and it looks at the kind of
    [oldfile] only.  With [oldfile] a File that is updated and a
    [newfile] that is neither File nor Folder (with a row, or existing),
    the update of [oldfile] is committed and signalled, and then
    [TypeError] is raised out of the update of [newfile], after its
    ["start-update"]. *)
Theorem file_moved_half_done (fuel : nat) (it : IndexUpdateIter)
    (oldfile newfile : node) (s : state) (d : db) (c c' : list row)
    (op : db -> db) :
  kind oldfile = IsFile -> kind newfile = IsOther ->
  view s = Sqlite d ->
  Sql.select_col_where "id" "files" "path" (VText (relpath oldfile)) d = Ok c ->
  update_entry oldfile c = Some op ->
  Sql.select_col_where "id" "files" "path" (VText (relpath newfile))
    (updated op d) = Ok c' ->
  c' <> [] \/ exists_ newfile = true ->
  file_moved fuel it oldfile newfile s
  = (Raise TypeError,
     State (Sqlite (files_listeners "start-update" (updated op d)))
       (Some (Sqlite (updated op d))) (removable s)
       (trace s ++ update_events ++ [Emit TheFilesIndexer "start-update"])).
Proof.
  intros Hk Hk' Hv Hrow Hop Hrow' Hsome. unfold file_moved. rewrite Hk.
  erewrite bind_ok by (apply (update_file_run oldfile s d c op Hv Hrow Hop)).
  erewrite bind_raise.
  2:{ unfold update_file.
      erewrite bind_ok by (erewrite query_run by reflexivity; rewrite Hrow'; reflexivity).
      assert (Hguard : bool_decide (head c' = None) && negb (exists_ newfile) = false).
      { destruct Hsome as [Hc|Hex].
        - destruct c'; [contradiction|]. reflexivity.
        - rewrite Hex. apply andb_false_r. }
      rewrite Hguard.
      erewrite bind_ok.
      2:{ unfold files_emit. erewrite bind_ok by reflexivity.
          apply call_run. reflexivity. }
      rewrite Hk'. simpl. destruct (head c'); reflexivity. }
  unfold set_view, record. cbn [view store removable trace].
  now rewrite <- app_assoc.
Qed.

End UpdateFileMore.

(** ** The other ways to drive an update *)

Section UpdateIterMore.
Context {P : Pipeline}.

Lemma finish_with {A} (it : IndexUpdateIter) (x : A) (s : state) (d : db) :
  view s = Sqlite d ->
  (commit;; emit_commit it;; mret x) s
  = (Ok x, State (Sqlite d) (Some (Sqlite d)) (removable s)
             (trace s ++ final_events it)).
Proof.
  intros Hv. erewrite bind_ok by reflexivity.
  unfold emit_commit. erewrite bind_ok.
  2:{ erewrite bind_ok by reflexivity. apply handlers_run. }
  simpl. rewrite Hv. unfold mret, M_ret, final_events.
  now rewrite <- !app_assoc.
Qed.

Lemma pull_update_run (u : updater) (s : state) (d : db) :
  view s = Sqlite d ->
  pull_update u s
  = (Ok (update_next u d).1,
     State (Sqlite (update_next u d).2) (store s) (removable s)
       (trace s ++ [UpdatePulled (bool_decide (is_Some (update_next u d).1))])).
Proof.
  intros Hv. unfold pull_update.
  erewrite bind_ok by (apply call_run; exact Hv).
  erewrite bind_ok by reflexivity. reflexivity.
Qed.

Lemma resume_iter_run (it : IndexUpdateIter) (u : updater) (s : state) (d : db) :
  view s = Sqlite d ->
  resume_iter it u s =
  match update_next u d with
  | (Some u', d') =>
      (Ok (Some (IterUpdating u')),
       State (Sqlite d') (store s) (removable s)
         (trace s ++ [UpdatePulled true]))
  | (None, d') =>
      (Ok None,
       State (Sqlite d') (Some (Sqlite d')) (removable s)
         (trace s ++ UpdatePulled false :: final_events it))
  end.
Proof.
  intros Hv. unfold resume_iter.
  erewrite bind_ok by (apply pull_update_run; exact Hv).
  destruct (update_next u d) as [[u'|] d']; simpl.
  - reflexivity.
  - erewrite finish_with by reflexivity. simpl. now rewrite <- app_assoc.
Qed.

Lemma iter_next_run (it : IndexUpdateIter) (g : iter_pc) (s : state) (d : db) :
  view s = Sqlite d -> g <> IterDone ->
  exists u pre,
    iter_next it g s
    = resume_iter it u (State (view s) (store s) (removable s) (trace s ++ pre)) /\
    forallb is_pull pre = true /\
    forall m, iter_rest it g m = pre ++ pass m ++ final_events it.
Proof.
  intros Hv Hg. destruct g as [|u|]; [| |contradiction].
  - exists files_update_iter, [UpdateIterCalled]. split; [|split; reflexivity].
    simpl. erewrite bind_ok by reflexivity. reflexivity.
  - exists u, []. split; [|split; reflexivity].
    simpl. now rewrite app_nil_r, state_eta.
Qed.

Lemma iter_pulls_end (it : IndexUpdateIter) (n : nat) :
  forall g s s' d m,
    view s = Sqlite d -> g <> IterDone ->
    iter_pulls n it g s = (Ok (m, None), s') ->
    store s' = Some (view s') /\ (exists d', view s' = Sqlite d') /\
    trace s' = trace s ++ iter_rest it g m.
Proof.
  induction n as [|n IH]; intros g s s' d m Hv Hg Hrun; [discriminate|].
  simpl in Hrun. unfold mbind, M_bind in Hrun.
  destruct (iter_next_run it g s d Hv Hg) as (u & pre & Hnext & _ & Hrest).
  rewrite Hnext,
    (resume_iter_run it u
       (State (view s) (store s) (removable s) (trace s ++ pre)) d Hv) in Hrun.
  simpl in Hrun. rewrite Hrest.
  destruct (update_next u d) as [[u'|] d'].
  - destruct (iter_pulls n it (IterUpdating u') _) as [[[m' o]|e] s2] eqn:Hp;
      [|discriminate].
    simpl in Hrun. injection Hrun as <- -> <-.
    apply IH with (d := d') in Hp; [|reflexivity|discriminate].
    destruct Hp as (Hst & Hd & Ht). repeat split; auto.
    rewrite Ht. simpl. unfold pass. simpl. now rewrite <- !app_assoc.
  - injection Hrun as <- <-. simpl. repeat split; eauto.
    unfold pass. simpl. now rewrite <- !app_assoc.
Qed.

Lemma iter_pulls_markers (it : IndexUpdateIter) (n : nat) :
  forall g g' s s' d m,
    view s = Sqlite d ->
    iter_pulls n it g s = (Ok (m, Some g'), s') ->
    m = n /\ store s' = store s /\
    exists t, trace s' = trace s ++ t /\ forallb is_pull t = true.
Proof.
  induction n as [|n IH]; intros g g' s s' d m Hv Hrun.
  - injection Hrun as <- <- <-. repeat split. exists []. now rewrite app_nil_r.
  - assert (Hg : g <> IterDone) by (intros ->; discriminate).
    simpl in Hrun. unfold mbind, M_bind in Hrun.
    destruct (iter_next_run it g s d Hv Hg) as (u & pre & Hnext & Hpre & _).
    rewrite Hnext,
      (resume_iter_run it u
         (State (view s) (store s) (removable s) (trace s ++ pre)) d Hv) in Hrun.
    simpl in Hrun.
    destruct (update_next u d) as [[u'|] d']; [|discriminate].
    destruct (iter_pulls n it (IterUpdating u') _) as [[[m' o]|e] s2] eqn:Hp;
      [|discriminate].
    simpl in Hrun. injection Hrun as <- -> <-.
    apply IH with (d := d') in Hp; [|reflexivity].
    destruct Hp as (-> & Hst & t & Ht & Hq). repeat split; auto.
    exists (pre ++ [UpdatePulled true] ++ t).
    rewrite Ht. simpl. rewrite <- !app_assoc. split; [reflexivity|].
    rewrite forallb_app, Hpre. simpl. exact Hq.
Qed.

Lemma iter_new_unfold (it : IndexUpdateIter) (n : nat) (s : state) :
  iter_pulls (S n) it IterNew s
  = iter_pulls (S n) it (IterUpdating files_update_iter) (record UpdateIterCalled s).
Proof.
  simpl. unfold mbind at 1, M_bind at 1. unfold mbind at 3, M_bind at 3.
  simpl. erewrite (bind_ok (note UpdateIterCalled)) by reflexivity. reflexivity.
Qed.

(** The loop of [update] makes the pulls that [__iter__] makes. *)
Lemma update_loop_is_iter (it : IndexUpdateIter) (n : nat) :
  forall u s s' d m,
    view s = Sqlite d ->
    iter_pulls n it (IterUpdating u) s = (Ok (m, None), s') ->
    exists s0 d0,
      update_loop (S m) u s = (Ok true, s0) /\ view s0 = Sqlite d0 /\
      s' = State (Sqlite d0) (Some (Sqlite d0)) (removable s0)
             (trace s0 ++ final_events it).
Proof.
  induction n as [|n IH]; intros u s s' d m Hv Hrun; [discriminate|].
  simpl in Hrun. unfold mbind, M_bind in Hrun.
  rewrite (resume_iter_run it u s d Hv) in Hrun.
  change (update_loop (S m) u s)
    with ((pull_update u ≫= fun r => match r with
                                     | Some u' => update_loop m u'
                                     | None => mret true
                                     end) s).
  erewrite bind_ok by (apply pull_update_run; exact Hv).
  destruct (update_next u d) as [[u'|] d']; simpl.
  - destruct (iter_pulls n it (IterUpdating u') _) as [[[m' o]|e] s2] eqn:Hp;
      [|discriminate].
    simpl in Hrun. injection Hrun as <- -> <-.
    apply IH with (d := d') in Hp; [|reflexivity].
    exact Hp.
  - injection Hrun as <- <-. do 2 eexists. split; [reflexivity|].
    split; [reflexivity|]. simpl. now rewrite <- app_assoc.
Qed.

Lemma update_run_of_iter (it : IndexUpdateIter) (n m : nat) (s s' : state) (d : db) :
  view s = Sqlite d ->
  iter_pulls n it IterNew s = (Ok (m, None), s') ->
  IndexUpdateIter_update (S m) it s = (Ok true, s').
Proof.
  intros Hv Hrun. destruct n as [|n]; [discriminate|].
  rewrite iter_new_unfold in Hrun.
  destruct (update_loop_is_iter it (S n) files_update_iter
              (record UpdateIterCalled s) s' d m Hv Hrun)
    as (s0 & d0 & Hloop & Hv0 & ->).
  unfold IndexUpdateIter_update.
  erewrite bind_ok by reflexivity.
  erewrite bind_ok by exact Hloop.
  apply (finish_with it true s0 d0 Hv0).
Qed.

Lemma iter_halts {F : Finite P} (it : IndexUpdateIter) (N : nat) :
  forall u s d, (upd_size u d < N)%nat -> view s = Sqlite d ->
    exists n m s', iter_pulls n it (IterUpdating u) s = (Ok (m, None), s').
Proof.
  induction N as [|N IH]; intros u s d HN Hv; [lia|].
  pose proof (resume_iter_run it u s d Hv) as Hr.
  destruct (update_next u d) as [[u'|] d'] eqn:Hnext.
  - apply upd_decr in Hnext.
    destruct (IH u' (State (Sqlite d') (store s) (removable s)
                       (trace s ++ [UpdatePulled true])) d')
      as (n & m & s' & Hn); [lia|reflexivity|].
    exists (S n), (S m), s'. simpl. erewrite bind_ok by exact Hr.
    cbv beta iota. now erewrite bind_ok by exact Hn.
  - exists 1%nat, O. eexists. simpl. erewrite bind_ok by exact Hr. reflexivity.
Qed.

(** X13: [IndexUpdateIter.__iter__] gives one marker for each item that
    the update pass of the files indexer updates, and commits and
    signals once, when the pass is exhausted, also when it had nothing
    to do.  As long as the caller has only received markers the store
    is what it was; and with a finite update pass the end is reached. *)
Theorem iter_commits_at_the_end {F : Finite P} (it : IndexUpdateIter)
    (s : state) (d : db) :
  view s = Sqlite d ->
  (forall n m g s',
      iter_pulls n it IterNew s = (Ok (m, Some g), s') ->
      m = n /\ store s' = store s /\
      exists t, trace s' = trace s ++ t /\ forallb is_pull t = true) /\
  (forall n m s',
      iter_pulls n it IterNew s = (Ok (m, None), s') ->
      store s' = Some (view s') /\
      trace s' = trace s ++ UpdateIterCalled :: pass m ++ final_events it) /\
  (exists n m s', iter_pulls n it IterNew s = (Ok (m, None), s')).
Proof.
  intros Hv. split; [|split].
  - intros n m g s' Hrun. apply (iter_pulls_markers it n _ _ _ _ d _ Hv Hrun).
  - intros n m s' Hrun.
    destruct (iter_pulls_end it n IterNew s s' d m Hv) as (Hst & _ & Ht);
      [discriminate|exact Hrun|].
    auto.
  - destruct (iter_halts it (S (upd_size files_update_iter d)) files_update_iter
                (record UpdateIterCalled s) d) as (n & m & s' & Hn);
      [lia|exact Hv|].
    destruct n as [|n]; [discriminate|].
    exists (S n), m, s'. now rewrite iter_new_unfold.
Qed.

(** X14: [IndexUpdateIter.update()] is [__iter__] driven to its end: it
    ends in the very state in which a caller ends who pulls [__iter__]
    until [StopIteration]; with a finite update pass it returns, having
    committed and signalled once after the last pull. *)
Theorem update_is_drained_iter {F : Finite P} (it : IndexUpdateIter)
    (s : state) (d : db) :
  view s = Sqlite d ->
  (forall n m s',
      iter_pulls n it IterNew s = (Ok (m, None), s') ->
      IndexUpdateIter_update (S m) it s = (Ok true, s')) /\
  (exists fuel k s',
      IndexUpdateIter_update fuel it s = (Ok true, s') /\
      store s' = Some (view s') /\
      trace s' = trace s ++ UpdateIterCalled :: pass k ++ final_events it).
Proof.
  intros Hv. split.
  - intros n m s' Hrun. apply (update_run_of_iter it n m s s' d Hv Hrun).
  - destruct (iter_halts it (S (upd_size files_update_iter d)) files_update_iter
                (record UpdateIterCalled s) d) as (n & m & s' & Hn);
      [lia|exact Hv|].
    destruct n as [|n]; [discriminate|].
    rewrite <- iter_new_unfold in Hn.
    destruct (iter_pulls_end it (S n) IterNew s s' d m Hv) as (Hst & _ & Ht);
      [discriminate|exact Hn|].
    exists (S m), m, s'. split; [|auto].
    apply (update_run_of_iter it (S n) m s s' d Hv Hn).
Qed.

(** X15: [Index.check_and_update()] drives the whole of
    [check_and_update_iter()] inside the lock: with finite sibling
    generators it returns, and what it leaves in the trace is the
    acquisition of the lock, the items of the run, the one commit with
    its signal, and the release. *)
Theorem check_and_update_locked {F : Finite P} (it : IndexUpdateIter)
    (s : state) (d : db) :
  view s = Sqlite d ->
  exists fuel bs s',
    Index_check_and_update fuel it s = (Ok true, s') /\
    store s' = Some (view s') /\
    trace s' = trace s ++ Acquire :: blocks bs ++ closing it ++ [Release].
Proof.
  intros Hv.
  destruct (pulls_halt it (check_and_update_iter None) (record Acquire s) d Hv)
    as (n & m & s1 & Hn).
  assert (Hne : check_and_update_iter None <> CauDone) by discriminate.
  destruct (pulls_shape it n _ (record Acquire s) s1 d m Hv Hne Hn)
    as (t & Ht & (bs & -> & _) & Hst & _).
  exists n, bs. eexists. split.
  - unfold Index_check_and_update, with_lock.
    erewrite bind_ok by reflexivity.
    unfold try_finally, IndexUpdateIter_check_and_update.
    erewrite bind_ok by exact Hn. reflexivity.
  - simpl. split; [exact Hst|].
    rewrite Ht. simpl. now rewrite <- !app_assoc.
Qed.

Lemma count_pass (e : event) (k : nat) :
  e <> UpdatePulled true -> e <> UpdatePulled false ->
  count_occ event_eq_dec (pass k) e = O.
Proof.
  intros H1 H2. apply count_occ_not_In. unfold pass. intros Hin.
  apply in_app_iff in Hin as [Hin|[Hin|[]]].
  - apply repeat_spec in Hin. congruence.
  - congruence.
Qed.

Lemma blocks_cons (o : option nat) (bs : list (option nat)) :
  blocks (o :: bs) = block o ++ blocks bs.
Proof. reflexivity. Qed.

Lemma count_blocks (bs : list (option nat)) :
  count_occ event_eq_dec (blocks bs) UpdateIterCalled
  = count_occ event_eq_dec (blocks bs) (CheckerPulled (Some true)).
Proof.
  induction bs as [|[k|] bs IH]; [reflexivity| |];
    rewrite blocks_cons, !count_occ_app, IH; apply Nat.add_cancel_r; unfold block.
  - repeat first [rewrite count_occ_cons_eq by reflexivity
                  |rewrite count_occ_cons_neq by discriminate].
    now rewrite !count_pass by discriminate.
  - now rewrite !count_occ_cons_neq by discriminate.
Qed.

(** X16: in a run of [check_and_update_iter] that is driven to its end,
    the files indexer is asked for an update pass exactly as many times
    as the checker reported an item out of date; when the checker
    reported none, it is not asked at all. *)
Theorem one_pass_per_stale_item (it : IndexUpdateIter) (file : option node)
    (s s' : state) (d : db) (n m : nat) :
  view s = Sqlite d ->
  pulls n it (check_and_update_iter file) s = (Ok (m, None), s') ->
  exists t,
    trace s' = trace s ++ t /\
    count_occ event_eq_dec t UpdateIterCalled
    = count_occ event_eq_dec t (CheckerPulled (Some true)) /\
    (~ In (CheckerPulled (Some true)) t -> ~ In UpdateIterCalled t).
Proof.
  intros Hv Hrun.
  assert (Hne : check_and_update_iter file <> CauDone) by discriminate.
  destruct (pulls_shape it n _ _ _ d _ Hv Hne Hrun)
    as (t & Ht & (bs & -> & _) & _).
  assert (Hcount : count_occ event_eq_dec (blocks bs ++ closing it) UpdateIterCalled
                   = count_occ event_eq_dec (blocks bs ++ closing it)
                       (CheckerPulled (Some true))).
  { rewrite !count_occ_app, count_blocks. f_equal.
    unfold closing. rewrite !count_occ_cons_neq by discriminate.
    destruct (final_events_once it) as [_ _].
    unfold final_events. rewrite !count_occ_cons_neq by discriminate.
    transitivity O; [|symmetry];
      apply count_occ_not_In; intros Hin;
      apply in_map_iff in Hin as (h & Hh & _); discriminate. }
  exists (blocks bs ++ closing it). split; [exact Ht|]. split; [exact Hcount|].
  intros Hno Hin.
  apply (count_occ_not_In event_eq_dec) in Hno.
  apply (count_occ_In event_eq_dec) in Hin. lia.
Qed.

End UpdateIterMore.

(** ** After an update, after a touch *)

Section AfterUpdate.
Context {P : Pipeline}.

Lemma update_loop_clean (st : Z) (inv : db -> Prop) (fuel : nat) :
  pass_ends_clean st inv ->
  forall u s s' d,
    view s = Sqlite d -> inv d ->
    update_loop fuel u s = (Ok true, s') ->
    exists d', view s' = Sqlite d' /\
               Sql.select_where "files" "index_status" (VInt st) d' = Ok [].
Proof.
  intros [Hinv Hclean].
  induction fuel as [|fuel IH]; intros u s s' d Hv Hd Hrun; [discriminate|].
  simpl in Hrun. unfold mbind, M_bind in Hrun.
  rewrite (pull_update_run u s d Hv) in Hrun.
  pose proof (Hinv u d Hd) as Hd'. pose proof (Hclean u d) as Hc.
  destruct (update_next u d) as [[u'|] d']; simpl in *.
  - eapply (IH u' _ s' d'); [|exact Hd'|exact Hrun]. reflexivity.
  - injection Hrun as <-. exists d'. split; [reflexivity|]. now apply Hc.
Qed.

(** X17: when [IndexUpdateIter.update()] has returned, [is_uptodate] is
    true, provided the update pass of the files indexer ends only when
    no row is flagged NEED_UPDATE any more. *)
Theorem uptodate_after_update (st : Z) (inv : db -> Prop) (fuel : nat)
    (it : IndexUpdateIter) (s s' : state) (d : db) :
  pass_ends_clean st inv ->
  view s = Sqlite d -> inv d ->
  IndexUpdateIter_update fuel it s = (Ok true, s') ->
  is_uptodate st s' = (Ok true, s').
Proof.
  intros Hpc Hv Hd Hrun. unfold IndexUpdateIter_update in Hrun.
  erewrite bind_ok in Hrun by reflexivity.
  unfold mbind at 1, M_bind at 1 in Hrun.
  destruct (update_loop fuel files_update_iter (record UpdateIterCalled s))
    as [[[|]|e] s0] eqn:Hloop; try discriminate.
  destruct (update_loop_clean st inv fuel Hpc files_update_iter
              (record UpdateIterCalled s) s0 d Hv Hd Hloop)
    as (d' & Hv' & Hsel).
  rewrite (finish_with it true s0 d' Hv') in Hrun. injection Hrun as <-.
  unfold is_uptodate.
  erewrite bind_ok by (erewrite query_run by reflexivity; rewrite Hsel; reflexivity).
  reflexivity.
Qed.

Context {C : Placeholders P}.

Lemma touch_result (path : Path) (s : state) (d : db) (lt pt : table) :
  view s = Sqlite d ->
  d !! "links" = Some lt -> links_table lt ->
  d !! "pages" = Some pt -> In "name" (cols pt) ->
  touch_current_page_placeholder path s
  = (Ok tt,
     State (Sqlite (touched path d)) (Some (Sqlite (touched path d)))
       (removable s)
       (trace s ++ [Acquire; Commit; Emit TheIndex "changed"; Release])) /\
  exists ps, cleanup_placeholders (without_anchors d) !! "pages"
             = Some (with_rows pt ps).
Proof.
  intros Hv Hl Hlt Hp Hname.
  pose proof Hlt as [Hcols Huniq].
  set (cleaned := cleanup_placeholders (without_anchors d)).
  set (rs1 := List.filter (fun r => negb (sql_eq (cell 0 r) (VInt ROOT_ID))) (rows lt)).
  assert (Hdel : Sql.delete_where "links" "source" (VInt ROOT_ID) d
                 = Ok (<["links" := with_rows lt rs1]> d)).
  { unfold Sql.delete_where. rewrite Hl, Hcols. reflexivity. }
  assert (Hwa : without_anchors d = <["links" := with_rows lt rs1]> d).
  { unfold without_anchors. now rewrite Hdel. }
  destruct (cleanup_links (without_anchors d) (with_rows lt rs1))
    as (rs2 & Hl2 & Hsub).
  { rewrite Hwa. apply lookup_insert_eq. }
  destruct (cleanup_pages (without_anchors d) pt) as (ps2 & Hp2).
  { rewrite Hwa. now rewrite lookup_insert_ne. }
  fold cleaned in Hl2, Hp2. simpl in Hl2, Hsub.
  change (with_rows (with_rows lt rs1) rs2) with (with_rows lt rs2) in Hl2.
  assert (Hnoroot : forall r, In r rs2 -> sql_eq (cell 0 r) (VInt ROOT_ID) = false).
  { intros r Hr. apply Hsub in Hr. unfold rs1 in Hr.
    apply filter_In in Hr as [_ Hr]. now apply negb_true_iff in Hr. }
  destruct (col_index "name" (cols pt)) as [i|] eqn:Hi.
  2:{ apply col_index_In in Hname as [j Hj]. congruence. }
  set (c := List.filter (fun r => sql_eq (cell i r) (VText (name path))) ps2).
  assert (Hsel : Sql.select_where "pages" "name" (VText (name path)) cleaned = Ok c).
  { unfold Sql.select_where. rewrite Hp2. simpl. now rewrite Hi. }
  assert (Hhas : has_page cleaned (name path) = bool_decide (head c <> None)).
  { unfold has_page. rewrite Hsel. now destruct c. }
  split; [|now exists ps2].
  unfold touched. fold cleaned.
  unfold touch_current_page_placeholder, with_lock.
  erewrite bind_ok by reflexivity. unfold try_finally.
  erewrite bind_ok.
  2:{ unfold execute. simpl. rewrite Hv, Hdel. reflexivity. }
  erewrite bind_ok.
  2:{ apply call_run. reflexivity. }
  simpl. rewrite <- Hwa. fold cleaned.
  erewrite bind_ok.
  2:{ erewrite query_run by reflexivity. rewrite Hsel. reflexivity. }
  rewrite Hhas. destruct (head c) as [r0|] eqn:Hhead.
  - rewrite bool_decide_eq_true_2 by discriminate.
    erewrite bind_ok by reflexivity.
    erewrite bind_ok by reflexivity. unfold record. simpl.
    now rewrite <- !app_assoc.
  - rewrite bool_decide_eq_false_2 by (intros H; now apply H).
    destruct (insert_link_placeholder path cleaned) as [pid d3] eqn:Hins.
    pose proof (insert_links path cleaned) as Hl3.
    rewrite Hins in Hl3. simpl in Hl3. rewrite Hl2 in Hl3.
    assert (Hinsr : Sql.insert_named "links" ["source"; "target"; "rel"; "names"]
                      (anchor_to path pid) d3
                    = Ok (<["links" := with_rows lt (rs2 ++ [anchor_to path pid])]> d3)).
    { unfold Sql.insert_named, Sql.insert_values. rewrite Hl3. simpl.
      rewrite Hcols. simpl.
      rewrite (no_conflict_with_anchor lt rs2); [reflexivity|exact Hlt|].
      intros r' Hr'. simpl. now apply Hnoroot. }
    rewrite Hinsr. unfold anchor_to in Hinsr.
    erewrite bind_ok.
    2:{ erewrite bind_ok.
        2:{ erewrite call_run by reflexivity. rewrite Hins. reflexivity. }
        unfold execute. simpl. rewrite Hinsr. reflexivity. }
    erewrite bind_ok by reflexivity. unfold record. simpl.
    now rewrite <- !app_assoc.
Qed.

(** X18: after [touch_current_page_placeholder(path)] the pages table
    has a row for [path]: the one that was there, when cleanup left
    one, or else the placeholder that the pages indexer has inserted
    (provided that its insertion makes a row of that name); the call
    has committed once and signalled ["changed"]. *)
Theorem touch_makes_page (path : Path) (s : state) (d : db) (lt pt : table) :
  (forall d0 ps, d0 !! "pages" = Some (with_rows pt ps) ->
                 has_page (insert_link_placeholder path d0).2 (name path) = true) ->
  view s = Sqlite d ->
  d !! "links" = Some lt -> links_table lt ->
  d !! "pages" = Some pt -> In "name" (cols pt) ->
  exists s' d',
    touch_current_page_placeholder path s = (Ok tt, s') /\
    view s' = Sqlite d' /\ store s' = Some (Sqlite d') /\
    trace s' = trace s ++ [Acquire; Commit; Emit TheIndex "changed"; Release] /\
    has_page d' (name path) = true.
Proof.
  intros Hmk Hv Hl Hlt Hp Hname.
  destruct (touch_result path s d lt pt Hv Hl Hlt Hp Hname) as [Hrun [ps Hps]].
  do 2 eexists. split; [exact Hrun|]. simpl. repeat split.
  unfold touched.
  destruct (has_page (cleanup_placeholders (without_anchors d)) (name path)) eqn:Hhas;
    [exact Hhas|].
  specialize (Hmk _ ps Hps).
  pose proof (insert_links path (cleanup_placeholders (without_anchors d))) as Hl3.
  destruct (insert_link_placeholder path _) as [pid d3]. simpl in *.
  unfold Sql.insert_named.
  destruct (d3 !! "links") as [tb|] eqn:Htb; [|exact Hmk].
  destruct (_ && _); [|exact Hmk].
  unfold Sql.insert_values. rewrite Htb.
  destruct (Nat.eqb _ _); [|exact Hmk].
  destruct (existsb _ _); [exact Hmk|].
  now rewrite has_page_other_table by discriminate.
Qed.

End AfterUpdate.

Section TouchErrors.
Context {P : Pipeline}.

(** X19: on a cache without a links table
    [touch_current_page_placeholder] raises [sqlite3.OperationalError]
    out of its first statement; the lock is released again, and nothing
    is cleaned up, inserted, committed or signalled. *)
Theorem touch_without_links (path : Path) (s : state) (d : db) :
  view s = Sqlite d -> d !! "links" = None ->
  touch_current_page_placeholder path s
  = (Raise OperationalError,
     State (Sqlite d) (store s) (removable s) (trace s ++ [Acquire; Release])).
Proof.
  intros Hv Hl. unfold touch_current_page_placeholder, with_lock.
  erewrite bind_ok by reflexivity. unfold try_finally.
  erewrite bind_raise.
  2:{ unfold execute, Sql.delete_where. simpl. rewrite Hv, Hl. reflexivity. }
  unfold note, record. simpl. rewrite Hv. now rewrite <- app_assoc.
Qed.

End TouchErrors.

(** ** The reference pipeline, once more *)


Lemma update_first_none (rs : list row) :
  Reference.update_first rs = None ->
  List.filter (fun r => sql_eq (cell 2 r) (VInt Reference.STATUS_NEED_UPDATE)) rs = [].
Proof.
  induction rs as [|r rs IH]; simpl; [reflexivity|].
  destruct (sql_eq (cell 2 r) (VInt Reference.STATUS_NEED_UPDATE)); [discriminate|].
  destruct (Reference.update_first rs); [discriminate|]. auto.
Qed.

Lemma reference_pass_ends_clean (tree : list (string * bool)) :
  @pass_ends_clean (Reference.pipeline tree) Reference.STATUS_NEED_UPDATE
    reference_files.
Proof.
  split.
  - intros u d (tb & Htb & Hcols). simpl. unfold Reference.update_next.
    rewrite Htb. destruct (Reference.update_first (rows tb)); simpl.
    + exists (with_rows tb l). split; [apply lookup_insert_eq|exact Hcols].
    + exists tb. auto.
  - intros u d d' (tb & Htb & Hcols). simpl. unfold Reference.update_next.
    rewrite Htb. destruct (Reference.update_first (rows tb)) eqn:Hu; [discriminate|].
    intros [= <-]. unfold Sql.select_where. rewrite Htb, Hcols. simpl.
    now rewrite update_first_none.
Qed.

Lemma reference_insert_makes_page (tree : list (string * bool)) (path : Path)
    (d : db) (uq : list (list string)) (ps : list row) :
  d !! "pages" = Some (Table ["id"; "name"; "is_link_placeholder"] uq ps) ->
  has_page (@insert_link_placeholder (Reference.pipeline tree) path d).2 (name path)
  = true.
Proof.
  intros Hp. simpl. unfold Reference.insert_link_placeholder. simpl.
  unfold has_page, Sql.select_where.
  rewrite (on_table_lookup _ _ _ _ Hp). simpl.
  rewrite List.filter_app. simpl. rewrite String.eqb_refl.
  now destruct (List.filter _ ps).
Qed.

(** ** Moving a folder *)

Section FolderMoved.
Context {P : Pipeline} {F : Finite P}.

Lemma no_lock_in_blocks (bs : list (option nat)) :
  ~ In Acquire (blocks bs) /\ ~ In Release (blocks bs).
Proof.
  assert (H : forall e, In e (blocks bs) -> is_pull e = true).
  { intros e He. unfold blocks in He. apply in_concat in He as (l & Hl & He).
    apply in_map_iff in Hl as (o & <- & _).
    destruct o as [k|]; simpl in He.
    - destruct He as [<-|[<-|He]]; try reflexivity.
      unfold pass in He. apply in_app_iff in He as [He|[<-|[]]]; [|reflexivity].
      apply repeat_spec in He. now subst.
    - destruct He as [<-|[]]. reflexivity. }
  split; intros Hin; apply H in Hin; discriminate Hin.
Qed.

Lemma no_lock_in_closing (it : IndexUpdateIter) :
  ~ In Acquire (closing it) /\ ~ In Release (closing it).
Proof.
  unfold closing, final_events.
  split; intros [H|[H|[H|H]]]; try discriminate H;
    apply in_map_iff in H as (h & H & _); discriminate H.
Qed.

(** X20: [file_moved] of a Folder is [update_file(oldfile)], with a
    commit of its own, followed by [check_and_update(newfile)]: the
    whole of [check_and_update_iter], queued at the new folder and
    started in the state that the update of the old folder has left,
    with a second commit.  With finite sibling generators it returns;
    and unlike [Index.check_and_update] it does all this without taking
    the lock. *)
Theorem file_moved_folder (it : IndexUpdateIter) (oldfile newfile : node)
    (s : state) (d : db) (c : list row) (op : db -> db) :
  kind oldfile = IsFolder ->
  view s = Sqlite d ->
  Sql.select_col_where "id" "files" "path" (VText (relpath oldfile)) d = Ok c ->
  update_entry oldfile c = Some op ->
  (forall fuel,
      file_moved fuel it oldfile newfile s
      = IndexUpdateIter_check_and_update fuel it (Some newfile)
          (after_update op s d)) /\
  exists fuel m bs s',
    pulls fuel it (check_and_update_iter (Some newfile)) (after_update op s d)
    = (Ok (m, None), s') /\
    file_moved fuel it oldfile newfile s = (Ok true, s') /\
    store s' = Some (view s') /\
    trace s' = trace s ++ update_events ++ blocks bs ++ closing it /\
    ~ In Acquire (update_events ++ blocks bs ++ closing it) /\
    count_occ event_eq_dec (update_events ++ blocks bs ++ closing it) Commit = 2%nat.
Proof.
  intros Hk Hv Hrow Hop.
  pose proof (update_file_run oldfile s d c op Hv Hrow Hop) as Hup.
  fold (after_update op s d) in Hup.
  assert (Heq : forall fuel,
             file_moved fuel it oldfile newfile s
             = IndexUpdateIter_check_and_update fuel it (Some newfile)
                 (after_update op s d)).
  { intros fuel. unfold file_moved. rewrite Hk.
    now erewrite bind_ok by exact Hup. }
  split; [exact Heq|].
  set (s0 := after_update op s d) in *.
  destruct (pulls_halt it (check_and_update_iter (Some newfile)) s0 (updated op d) eq_refl)
    as (n & m & s1 & Hn).
  assert (Hne : check_and_update_iter (Some newfile) <> CauDone) by discriminate.
  destruct (pulls_shape it n _ s0 s1 (updated op d) m eq_refl Hne Hn)
    as (t & Ht & (bs & -> & _) & Hst & _).
  exists n, m, bs, s1. split; [exact Hn|]. split; [|split; [exact Hst|split]].
  - rewrite Heq. unfold IndexUpdateIter_check_and_update.
    erewrite bind_ok by exact Hn. reflexivity.
  - rewrite Ht. subst s0. simpl. now rewrite <- app_assoc.
  - split.
    + intros Hin. apply in_app_iff in Hin as [Hin|Hin].
      * unfold update_events in Hin.
        destruct Hin as [H|[H|[H|[H|[]]]]]; discriminate H.
      * apply in_app_iff in Hin as [Hin|Hin].
        -- now apply no_lock_in_blocks in Hin.
        -- now apply no_lock_in_closing in Hin.
    + rewrite !count_occ_app.
      assert (Hb : count_occ event_eq_dec (blocks bs) Commit = O).
      { apply count_occ_not_In. intros Hin.
        assert (is_pull Commit = true); [|discriminate].
        unfold blocks in Hin. apply in_concat in Hin as (l & Hl & He).
        apply in_map_iff in Hl as (o & <- & _).
        destruct o as [k|]; simpl in He.
        - destruct He as [He|[He|He]]; try discriminate He.
          unfold pass in He. apply in_app_iff in He as [He|[He|[]]]; [|discriminate He].
          apply repeat_spec in He. discriminate He.
        - destruct He as [He|[]]. discriminate He. }
      rewrite Hb.
      assert (Hc : count_occ event_eq_dec (closing it) Commit = 1%nat).
      { unfold closing, final_events.
        rewrite count_occ_cons_neq by discriminate.
        rewrite count_occ_cons_eq by reflexivity.
        rewrite count_occ_cons_neq by discriminate.
        f_equal. apply count_occ_not_In. intros Hin.
        apply in_map_iff in Hin as (h & H & _). discriminate H. }
      rewrite Hc.
      unfold update_events.
      repeat first [rewrite count_occ_cons_eq by reflexivity
                   |rewrite count_occ_cons_neq by discriminate].
      reflexivity.
Qed.

End FolderMoved.






(** ** The further properties on the sample notebook *)

Lemma get_property_absent_witness :
  view Sample.opened = Sqlite Sample.cache /\
  get_property "last_page" Sample.opened = (Ok VNull, Sample.opened).
Proof.
  split; [reflexivity|].
  apply (get_property_absent "last_page" Sample.opened Sample.cache eq_refl)
    with (rs := [[VText "db_version"; VText "0.7"]]); [reflexivity|].
  intros r [<-|[]]. discriminate.
Defined.

Lemma set_property_other_key_witness :
  view Sample.opened = Sqlite Sample.cache /\ property_table Sample.cache /\
  (set_property "last_page" (PText "Home") Sample.opened).1 = Ok tt /\
  (get_property "db_version"
     (set_property "last_page" (PText "Home") Sample.opened).2).1
  = (get_property "db_version" Sample.opened).1.
Proof.
  assert (Hp : property_table Sample.cache) by (eexists; reflexivity).
  assert (Hne : "db_version" <> "last_page") by discriminate.
  split; [reflexivity|]. split; [exact Hp|].
  destruct (set_property_other_key "last_page" "db_version" (PText "Home")
              Sample.opened Sample.cache eq_refl Hp Hne) as [Hok Hsame].
  split; [exact (Hok (VText "Home") eq_refl)|exact Hsame].
Defined.

Lemma set_property_keys_distinct_witness :
  view Sample.opened = Sqlite Sample.cache /\ property_table Sample.cache /\
  keys_distinct Sample.cache /\
  exists d1,
    view (set_property "db_version" (PText "0.8") Sample.opened).2 = Sqlite d1 /\
    keys_distinct d1 /\
    Sql.select_where "zim_index" "key" (VText "db_version") d1
    = Ok [[VText "db_version"; VText "0.8"]].
Proof.
  assert (Hp : property_table Sample.cache) by (eexists; reflexivity).
  assert (Hk : keys_distinct Sample.cache).
  { intros tb Htb.
    assert (E : Sample.cache !! "zim_index" = Some Sample.properties) by reflexivity.
    rewrite E in Htb. injection Htb as <-. simpl.
    constructor; [intros []|constructor]. }
  split; [reflexivity|]. split; [exact Hp|]. split; [exact Hk|].
  destruct (set_property_keys_distinct "db_version" (PText "0.8")
              Sample.opened Sample.cache eq_refl Hp Hk)
    as (d1 & Hv & _ & Hk1 & Hrow).
  exists d1. split; [exact Hv|]. split; [exact Hk1|].
  exact (proj2 (Hrow (VText "0.8") eq_refl)).
Defined.

Lemma open_valid_cache_witness :
  (new_connection Sample.on_disk false (Sample.unopened (Sqlite Sample.cache))).1
  = Ok (Sqlite Sample.cache) /\
  lookup_property "db_version" Sample.cache = Ok (VText DB_VERSION) /\
  @Index_init Sample.engine Sample.pipeline Sample.on_disk
    (Sample.unopened (Sqlite Sample.cache))
  = (Ok (MkIter [Index_on_commit]),
     State (Sqlite (Reference.create_schema Sample.cache))
       (Some (Sqlite (Reference.create_schema Sample.cache))) true []).
Proof.
  split; [reflexivity|]. split; [reflexivity|].
  apply (@open_valid_cache Sample.engine Sample.pipeline Sample.on_disk
           (Sample.unopened (Sqlite Sample.cache)) Sample.cache);
    reflexivity.
Defined.

Lemma open_fresh_cache_witness :
  dbpath Sample.in_memory = ":memory:" /\
  (@Index_init Sample.engine Sample.pipeline Sample.in_memory
     (Sample.unopened Garbage)).1
  = Ok (MkIter [Index_on_commit]) /\
  store Cases.no_file = None /\
  (@Index_init Sample.engine Sample.pipeline Sample.on_disk Cases.no_file).1
  = Ok (MkIter [Index_on_commit]).
Proof.
  split; [reflexivity|]. split.
  - rewrite (@open_fresh_cache Sample.engine sample_catalog Sample.pipeline
               Sample.in_memory (Sample.unopened Garbage) (or_introl eq_refl)).
    reflexivity.
  - split; [reflexivity|].
    rewrite (@open_fresh_cache Sample.engine sample_catalog Sample.pipeline
               Sample.on_disk Cases.no_file (or_intror eq_refl)).
    reflexivity.
Defined.

Lemma open_unreadable_file_witness :
  dbpath Sample.on_disk <> ":memory:" /\
  store (Sample.unopened Garbage) = Some Garbage /\
  exists s',
    @Index_init Sample.engine Sample.pipeline Sample.on_disk (Sample.unopened Garbage)
    = (Raise AttributeError, s') /\ store s' = Some Garbage.
Proof.
  assert (Hp : dbpath Sample.on_disk <> ":memory:") by discriminate.
  split; [exact Hp|]. split; [reflexivity|].
  destruct (@open_unreadable_file Sample.engine Sample.pipeline Sample.on_disk
              (Sample.unopened Garbage) Hp eq_refl)
    as (s' & Hrun & _ & Hst & _).
  exists s'. auto.
Defined.


Lemma update_file_commits_once_witness :
  view Sample.opened = Sqlite Sample.cache /\
  Sql.select_col_where "id" "files" "path" (VText "Home.txt") Sample.cache
  = Ok [[VInt 1]] /\
  exists s',
    @update_file Sample.pipeline Cases.home Sample.opened = (Ok tt, s') /\
    trace s' = update_events.
Proof.
  split; [reflexivity|]. split; [reflexivity|].
  destruct (@update_file_commits_once Sample.pipeline Cases.home Sample.opened
              Sample.cache [[VInt 1]] _ eq_refl eq_refl eq_refl)
    as (s' & Hrun & _ & _ & Htr & _).
  exists s'. auto.
Defined.

Lemma update_file_new_folder_witness :
  kind Cases.projects = IsFolder /\ exists_ Cases.projects = true /\
  Sql.select_col_where "id" "files" "path" (VText "Projects") Sample.cache = Ok [] /\
  (@update_file Sample.pipeline Cases.projects Sample.opened).1 = Raise ValueError.
Proof.
  split; [reflexivity|]. split; [reflexivity|]. split; [reflexivity|].
  rewrite (@update_file_new_folder Sample.pipeline Cases.projects Sample.opened
             Sample.cache eq_refl eq_refl eq_refl eq_refl).
  reflexivity.
Defined.

Lemma file_moved_commits_twice_witness :
  kind Cases.notes_gone = IsFile /\
  trace (@file_moved Sample.pipeline 0 Sample.iter Cases.notes_gone Cases.archive
           Sample.opened).2
  = update_events ++ update_events.
Proof.
  split; [reflexivity|].
  rewrite (@file_moved_commits_twice Sample.pipeline 0 Sample.iter
             Cases.notes_gone Cases.archive Sample.opened Sample.cache
             [[VInt 2]] [] _ _ eq_refl eq_refl eq_refl eq_refl eq_refl eq_refl).
  reflexivity.
Defined.

Lemma file_moved_half_done_witness :
  kind Cases.notes_gone = IsFile /\ kind Cases.socket = IsOther /\
  (@file_moved Sample.pipeline 0 Sample.iter Cases.notes_gone Cases.socket
     Sample.opened).1
  = Raise TypeError.
Proof.
  split; [reflexivity|]. split; [reflexivity|].
  rewrite (@file_moved_half_done Sample.pipeline 0 Sample.iter
             Cases.notes_gone Cases.socket Sample.opened Sample.cache
             [[VInt 2]] [] _ eq_refl eq_refl eq_refl eq_refl eq_refl eq_refl
             (or_intror eq_refl)).
  reflexivity.
Defined.

Lemma iter_commits_at_the_end_witness :
  view Sample.opened = Sqlite Sample.cache /\
  exists n m s',
    @iter_pulls Sample.pipeline n Sample.iter IterNew Sample.opened
    = (Ok (m, None), s').
Proof.
  split; [reflexivity|].
  apply (@iter_commits_at_the_end Sample.pipeline (reference_finite Sample.tree)
           Sample.iter Sample.opened Sample.cache).
  reflexivity.
Defined.

Lemma update_is_drained_iter_witness :
  view Sample.opened = Sqlite Sample.cache /\
  exists fuel k s',
    @IndexUpdateIter_update Sample.pipeline fuel Sample.iter Sample.opened
    = (Ok true, s') /\
    store s' = Some (view s') /\
    trace s' = trace Sample.opened ++ UpdateIterCalled :: pass k ++ final_events Sample.iter.
Proof.
  split; [reflexivity|].
  apply (@update_is_drained_iter Sample.pipeline (reference_finite Sample.tree)
           Sample.iter Sample.opened Sample.cache).
  reflexivity.
Defined.

Lemma check_and_update_locked_witness :
  view Sample.opened = Sqlite Sample.cache /\
  exists fuel bs s',
    @Index_check_and_update Sample.pipeline fuel Sample.iter Sample.opened
    = (Ok true, s') /\
    store s' = Some (view s') /\
    trace s' = trace Sample.opened ++ Acquire :: blocks bs ++ closing Sample.iter ++ [Release].
Proof.
  split; [reflexivity|].
  apply (@check_and_update_locked Sample.pipeline (reference_finite Sample.tree)
           Sample.iter Sample.opened Sample.cache).
  reflexivity.
Defined.

Lemma one_pass_per_stale_item_witness :
  view Sample.opened = Sqlite Sample.cache /\
  Sample.full_run.1 = Ok (3%nat, None) /\
  exists t,
    trace Sample.full_run.2 = trace Sample.opened ++ t /\
    count_occ event_eq_dec t UpdateIterCalled
    = count_occ event_eq_dec t (CheckerPulled (Some true)).
Proof.
  assert (Hrun : Sample.full_run.1 = Ok (3%nat, None)) by reflexivity.
  split; [reflexivity|]. split; [exact Hrun|].
  destruct (@one_pass_per_stale_item Sample.pipeline Sample.iter None
              Sample.opened Sample.full_run.2 Sample.cache 4 3 eq_refl
              (run_eq Sample.full_run _ Hrun))
    as (t & Ht & Hc & _).
  exists t. auto.
Defined.

Lemma uptodate_after_update_witness :
  view Cases.flagged_opened = Sqlite Cases.flagged_cache /\
  reference_files Cases.flagged_cache /\
  Cases.updated_run.1 = Ok true /\
  @is_uptodate Reference.STATUS_NEED_UPDATE Cases.updated_run.2
  = (Ok true, Cases.updated_run.2).
Proof.
  assert (Hinv : reference_files Cases.flagged_cache)
    by (eexists; split; reflexivity).
  assert (Hrun : Cases.updated_run.1 = Ok true) by reflexivity.
  split; [reflexivity|]. split; [exact Hinv|]. split; [exact Hrun|].
  apply (@uptodate_after_update Sample.pipeline Reference.STATUS_NEED_UPDATE
           reference_files 3 Sample.iter Cases.flagged_opened Cases.updated_run.2
           Cases.flagged_cache (reference_pass_ends_clean Sample.tree) eq_refl Hinv).
  exact (run_eq Cases.updated_run _ Hrun).
Defined.

Lemma touch_makes_page_witness :
  view Sample.opened = Sqlite Sample.cache /\
  exists s' d',
    @touch_current_page_placeholder Sample.pipeline (MkPath "Draft") Sample.opened
    = (Ok tt, s') /\
    view s' = Sqlite d' /\ has_page d' "Draft" = true.
Proof.
  assert (Hlt : links_table (Table ["source"; "target"; "rel"; "names"] []
                               [[VInt 1; VInt 2; VInt 0; VText "Ideas"]]))
    by (split; reflexivity).
  assert (Hname : In "name" ["id"; "name"; "is_link_placeholder"])
    by (right; left; reflexivity).
  split; [reflexivity|].
  destruct (@touch_makes_page Sample.pipeline (reference_placeholders Sample.tree)
              (MkPath "Draft") Sample.opened Sample.cache _
              (Table ["id"; "name"; "is_link_placeholder"] [["name"]]
                 [[VInt 1; VText "Home"; VInt 0]; [VInt 2; VText "Ideas"; VInt 1]])
              (fun d0 ps H => reference_insert_makes_page Sample.tree
                                (MkPath "Draft") d0 [["name"]] ps H)
              eq_refl eq_refl Hlt eq_refl Hname)
    as (s' & d' & Hrun & Hv & _ & _ & Hpage).
  exists s', d'. auto.
Defined.

Lemma touch_without_links_witness :
  view Cases.old_opened = Sqlite Sample.old_cache /\
  Sample.old_cache !! "links" = None /\
  @touch_current_page_placeholder Sample.pipeline (MkPath "Draft") Cases.old_opened
  = (Raise OperationalError,
     State (Sqlite Sample.old_cache) (Some (Sqlite Sample.old_cache)) true
       [Acquire; Release]).
Proof.
  split; [reflexivity|]. split; [reflexivity|].
  apply (@touch_without_links Sample.pipeline (MkPath "Draft") Cases.old_opened
           Sample.old_cache); reflexivity.
Defined.

Lemma file_moved_folder_witness :
  kind Cases.journal_gone = IsFolder /\
  view Cases.journal_opened = Sqlite Cases.journal_cache /\
  exists fuel bs s',
    @file_moved Sample.pipeline fuel Sample.iter Cases.journal_gone Cases.diary
      Cases.journal_opened = (Ok true, s') /\
    trace s' = trace Cases.journal_opened
               ++ update_events ++ blocks bs ++ closing Sample.iter.
Proof.
  split; [reflexivity|]. split; [reflexivity|].
  destruct (@file_moved_folder Sample.pipeline (reference_finite Sample.tree)
              Sample.iter Cases.journal_gone Cases.diary Cases.journal_opened
              Cases.journal_cache [[VInt 3]] _ eq_refl eq_refl eq_refl eq_refl)
    as (_ & fuel & m & bs & s' & _ & Hrun & _ & Htr & _).
  exists fuel, bs, s'. auto.
Defined.



Lemma open_unreachable_path_witness :
  dbpath Sample.on_disk <> ":memory:" /\
  store (Sample.unopened Unreachable) = Some Unreachable /\
  @Index_init Sample.engine Sample.pipeline Sample.on_disk
    (Sample.unopened Unreachable)
  = (Raise OperationalError, Sample.unopened Unreachable).
Proof.
  assert (Hp : dbpath Sample.on_disk <> ":memory:") by discriminate.
  split; [exact Hp|]. split; [reflexivity|].
  apply (@open_unreachable_path Sample.engine Sample.pipeline Sample.on_disk
           (Sample.unopened Unreachable) Hp eq_refl).
Defined.

Lemma sample_reads (t : string) :
  @unquoted Sample.engine t = Ok t \/
  @unquoted Sample.engine t = Raise OperationalError.
Proof. simpl. destruct (Sample.word t); auto. Qed.

Lemma open_foreign_table_witness :
  dbpath Sample.on_disk <> ":memory:" /\
  lookup_property "db_version" Sample.foreign_cache = Ok (VText "0.6") /\
  is_Some (Sample.foreign_cache !! "my notes") /\
  @unquoted Sample.engine "my notes" = Raise OperationalError /\
  exists s' d',
    @Index_init Sample.engine Sample.pipeline Sample.on_disk
      (Sample.unopened (Sqlite Sample.foreign_cache))
    = (Raise OperationalError, s') /\
    store s' = Some (Sqlite d') /\ is_Some (d' !! "my notes") /\
    (@Index_init Sample.engine Sample.pipeline Sample.on_disk s').1
    = Raise OperationalError.
Proof.
  assert (Hp : dbpath Sample.on_disk <> ":memory:") by discriminate.
  assert (Hold : lookup_property "db_version" Sample.foreign_cache
                 = Ok (VText "0.6")) by reflexivity.
  assert (Hstale : lookup_property "db_version" Sample.foreign_cache
                   <> Ok (VText DB_VERSION)) by (rewrite Hold; discriminate).
  assert (Hthere : is_Some (Sample.foreign_cache !! "my notes"))
    by (eexists; reflexivity).
  split; [exact Hp|]. split; [exact Hold|]. split; [exact Hthere|].
  split; [reflexivity|].
  destruct (@open_foreign_table Sample.engine sample_catalog Sample.pipeline
              Sample.on_disk (Sample.unopened (Sqlite Sample.foreign_cache))
              Sample.foreign_cache "my notes" Hp eq_refl Hstale Hthere
              eq_refl eq_refl (fun t' _ => sample_reads t'))
    as (s' & d' & Hrun & _ & Hst & Ht & _ & _ & _ & Hagain).
  exists s', d'. auto.
Defined.
